(** * The overlay cache of the satellite database

    A shallow embedding of [satellitedb/overlaycache.go]: the node record
    store ([Get], [GetAll], [Update]), the cursor enumerator ([Paginate])
    and the reputation-gated selector ([FilterNodes]) together with the
    conversion between the flattened row and the structured node message
    ([convertOverlayNode]).

    Go values are embedded as follows.  Fixed-width integers are [Z], with
    the wrap-around of a narrowing conversion written out; [float64] is the
    primitive binary64 [float]; a [string] is a [string]; a byte slice is a
    [list byte]; a pointer that may be nil is an [option]; a slice is a
    [list], the nil slice being [[]]; a function returning [(v, err)]
    returns a pair whose second component is an [option error]; a call that
    can dereference a nil pointer returns an [outcome]. *)

From Stdlib Require Import ZArith String List Bool Lia.
From Stdlib Require Import Strings.Byte.
From Stdlib Require Import DecimalString.
From Stdlib Require Floats Uint63.
Import ListNotations.
Local Open Scope string_scope.
Local Open Scope list_scope.
Local Open Scope Z_scope.

Set Implicit Arguments.

(** ** Go basics *)

Module Go.

(** Conversion of an integer to a signed [w]-bit type. *)
Definition wrap (w : Z) (z : Z) : Z :=
  (z + 2 ^ (w - 1)) mod 2 ^ w - 2 ^ (w - 1).

Definition int32 (z : Z) : Z := wrap 32 z.

Definition MinInt64 : Z := - 2 ^ 63.
Definition MaxInt64 : Z := 2 ^ 63 - 1.

Definition in_int32 (z : Z) : Prop := - 2 ^ 31 <= z < 2 ^ 31.

(** [float64(z)] for an [int64] [z]: the nearest binary64 value. *)
Definition float64_of_int64 (z : Z) : PrimFloat.float :=
  let a := Z.abs z in
  let m :=
    if a =? 2 ^ 63
    then PrimFloat.mul (PrimFloat.of_uint63 (Uint63.of_Z (2 ^ 62))) PrimFloat.two
    else PrimFloat.of_uint63 (Uint63.of_Z a) in
  if z <? 0 then PrimFloat.opp m else m.

(** [int64(f)] for a [float64] [f]: the fraction is discarded
    (truncation towards zero).  A value that does not fit, an infinity
    or a NaN gives the result of the amd64 conversion instruction, the
    smallest [int64]. *)
Definition int64_of_float64 (f : PrimFloat.float) : Z :=
  match FloatOps.Prim2SF f with
  | SpecFloat.S754_zero _ => 0
  | SpecFloat.S754_finite s m e =>
      let a := if 0 <=? e then Zpos m * 2 ^ e else Zpos m / 2 ^ (- e) in
      let v := if s then - a else a in
      if (MinInt64 <=? v) && (v <=? MaxInt64) then v else MinInt64
  | _ => MinInt64
  end.

(** [%d] of the [fmt] package. *)
Definition fmt_d (z : Z) : string := NilZero.string_of_int (Z.to_int z).

(** [strings.Join]. *)
Fixpoint strings_Join (elems : list string) (sep : string) : string :=
  match elems with
  | [] => ""
  | [s] => s
  | s :: rest => (s ++ sep ++ strings_Join rest sep)%string
  end.

(** The result of a call: it returns, or it stops in a run-time panic
    (here always a nil pointer dereference). *)
Inductive outcome (A : Type) : Type :=
| Returns (a : A)
| Panics.
Arguments Panics {A}.

(** [s[i] = v] on a slice: a write inside the bounds (the loops of this
    file never write outside). *)
Fixpoint slice_set {A} (s : list A) (i : nat) (v : A) : list A :=
  match s, i with
  | [], _ => []
  | _ :: t, O => v :: t
  | x :: t, S j => x :: slice_set t j v
  end.

End Go.
Import Go.

(** ** Byte strings *)

Fixpoint bytes_eqb (a b : list byte) : bool :=
  match a, b with
  | [], [] => true
  | x :: a', y :: b' => Byte.eqb x y && bytes_eqb a' b'
  | _, _ => false
  end.

(** Lexicographic order, a proper prefix first ([bytes.Compare]). *)
Fixpoint bytes_leb (a b : list byte) : bool :=
  match a, b with
  | [], _ => true
  | _ :: _, [] => false
  | x :: a', y :: b' =>
      if N.ltb (Byte.to_N x) (Byte.to_N y) then true
      else if N.ltb (Byte.to_N y) (Byte.to_N x) then false
      else bytes_leb a' b'
  end.

(** ** Errors *)

(** gRPC status codes used by the package. *)
Inductive code : Type := ResourceExhausted.

Inductive error : Type :=
| ErrEmptyNode                       (* overlay.ErrEmptyNode: the argument is invalid *)
| ErrNodeNotFound                    (* overlay.ErrNodeNotFound *)
| ErrNoRows                          (* sql.ErrNoRows *)
| ErrNodeIDLength                    (* storj.NodeIDFromBytes on a wrong length *)
| ErrMissingInfo                     (* Error.New("missing info") *)
| ErrScan                            (* rows.Scan on a column of another kind *)
| ErrBind                            (* the arguments do not match the placeholders *)
| ErrConstraint                      (* a second row for a node id *)
| ErrStore (msg : string)            (* a failure of the store or its connection *)
| ErrStatus (c : code) (msg : string)  (* status.Errorf *)
| ErrClass (e : error)               (* Error.Wrap of the package's class *)
| ErrGroup (e1 e2 : error).          (* errs.Combine of two errors *)

(** [Error.Wrap]: nil stays nil. *)
Definition Error_Wrap (err : option error) : option error :=
  match err with
  | None => None
  | Some e => Some (ErrClass e)
  end.

(** [errs.Combine] of two errors: nil ones are dropped. *)
Definition errs_Combine (e1 e2 : option error) : option error :=
  match e1, e2 with
  | None, e | e, None => e
  | Some a, Some b => Some (ErrGroup a b)
  end.

(** ** Node identities *)

Module storj.

(** Modelled from the spec: [storj.NodeID] of [pkg/storj], which is
    outside the embedded file; an identity is a fixed-length opaque byte
    sequence ([[32]byte]) with a defined zero value. *)
Definition NodeID : Type := list byte.

Definition NodeID_size : nat := 32.

(** [NodeID{}], the zero identity. *)
Definition zero : NodeID := repeat x00 NodeID_size.

(** The length the array type fixes. *)
Definition wf (id : NodeID) : Prop := length id = NodeID_size.

(** Modelled from the spec: [NodeID.IsZero], the test for the zero value
    that is reserved as no node. *)
Definition IsZero (id : NodeID) : bool := bytes_eqb id zero.

(** Modelled from the spec: [NodeID.Bytes], the bytes of the identity. *)
Definition Bytes (id : NodeID) : list byte := id.

(** Modelled from the spec: [storj.NodeIDFromBytes]; a byte sequence of
    another length is not an identity. *)
Definition NodeIDFromBytes (b : list byte) : NodeID * option error :=
  if Nat.eqb (length b) NodeID_size then (b, None)
  else (zero, Some ErrNodeIDLength).

End storj.

(** ** Protocol messages *)

Module pb.

(** The messages of [pkg/pb] are outside the embedded file; they are
    modelled with the fields the overlay cache reads and writes. *)

(** Modelled from the spec: [pb.NodeAddress], network reachability
    (address, transport). *)
Module NodeAddress.
Record t : Type := mk { Transport : Z; Address : string }.
Definition empty : t := mk 0 "".
End NodeAddress.

(** Modelled from the spec: [pb.NodeMetadata], the operator email and
    wallet. *)
Module NodeMetadata.
Record t : Type := mk { Email : string; Wallet : string }.
Definition empty : t := mk "" "".
End NodeMetadata.

(** Modelled from the spec: [pb.NodeRestrictions], the resource floors;
    signed integers. *)
Module NodeRestrictions.
Record t : Type := mk { FreeBandwidth : Z; FreeDisk : Z }.
End NodeRestrictions.

(** Modelled from the spec: [pb.NodeStats], the reputation of a node. *)
Module NodeStats.
Record t : Type := mk {
  NodeId : storj.NodeID;
  Latency_90 : Z;
  AuditSuccessRatio : PrimFloat.float;
  UptimeRatio : PrimFloat.float;
  AuditCount : Z;
  AuditSuccessCount : Z;
  UptimeCount : Z;
  UptimeSuccessCount : Z
}.
(** [&pb.NodeStats{}]; the zero value of the identity array. *)
Definition empty : t :=
  mk storj.zero 0 PrimFloat.zero PrimFloat.zero 0 0 0 0.
End NodeStats.

(** Modelled from the spec: the role of a storage node in the
    enumeration [pb.NodeType]. *)
Definition NodeType_STORAGE : Z := 2.

(** Modelled from the spec: [pb.Node], the structured node-info value;
    its four sub-groups are optional. *)
Module Node.
Record t : Type := mk {
  Id : storj.NodeID;
  Type_ : Z;
  Address : option NodeAddress.t;
  Metadata : option NodeMetadata.t;
  Restrictions : option NodeRestrictions.t;
  Reputation : option NodeStats.t
}.
End Node.

(** Modelled from the spec: [pb.OverlayOptions], the placement
    parameters of a request. *)
Module OverlayOptions.
Record t : Type := mk {
  Amount : Z;
  Restrictions : option NodeRestrictions.t;
  ExcludedNodes : list storj.NodeID
}.
End OverlayOptions.

(** Modelled from the spec: the getters of the generated messages; on a
    nil message a getter returns the zero value of the field. *)
Definition GetAmount (o : option OverlayOptions.t) : Z :=
  match o with
  | Some m => OverlayOptions.Amount m
  | None => 0
  end.

Definition GetRestrictions (o : option OverlayOptions.t)
  : option NodeRestrictions.t :=
  match o with
  | Some m => OverlayOptions.Restrictions m
  | None => None
  end.

Definition GetExcludedNodes (o : option OverlayOptions.t)
  : list storj.NodeID :=
  match o with
  | Some m => OverlayOptions.ExcludedNodes m
  | None => []
  end.

Definition GetFreeBandwidth (o : option NodeRestrictions.t) : Z :=
  match o with
  | Some m => NodeRestrictions.FreeBandwidth m
  | None => 0
  end.

Definition GetFreeDisk (o : option NodeRestrictions.t) : Z :=
  match o with
  | Some m => NodeRestrictions.FreeDisk m
  | None => 0
  end.

Definition GetAuditCount (o : option NodeStats.t) : Z :=
  match o with
  | Some m => NodeStats.AuditCount m
  | None => 0
  end.

End pb.

(** ** The backing store *)

Module dbx.

(** The generated [dbx] layer and the SQL engine under it are outside
    the embedded file.  The registry consumes an abstract queryable
    table of one row per node identity and a transaction primitive: open
    transaction, query rows matching a predicate, get by identity,
    create, update by identity, commit, rollback; every one of them can
    fail with a store error. *)

(** Modelled from the spec: the row [dbx.OverlayCacheNode], with the
    fields [Update] writes and [convertOverlayNode] reads. *)
Module OverlayCacheNode.
Record t : Type := mk {
  NodeId : list byte;
  NodeType : Z;
  Address : string;
  Protocol : Z;
  OperatorEmail : string;
  OperatorWallet : string;
  FreeBandwidth : Z;
  FreeDisk : Z;
  Latency90 : Z;
  AuditSuccessRatio : PrimFloat.float;
  AuditUptimeRatio : PrimFloat.float;
  AuditCount : Z;
  AuditSuccessCount : Z;
  UptimeCount : Z;
  UptimeSuccessCount : Z
}.
(** [&dbx.OverlayCacheNode{}] *)
Definition empty : t :=
  mk [] 0 "" 0 "" "" 0 0 0 PrimFloat.zero PrimFloat.zero 0 0 0 0.
End OverlayCacheNode.
Definition row : Type := OverlayCacheNode.t.

(** Modelled from the spec: [dbx.OverlayCacheNode_Update_Fields]; a
    field is written only if it was set, [Some v] here. *)
Module Update_Fields.
Record t : Type := mk {
  Address : option string;
  Protocol : option Z;
  OperatorEmail : option string;
  OperatorWallet : option string;
  FreeBandwidth : option Z;
  FreeDisk : option Z;
  Latency90 : option Z;
  AuditSuccessRatio : option PrimFloat.float;
  AuditUptimeRatio : option PrimFloat.float;
  AuditCount : option Z;
  AuditSuccessCount : option Z;
  UptimeCount : option Z;
  UptimeSuccessCount : option Z
}.
End Update_Fields.

Definition set_or {A} (f : option A) (old : A) : A :=
  match f with
  | Some v => v
  | None => old
  end.

Definition apply_update (u : Update_Fields.t) (r : row) : row :=
  OverlayCacheNode.mk
    (OverlayCacheNode.NodeId r)
    (OverlayCacheNode.NodeType r)
    (set_or (Update_Fields.Address u) (OverlayCacheNode.Address r))
    (set_or (Update_Fields.Protocol u) (OverlayCacheNode.Protocol r))
    (set_or (Update_Fields.OperatorEmail u) (OverlayCacheNode.OperatorEmail r))
    (set_or (Update_Fields.OperatorWallet u) (OverlayCacheNode.OperatorWallet r))
    (set_or (Update_Fields.FreeBandwidth u) (OverlayCacheNode.FreeBandwidth r))
    (set_or (Update_Fields.FreeDisk u) (OverlayCacheNode.FreeDisk r))
    (set_or (Update_Fields.Latency90 u) (OverlayCacheNode.Latency90 r))
    (set_or (Update_Fields.AuditSuccessRatio u) (OverlayCacheNode.AuditSuccessRatio r))
    (set_or (Update_Fields.AuditUptimeRatio u) (OverlayCacheNode.AuditUptimeRatio r))
    (set_or (Update_Fields.AuditCount u) (OverlayCacheNode.AuditCount r))
    (set_or (Update_Fields.AuditSuccessCount u) (OverlayCacheNode.AuditSuccessCount r))
    (set_or (Update_Fields.UptimeCount u) (OverlayCacheNode.UptimeCount r))
    (set_or (Update_Fields.UptimeSuccessCount u) (OverlayCacheNode.UptimeSuccessCount r)).

(** *** Values, columns and the queries of the selector *)

Inductive value : Type :=
| VBytes (b : list byte)
| VInt (z : Z)
| VFloat (f : PrimFloat.float)
| VText (s : string).

Inductive column : Type :=
| node_id | node_type | address | protocol | operator_email
| operator_wallet | free_bandwidth | free_disk | latency_90
| audit_success_ratio | audit_uptime_ratio | audit_count
| audit_success_count | uptime_count | uptime_success_count.

Definition col (r : row) (c : column) : value :=
  match c with
  | node_id => VBytes (OverlayCacheNode.NodeId r)
  | node_type => VInt (OverlayCacheNode.NodeType r)
  | address => VText (OverlayCacheNode.Address r)
  | protocol => VInt (OverlayCacheNode.Protocol r)
  | operator_email => VText (OverlayCacheNode.OperatorEmail r)
  | operator_wallet => VText (OverlayCacheNode.OperatorWallet r)
  | free_bandwidth => VInt (OverlayCacheNode.FreeBandwidth r)
  | free_disk => VInt (OverlayCacheNode.FreeDisk r)
  | latency_90 => VInt (OverlayCacheNode.Latency90 r)
  | audit_success_ratio => VFloat (OverlayCacheNode.AuditSuccessRatio r)
  | audit_uptime_ratio => VFloat (OverlayCacheNode.AuditUptimeRatio r)
  | audit_count => VInt (OverlayCacheNode.AuditCount r)
  | audit_success_count => VInt (OverlayCacheNode.AuditSuccessCount r)
  | uptime_count => VInt (OverlayCacheNode.UptimeCount r)
  | uptime_success_count => VInt (OverlayCacheNode.UptimeSuccessCount r)
  end.

(** The comparison operators of the two queries: [>=], [<], [==]. *)
Inductive cmp : Type := GE | LT | EQ.

(** A comparison of two values of one kind; values of two kinds are
    never compared by the queries of this package. *)
Definition compare_values (op : cmp) (a b : value) : bool :=
  match a, b with
  | VInt x, VInt y =>
      match op with GE => y <=? x | LT => x <? y | EQ => x =? y end
  | VFloat x, VFloat y =>
      match op with
      | GE => PrimFloat.leb y x
      | LT => PrimFloat.ltb x y
      | EQ => PrimFloat.eqb x y
      end
  | VBytes x, VBytes y =>
      match op with
      | GE => bytes_leb y x
      | LT => negb (bytes_leb y x)
      | EQ => bytes_eqb x y
      end
  | VText x, VText y =>
      match op with
      | GE => String.leb y x
      | LT => String.ltb x y
      | EQ => String.eqb x y
      end
  | _, _ => false
  end.

(** One conjunct of a WHERE clause.  [NOT_IN c ps] is
    [c NOT IN (p1, ..., pn)] for the placeholders [ps];
    [CMP c op] is [c op ?]. *)
Inductive cond : Type :=
| NOT_IN (c : column) (placeholders : list string)
| CMP (c : column) (op : cmp).

(** [SELECT columns FROM overlay_cache_nodes WHERE c1 AND ... LIMIT ?] *)
Record select : Type := {
  sel_columns : list column;
  sel_where : list cond
}.

(** A conjunct with its arguments bound. *)
Inductive bound : Type :=
| BNotIn (c : column) (vs : list value)
| BCmp (c : column) (op : cmp) (v : value).

(** Placeholders take the arguments in order; too few arguments is an
    error of the call. *)
Fixpoint bind (cs : list cond) (args : list value)
  : option (list bound * list value) :=
  match cs with
  | [] => Some ([], args)
  | NOT_IN c ps :: cs' =>
      let n := length ps in
      if Nat.ltb (length args) n then None
      else
        match bind cs' (skipn n args) with
        | Some (bs, rest) => Some (BNotIn c (firstn n args) :: bs, rest)
        | None => None
        end
  | CMP c op :: cs' =>
      match args with
      | [] => None
      | v :: args' =>
          match bind cs' args' with
          | Some (bs, rest) => Some (BCmp c op v :: bs, rest)
          | None => None
          end
      end
  end.

(** The truth of a bound conjunct on a row.  An empty list after
    [NOT IN] excludes nothing, as in the SQL dialect of the queries
    (the one that has [==]). *)
Definition holds (r : row) (b : bound) : bool :=
  match b with
  | BNotIn c vs => negb (existsb (compare_values EQ (col r c)) vs)
  | BCmp c op v => compare_values op (col r c) v
  end.

(** [LIMIT n]: the first [n] rows; a negative [n] is no limit (same
    dialect). *)
Definition LIMIT {A} (n : Z) (l : list A) : list A :=
  if n <? 0 then l else firstn (Z.to_nat n) l.

(** A result set: the selected columns of each row, in table order. *)
Definition Rows : Type := list (list value).

Definition run_select (q : select) (args : list value) (table : list row)
  : option Rows :=
  match bind (sel_where q) args with
  | Some (bs, [VInt n]) =>
      Some (map (fun r => map (col r) (sel_columns q))
                (LIMIT n (filter (fun r => forallb (holds r) bs) table)))
  | _ => None
  end.

(** *** The database handle *)

(** Modelled from the spec: the handle [dbx.DB].  [call] lists the calls
    that reach the store; [fault] says which of them fail, and with what
    error; a healthy store has no fault. *)
Inductive call : Type :=
| call_Open
| call_Commit
| call_Rollback
| call_Get (id : list byte)
| call_Create (id : list byte)
| call_Update (id : list byte)
| call_Limited (cursor : list byte) (limit offset : Z)
| call_Query (q : select) (args : list value).

Record DB : Type := {
  overlay_cache_nodes : list row;
  fault : call -> option error
}.

Definition no_fault : call -> option error := fun _ => None.

(** A store with no row and no fault. *)
Definition fresh : DB :=
  {| overlay_cache_nodes := []; fault := no_fault |}.

(** An open transaction: the handle it was opened on and the rows as
    the transaction sees them. *)
Record Tx : Type := {
  tx_db : DB;
  tx_nodes : list row
}.

Definition find_node (id : list byte) (nodes : list row) : option row :=
  find (fun r => bytes_eqb (OverlayCacheNode.NodeId r) id) nodes.

Definition get_by_node_id (f : call -> option error) (nodes : list row)
           (id : list byte) : option row * option error :=
  match f (call_Get id) with
  | Some e => (None, Some e)
  | None =>
      match find_node id nodes with
      | Some r => (Some r, None)
      | None => (None, Some ErrNoRows)
      end
  end.

(** Modelled from the spec: get by identity; [sql.ErrNoRows] when the
    identity has no row. *)
Definition Get_OverlayCacheNode_By_NodeId (db : DB) (id : list byte)
  : option row * option error :=
  get_by_node_id (fault db) (overlay_cache_nodes db) id.

(** Modelled from the spec: open transaction. *)
Definition Open (db : DB) : option Tx * option error :=
  match fault db call_Open with
  | Some e => (None, Some e)
  | None => (Some {| tx_db := db; tx_nodes := overlay_cache_nodes db |}, None)
  end.

(** Modelled from the spec: get by identity inside a transaction. *)
Definition Tx_Get_OverlayCacheNode_By_NodeId (tx : Tx) (id : list byte)
  : option row * option error :=
  get_by_node_id (fault (tx_db tx)) (tx_nodes tx) id.

(** Modelled from the spec: create.  The node id is the key of the
    table: a second row for it is refused. *)
Definition Tx_Create_OverlayCacheNode (tx : Tx) (r : row)
  : option row * option error * Tx :=
  match fault (tx_db tx) (call_Create (OverlayCacheNode.NodeId r)) with
  | Some e => (None, Some e, tx)
  | None =>
      match find_node (OverlayCacheNode.NodeId r) (tx_nodes tx) with
      | Some _ => (None, Some ErrConstraint, tx)
      | None =>
          (Some r, None,
           {| tx_db := tx_db tx; tx_nodes := tx_nodes tx ++ [r] |})
      end
  end.

Definition update_node (id : list byte) (u : Update_Fields.t)
           (nodes : list row) : list row :=
  map (fun r => if bytes_eqb (OverlayCacheNode.NodeId r) id
                then apply_update u r else r) nodes.

(** Modelled from the spec: update by identity.  An update of an absent
    row changes nothing and returns no row. *)
Definition Tx_Update_OverlayCacheNode_By_NodeId (tx : Tx) (id : list byte)
           (u : Update_Fields.t) : option row * option error * Tx :=
  match fault (tx_db tx) (call_Update id) with
  | Some e => (None, Some e, tx)
  | None =>
      match find_node id (tx_nodes tx) with
      | None => (None, None, tx)
      | Some r =>
          (Some (apply_update u r), None,
           {| tx_db := tx_db tx; tx_nodes := update_node id u (tx_nodes tx) |})
      end
  end.

(** Modelled from the spec: commit makes the rows of the transaction
    the rows of the store; a failed commit leaves the store as it was. *)
Definition Tx_Commit (tx : Tx) : option error * DB :=
  match fault (tx_db tx) call_Commit with
  | Some e => (Some e, tx_db tx)
  | None =>
      (None, {| overlay_cache_nodes := tx_nodes tx;
                fault := fault (tx_db tx) |})
  end.

(** Modelled from the spec: rollback drops the rows of the
    transaction. *)
Definition Tx_Rollback (tx : Tx) : option error :=
  fault (tx_db tx) call_Rollback.

(** Rows ordered by identity ascending. *)
Fixpoint insert_by_id (r : row) (l : list row) : list row :=
  match l with
  | [] => [r]
  | x :: l' =>
      if bytes_leb (OverlayCacheNode.NodeId r) (OverlayCacheNode.NodeId x)
      then r :: l
      else x :: insert_by_id r l'
  end.

Definition order_by_id (l : list row) : list row :=
  fold_right insert_by_id [] l.

(** Modelled from the spec: up to [limit] rows with identity at or
    after [cursor], ordered by identity ascending, after the first
    [offset] of them. *)
Definition Limited_OverlayCacheNode_By_NodeId_GreaterOrEqual
           (db : DB) (cursor : list byte) (limit offset : Z)
  : list row * option error :=
  match fault db (call_Limited cursor limit offset) with
  | Some e => ([], Some e)
  | None =>
      (firstn (Z.to_nat limit)
         (skipn (Z.to_nat offset)
            (order_by_id
               (filter (fun r => bytes_leb cursor (OverlayCacheNode.NodeId r))
                       (overlay_cache_nodes db)))),
       None)
  end.

(** Modelled from the spec: query rows matching a predicate,
    [db.Query]; the result set, or the error of the call. *)
Definition Query (db : DB) (q : select) (args : list value)
  : option Rows * option error :=
  match fault db (call_Query q args) with
  | Some e => (None, Some e)
  | None =>
      match run_select q args (overlay_cache_nodes db) with
      | Some rs => (Some rs, None)
      | None => (None, Some ErrBind)
      end
  end.

(** [db.Rebind] leaves a query in this dialect as it is. *)
Definition Rebind (q : select) : select := q.

(** *** Statements outside a transaction *)

(** The statement of the generated delete,
    [DELETE FROM overlay_cache_nodes WHERE node_id = ?], by its WHERE
    clause: the key under which [fault] answers for the call. *)
Definition delete_statement : select :=
  {| sel_columns := []; sel_where := [CMP node_id EQ] |}.

(** Modelled from the spec: delete by identity.  The rows of the
    identity are removed; the result says whether there was one; the
    absence of the row is not an error. *)
Definition Delete_OverlayCacheNode_By_NodeId (db : DB) (id : list byte)
  : bool * option error * DB :=
  match fault db (call_Query delete_statement [VBytes id]) with
  | Some e => (false, Some e, db)
  | None =>
      (existsb (fun r => bytes_eqb (OverlayCacheNode.NodeId r) id)
               (overlay_cache_nodes db),
       None,
       {| overlay_cache_nodes :=
            filter (fun r => negb (bytes_eqb (OverlayCacheNode.NodeId r) id))
                   (overlay_cache_nodes db);
          fault := fault db |})
  end.

(** The statement of the generated wallet lookup,
    [SELECT operator_wallet FROM overlay_cache_nodes WHERE node_id = ?],
    the key under which [fault] answers for the call. *)
Definition wallet_statement : select :=
  {| sel_columns := [operator_wallet]; sel_where := [CMP node_id EQ] |}.

(** Modelled from the spec: [dbx.OperatorWallet_Row], the one selected
    column. *)
Record OperatorWallet_Row : Type := { OperatorWallet : string }.

(** Modelled from the spec: get the operator wallet by identity;
    [sql.ErrNoRows] when the identity has no row. *)
Definition Get_OverlayCacheNode_OperatorWallet_By_NodeId
           (db : DB) (id : list byte)
  : option OperatorWallet_Row * option error :=
  match fault db (call_Query wallet_statement [VBytes id]) with
  | Some e => (None, Some e)
  | None =>
      match find_node id (overlay_cache_nodes db) with
      | Some r =>
          (Some {| OperatorWallet := OverlayCacheNode.OperatorWallet r |},
           None)
      | None => (None, Some ErrNoRows)
      end
  end.

End dbx.

(** ** Requests of the selector *)

Module overlay.

(** Modelled from the spec: [overlay.FilterNodesRequest] of
    [pkg/overlay], the transient selection request: desired proven-node
    count, minimum-reputation floor, placement options (amount, resource
    floors, excluded identities), new-node inclusion percentage and
    new-node audit-count threshold. *)
Module FilterNodesRequest.
Record t : Type := mk {
  MinNodes : Z;
  MinReputation : option pb.NodeStats.t;
  Opts : option pb.OverlayOptions.t;
  NewNodePercentage : PrimFloat.float;
  NewNodeAuditThreshold : Z
}.
End FilterNodesRequest.

End overlay.

(** ** The overlay cache *)

Module satellitedb.

Import storj pb dbx overlay.

Record getNodesRequest : Type := {
  minReputation : option NodeStats.t;
  freeBandwidth : Z;
  freeDisk : Z;
  excluded : list NodeID;
  reputableNodeAmount : Z;
  newNodeAmount : Z;
  newNodeAuditThreshold : Z
}.

(** *** Result assembly *)

Definition convertOverlayNode (info : option row)
  : option Node.t * option error :=
  match info with
  | None => (None, Some ErrMissingInfo)
  | Some info =>
      let '(id, err) := NodeIDFromBytes (OverlayCacheNode.NodeId info) in
      match err with
      | Some e => (None, Some e)
      | None =>
          let Address :=
            NodeAddress.mk (int32 (OverlayCacheNode.Protocol info))
                           (OverlayCacheNode.Address info) in
          let Metadata :=
            NodeMetadata.mk (OverlayCacheNode.OperatorEmail info)
                            (OverlayCacheNode.OperatorWallet info) in
          let Restrictions :=
            NodeRestrictions.mk (OverlayCacheNode.FreeBandwidth info)
                                (OverlayCacheNode.FreeDisk info) in
          let Reputation :=
            NodeStats.mk id
              (OverlayCacheNode.Latency90 info)
              (OverlayCacheNode.AuditSuccessRatio info)
              (OverlayCacheNode.AuditUptimeRatio info)
              (OverlayCacheNode.AuditCount info)
              (OverlayCacheNode.AuditSuccessCount info)
              (OverlayCacheNode.UptimeCount info)
              (OverlayCacheNode.UptimeSuccessCount info) in
          let node :=
            Node.mk id (int32 (OverlayCacheNode.NodeType info))
              (if String.eqb (NodeAddress.Address Address) ""
               then None else Some Address)
              (if String.eqb (NodeMetadata.Email Metadata) ""
                  && String.eqb (NodeMetadata.Wallet Metadata) ""
               then None else Some Metadata)
              (if (NodeRestrictions.FreeBandwidth Restrictions <? 0)
                  && (NodeRestrictions.FreeDisk Restrictions <? 0)
               then None else Some Restrictions)
              (if NodeStats.Latency_90 Reputation <? 0
               then None else Some Reputation) in
          (Some node, None)
      end
  end.

(** *** The node record store *)

Definition Get (cache : DB) (id : NodeID) : option Node.t * option error :=
  if IsZero id then (None, Some ErrEmptyNode)
  else
    let '(node, err) := Get_OverlayCacheNode_By_NodeId cache (Bytes id) in
    match err with
    | Some ErrNoRows => (None, Some ErrNodeNotFound)
    | Some e => (None, Some e)
    | None => convertOverlayNode node
    end.

(** The loop of [GetAll]: [i] is the index of the head of [ids]. *)
Fixpoint GetAll_loop (cache : DB) (ids : list NodeID) (i : nat)
         (infos : list (option Node.t)) : list (option Node.t) :=
  match ids with
  | [] => infos
  | id :: rest =>
      let '(info, err) := Get cache id in
      match err with
      | Some _ => GetAll_loop cache rest (S i) infos
      | None => GetAll_loop cache rest (S i) (slice_set infos i info)
      end
  end.

Definition GetAll (cache : DB) (ids : list NodeID)
  : list (option Node.t) * option error :=
  let infos := repeat None (length ids) in
  (GetAll_loop cache ids 0 infos, None).

Definition Update (cache : DB) (info : option Node.t)
  : outcome (option error * DB) :=
  match info with
  | None => Returns (Some ErrEmptyNode, cache)
  | Some info =>
  if IsZero (Node.Id info) then Returns (Some ErrEmptyNode, cache)
  else
  let '(tx, err) := Open cache in
  match err with
  | Some _ => Returns (Error_Wrap err, cache)
  | None =>
  match tx with
  | None => Panics
  | Some tx =>
  let '(_, err) :=
    Tx_Get_OverlayCacheNode_By_NodeId tx (Bytes (Node.Id info)) in
  let address :=
    match Node.Address info with
    | None => NodeAddress.empty
    | Some a => a
    end in
  let metadata :=
    match Node.Metadata info with
    | None => NodeMetadata.empty
    | Some m => m
    end in
  let restrictions :=
    match Node.Restrictions info with
    | None => NodeRestrictions.mk (-1) (-1)
    | Some r => r
    end in
  let reputation :=
    match Node.Reputation info with
    | None => NodeStats.empty
    | Some r => r
    end in
  match err with
  | Some _ =>
      let '(_, err, tx) :=
        Tx_Create_OverlayCacheNode tx
          (OverlayCacheNode.mk
             (Bytes (Node.Id info))
             (Node.Type_ info)
             (NodeAddress.Address address)
             (NodeAddress.Transport address)
             (NodeMetadata.Email metadata)
             (NodeMetadata.Wallet metadata)
             (NodeRestrictions.FreeBandwidth restrictions)
             (NodeRestrictions.FreeDisk restrictions)
             (NodeStats.Latency_90 reputation)
             (NodeStats.AuditSuccessRatio reputation)
             (NodeStats.UptimeRatio reputation)
             (NodeStats.AuditCount reputation)
             (NodeStats.AuditSuccessCount reputation)
             (NodeStats.UptimeCount reputation)
             (NodeStats.UptimeSuccessCount reputation)) in
      match err with
      | Some _ =>
          Returns (Error_Wrap (errs_Combine err (Tx_Rollback tx)), cache)
      | None =>
          let '(err, cache) := Tx_Commit tx in
          Returns (Error_Wrap err, cache)
      end
  | None =>
      (* the fields of the update read [info.Reputation] itself, not
         the defaulted [reputation] *)
      match Node.Reputation info with
      | None => Panics
      | Some info_Reputation =>
      let update :=
        Update_Fields.mk
          (Some (NodeAddress.Address address))
          (Some (NodeAddress.Transport address))
          None None None None
          (Some (NodeStats.Latency_90 info_Reputation))
          (Some (NodeStats.AuditSuccessRatio info_Reputation))
          (Some (NodeStats.UptimeRatio info_Reputation))
          (Some (NodeStats.AuditCount info_Reputation))
          (Some (NodeStats.AuditSuccessCount info_Reputation))
          (Some (NodeStats.UptimeCount info_Reputation))
          (Some (NodeStats.UptimeSuccessCount info_Reputation)) in
      let update :=
        match Node.Metadata info with
        | Some info_Metadata =>
            Update_Fields.mk
              (Update_Fields.Address update)
              (Update_Fields.Protocol update)
              (Some (NodeMetadata.Email info_Metadata))
              (Some (NodeMetadata.Wallet info_Metadata))
              (Update_Fields.FreeBandwidth update)
              (Update_Fields.FreeDisk update)
              (Update_Fields.Latency90 update)
              (Update_Fields.AuditSuccessRatio update)
              (Update_Fields.AuditUptimeRatio update)
              (Update_Fields.AuditCount update)
              (Update_Fields.AuditSuccessCount update)
              (Update_Fields.UptimeCount update)
              (Update_Fields.UptimeSuccessCount update)
        | None => update
        end in
      let update :=
        match Node.Restrictions info with
        | Some _ =>
            Update_Fields.mk
              (Update_Fields.Address update)
              (Update_Fields.Protocol update)
              (Update_Fields.OperatorEmail update)
              (Update_Fields.OperatorWallet update)
              (Some (NodeRestrictions.FreeBandwidth restrictions))
              (Some (NodeRestrictions.FreeDisk restrictions))
              (Update_Fields.Latency90 update)
              (Update_Fields.AuditSuccessRatio update)
              (Update_Fields.AuditUptimeRatio update)
              (Update_Fields.AuditCount update)
              (Update_Fields.AuditSuccessCount update)
              (Update_Fields.UptimeCount update)
              (Update_Fields.UptimeSuccessCount update)
        | None => update
        end in
      let '(_, err, tx) :=
        Tx_Update_OverlayCacheNode_By_NodeId tx
          (Bytes (Node.Id info)) update in
      match err with
      | Some _ =>
          Returns (Error_Wrap (errs_Combine err (Tx_Rollback tx)), cache)
      | None =>
          let '(err, cache) := Tx_Commit tx in
          Returns (Error_Wrap err, cache)
      end
      end
  end
  end
  end
  end.

(** *** The cursor enumerator *)

(** The conversion loop of [List] and [Paginate]: [infos[i]] receives the
    conversion of the [i]-th row; the first error ends the call. *)
Fixpoint convert_loop (dbxInfos : list row) (i : nat)
         (infos : list (option Node.t)) : list (option Node.t) * option error :=
  match dbxInfos with
  | [] => (infos, None)
  | dbxInfo :: rest =>
      let '(info, err) := convertOverlayNode (Some dbxInfo) in
      match err with
      | Some _ => ([], err)
      | None => convert_loop rest (S i) (slice_set infos i info)
      end
  end.

Section Enumerator.

(** [storage.LookupLimit], a constant of the [storage] package, outside
    the embedded file: a parameter. *)
Variable LookupLimit : Z.

(** The limit the query runs with: the first [if] of [List] and of
    [Paginate]. *)
Definition clamp_limit (limit : Z) : Z :=
  if (limit <=? 0) || (LookupLimit <? limit) then LookupLimit else limit.

Definition Paginate (cache : DB) (offset : Z) (limit : Z)
  : list (option Node.t) * bool * option error :=
  let cursor := storj.zero in
  let more := true in
  let limit := clamp_limit limit in
  let '(dbxInfos, err) :=
    Limited_OverlayCacheNode_By_NodeId_GreaterOrEqual
      cache (Bytes cursor) limit offset in
  match err with
  | Some _ => ([], false, err)
  | None =>
      let more := if Z.of_nat (length dbxInfos) <? limit then false else more in
      let infos := repeat None (length dbxInfos) in
      let '(infos, err) := convert_loop dbxInfos 0 infos in
      match err with
      | Some _ => ([], false, err)
      | None => (infos, more, None)
      end
  end.

End Enumerator.

(** *** The reputation-gated selector *)

(** The loop of [sliceOfCopies] over the indices of the slice. *)
Fixpoint sliceOfCopies_loop (val : string) (indices : list nat)
         (slice : list string) : list string :=
  match indices with
  | [] => slice
  | i :: rest => sliceOfCopies_loop val rest (slice_set slice i val)
  end.

Definition sliceOfCopies (val : string) (count : nat) : list string :=
  let slice := repeat "" count in
  sliceOfCopies_loop val (seq 0 count) slice.

(** The columns both queries select, in the order [rows.Scan] reads
    them. *)
Definition selected_columns : list column :=
  [node_id; node_type; address; free_bandwidth; free_disk;
   audit_success_ratio; audit_uptime_ratio; audit_count;
   audit_success_count; uptime_count; uptime_success_count].

(** [rows.Scan] into the eleven fields of a fresh [OverlayCacheNode]; the
    other fields keep their zero value. *)
Definition Scan (r : list value) : row * option error :=
  match r with
  | [VBytes NodeId; VInt NodeType; VText Address; VInt FreeBandwidth;
     VInt FreeDisk; VFloat AuditSuccessRatio; VFloat AuditUptimeRatio;
     VInt AuditCount; VInt AuditSuccessCount; VInt UptimeCount;
     VInt UptimeSuccessCount] =>
      (OverlayCacheNode.mk NodeId NodeType Address 0 "" ""
         FreeBandwidth FreeDisk 0 AuditSuccessRatio AuditUptimeRatio
         AuditCount AuditSuccessCount UptimeCount UptimeSuccessCount,
       None)
  | _ => (OverlayCacheNode.empty, Some ErrScan)
  end.

Fixpoint sqlRowsToNodes_loop (rows : Rows) (nodes : list (option Node.t))
  : list (option Node.t) * option error :=
  match rows with
  | [] => (nodes, None)
  | r :: rest =>
      let '(overlayNode, err) := Scan r in
      match err with
      | Some _ => ([], err)
      | None =>
          let '(node, err) := convertOverlayNode (Some overlayNode) in
          match err with
          | Some _ => ([], err)
          | None => sqlRowsToNodes_loop rest (nodes ++ [node])
          end
      end
  end.

Definition sqlRowsToNodes (rows : Rows) : list (option Node.t) * option error :=
  sqlRowsToNodes_loop rows [].

Definition nodeTypeStorage : Z := 2.

(** The query of [findReputableNodesQuery] for [n] excluded identities. *)
Definition reputable_query (n : nat) : select :=
  {| sel_columns := selected_columns;
     sel_where :=
       [NOT_IN node_id (sliceOfCopies "?" n);
        CMP audit_count GE;
        CMP audit_success_ratio GE;
        CMP uptime_count GE;
        CMP audit_uptime_ratio GE;
        CMP free_bandwidth GE;
        CMP free_disk GE;
        CMP node_type EQ] |}.

(** The query of [findNewNodesQuery] for [n] excluded identities. *)
Definition new_query (n : nat) : select :=
  {| sel_columns := selected_columns;
     sel_where :=
       [NOT_IN node_id (sliceOfCopies "?" n);
        CMP audit_count LT;
        CMP free_bandwidth GE;
        CMP free_disk GE;
        CMP node_type EQ] |}.

(** The text between the brackets of [NOT IN (...)]. *)
Definition not_in_text (n : nat) : string :=
  strings_Join (sliceOfCopies "?" n) ", ".

Definition findReputableNodesQuery (cache : DB) (req : getNodesRequest)
  : outcome (option Rows * option error) :=
  match minReputation req with
  | None => Panics
  | Some req_minReputation =>
      let auditCount := NodeStats.AuditCount req_minReputation in
      let auditCount :=
        if auditCount <? newNodeAuditThreshold req
        then newNodeAuditThreshold req else auditCount in
      let auditSuccessRatio := NodeStats.AuditSuccessRatio req_minReputation in
      let uptimeCount := NodeStats.UptimeCount req_minReputation in
      let uptimeRatio := NodeStats.UptimeRatio req_minReputation in
      let nodeAmt := reputableNodeAmount req in
      let args := map (fun id => VBytes (Bytes id)) (excluded req) in
      let args :=
        args ++ [VInt auditCount; VFloat auditSuccessRatio; VInt uptimeCount;
                 VFloat uptimeRatio; VInt (freeBandwidth req);
                 VInt (freeDisk req); VInt nodeTypeStorage; VInt nodeAmt] in
      let '(rows, err) :=
        Query cache (reputable_query (length (excluded req))) args in
      match err with
      | Some _ => Returns (None, err)
      | None => Returns (rows, None)
      end
  end.

Definition findNewNodesQuery (cache : DB) (req : getNodesRequest)
  : option Rows * option error :=
  let args := map (fun id => VBytes (Bytes id)) (excluded req) in
  let args :=
    args ++ [VInt (newNodeAuditThreshold req); VInt (freeBandwidth req);
             VInt (freeDisk req); VInt nodeTypeStorage;
             VInt (newNodeAmount req)] in
  let '(rows, err) :=
    Query cache (Rebind (new_query (length (excluded req)))) args in
  match err with
  | Some _ => (None, err)
  | None => (rows, None)
  end.

(** The deferred [rows.Close] of the two functions below assigns its error
    to a local variable after the results are set, so it does not reach
    the caller. *)
Definition getReputableNodes (cache : DB) (req : getNodesRequest)
  : outcome (list (option Node.t) * option error) :=
  match findReputableNodesQuery cache req with
  | Panics => Panics
  | Returns (rows, err) =>
      match err with
      | Some _ => Returns ([], err)
      | None =>
          match rows with
          | None => Panics
          | Some rows =>
              let '(reputableNodes, err) := sqlRowsToNodes rows in
              match err with
              | Some _ => Returns ([], err)
              | None => Returns (reputableNodes, None)
              end
          end
      end
  end.

Definition getNewNodes (cache : DB) (req : getNodesRequest)
  : outcome (list (option Node.t) * option error) :=
  let '(rows, err) := findNewNodesQuery cache req in
  match err with
  | Some _ => Returns ([], err)
  | None =>
      match rows with
      | None => Panics
      | Some rows =>
          let '(newNodes, err) := sqlRowsToNodes rows in
          match err with
          | Some _ => Returns ([], err)
          | None => Returns (newNodes, None)
          end
      end
  end.

(** The message of the shortfall error. *)
Definition shortfall_message (requested found : Z) : string :=
  ("requested " ++ fmt_d requested
   ++ " reputable nodes, only " ++ fmt_d found
   ++ " reputable nodes matched the criteria requested")%string.

Definition FilterNodes (cache : DB) (req : option FilterNodesRequest.t)
  : outcome (list (option Node.t) * option error) :=
  match req with
  | None => Panics
  | Some req =>
  let reputableNodeAmount := FilterNodesRequest.MinNodes req in
  let reputableNodeAmount :=
    if reputableNodeAmount <=? 0
    then GetAmount (FilterNodesRequest.Opts req)
    else reputableNodeAmount in
  match GetRestrictions (FilterNodesRequest.Opts req) with
  | None => Panics
  | Some req_Opts_Restrictions =>
  match FilterNodesRequest.Opts req with
  | None => Panics
  | Some req_Opts =>
  let getReputableReq :=
    {| minReputation := FilterNodesRequest.MinReputation req;
       freeBandwidth := NodeRestrictions.FreeBandwidth req_Opts_Restrictions;
       freeDisk := NodeRestrictions.FreeDisk req_Opts_Restrictions;
       excluded := OverlayOptions.ExcludedNodes req_Opts;
       reputableNodeAmount := reputableNodeAmount;
       newNodeAmount := 0;
       newNodeAuditThreshold := FilterNodesRequest.NewNodeAuditThreshold req |} in
  match getReputableNodes cache getReputableReq with
  | Panics => Panics
  | Returns (reputableNodes, err) =>
  match err with
  | Some _ => Returns ([], err)
  | None =>
  let newNodeAmount :=
    int64_of_float64
      (PrimFloat.mul (float64_of_int64 reputableNodeAmount)
                     (FilterNodesRequest.NewNodePercentage req)) in
  let getNewReq :=
    {| minReputation := None;
       freeBandwidth := NodeRestrictions.FreeBandwidth req_Opts_Restrictions;
       freeDisk := NodeRestrictions.FreeDisk req_Opts_Restrictions;
       excluded := OverlayOptions.ExcludedNodes req_Opts;
       reputableNodeAmount := 0;
       newNodeAmount := newNodeAmount;
       newNodeAuditThreshold := FilterNodesRequest.NewNodeAuditThreshold req |} in
  match getNewNodes cache getNewReq with
  | Panics => Panics
  | Returns (newNodes, err) =>
  match err with
  | Some _ => Returns ([], err)
  | None =>
  let allNodes := [] in
  let allNodes := allNodes ++ reputableNodes in
  let allNodes := allNodes ++ newNodes in
  if Z.of_nat (length reputableNodes) <? reputableNodeAmount
  then
    Returns (allNodes,
             Some (ErrStatus ResourceExhausted
                     (shortfall_message reputableNodeAmount
                        (Z.of_nat (length reputableNodes)))))
  else Returns (allNodes, None)
  end
  end
  end
  end
  end
  end
  end.

(** *** Listing, deletion and the operator wallet *)

Section Lister.

(** [storage.LookupLimit], as for [Paginate]. *)
Variable LookupLimit : Z.

Definition List (cache : DB) (cursor : NodeID) (limit : Z)
  : list (option Node.t) * option error :=
  let limit := clamp_limit LookupLimit limit in
  let '(dbxInfos, err) :=
    Limited_OverlayCacheNode_By_NodeId_GreaterOrEqual
      cache (Bytes cursor) limit 0 in
  match err with
  | Some _ => ([], err)
  | None =>
      let infos := repeat None (length dbxInfos) in
      let '(infos, err) := convert_loop dbxInfos 0 infos in
      match err with
      | Some _ => ([], err)
      | None => (infos, None)
      end
  end.

End Lister.

Definition Delete (cache : DB) (id : NodeID) : option error * DB :=
  let '(_, err, cache) :=
    Delete_OverlayCacheNode_By_NodeId cache (Bytes id) in
  (err, cache).

Definition GetWalletAddress (cache : DB) (id : NodeID)
  : outcome (string * option error) :=
  let '(w, err) :=
    Get_OverlayCacheNode_OperatorWallet_By_NodeId cache (Bytes id) in
  match err with
  | Some _ => Returns ("", err)
  | None =>
      match w with
      | None => Panics
      | Some w => Returns (OperatorWallet w, None)
      end
  end.

End satellitedb.

(** * Properties *)

Import storj pb dbx overlay satellitedb.

(** ** Vocabulary of the properties *)

(** Sample identities: 31 zero bytes and a last byte. *)
Definition sample_id (b : byte) : NodeID := repeat x00 31 ++ [b].

(** The node [convertOverlayNode] assembles when the identity has the
    right length. *)
Definition node_of_row (info : row) : Node.t :=
  let id := OverlayCacheNode.NodeId info in
  Node.mk id (int32 (OverlayCacheNode.NodeType info))
    (if String.eqb (OverlayCacheNode.Address info) "" then None
     else Some (NodeAddress.mk (int32 (OverlayCacheNode.Protocol info))
                               (OverlayCacheNode.Address info)))
    (if String.eqb (OverlayCacheNode.OperatorEmail info) ""
        && String.eqb (OverlayCacheNode.OperatorWallet info) ""
     then None
     else Some (NodeMetadata.mk (OverlayCacheNode.OperatorEmail info)
                                (OverlayCacheNode.OperatorWallet info)))
    (if (OverlayCacheNode.FreeBandwidth info <? 0)
        && (OverlayCacheNode.FreeDisk info <? 0)
     then None
     else Some (NodeRestrictions.mk (OverlayCacheNode.FreeBandwidth info)
                                    (OverlayCacheNode.FreeDisk info)))
    (if OverlayCacheNode.Latency90 info <? 0 then None
     else Some (NodeStats.mk id
                  (OverlayCacheNode.Latency90 info)
                  (OverlayCacheNode.AuditSuccessRatio info)
                  (OverlayCacheNode.AuditUptimeRatio info)
                  (OverlayCacheNode.AuditCount info)
                  (OverlayCacheNode.AuditSuccessCount info)
                  (OverlayCacheNode.UptimeCount info)
                  (OverlayCacheNode.UptimeSuccessCount info))).

(** Every row of the table carries an identity of the right length. *)
Definition wf_row (r : row) : Prop := storj.wf (OverlayCacheNode.NodeId r).

Definition wf_table (cache : DB) : Prop :=
  Forall wf_row (overlay_cache_nodes cache).

(** The slot [GetAll] leaves for an identity: the record of a successful
    lookup, a hole for a failed one. *)
Definition slot (cache : DB) (id : NodeID) : option Node.t :=
  match Get cache id with
  | (info, None) => info
  | (_, Some _) => None
  end.

(** The page of a call of [Paginate], its size and its flag. *)
Definition page (LookupLimit : Z) (cache : DB) (offset limit : Z)
  : list (option Node.t) :=
  fst (fst (Paginate LookupLimit cache offset limit)).

Definition page_size (LookupLimit : Z) (cache : DB) (offset limit : Z) : nat :=
  length (page LookupLimit cache offset limit).

Definition moreAvailable (LookupLimit : Z) (cache : DB) (offset limit : Z)
  : bool :=
  snd (fst (Paginate LookupLimit cache offset limit)).

(** A call of [Paginate] that returns [n] records, no hole among them,
    the flag [more] and no error. *)
Definition page_is (LookupLimit : Z) (cache : DB) (offset limit : Z)
           (n : nat) (more : bool) : Prop :=
  page_size LookupLimit cache offset limit = n /\
  ~ In None (page LookupLimit cache offset limit) /\
  moreAvailable LookupLimit cache offset limit = more /\
  snd (Paginate LookupLimit cache offset limit) = None.

(** [Update] followed by [Get] on the identity of the message. *)
Definition Update_then_Get (cache : DB) (info : Node.t)
  : outcome (option Node.t * option error) :=
  match Update cache (Some info) with
  | Panics => Panics
  | Returns (Some e, _) => Returns (None, Some e)
  | Returns (None, cache') => Returns (Get cache' (Node.Id info))
  end.

(** A message whose four sub-groups are present, none in its sentinel
    state, with values of the declared widths and the identity repeated in
    the reputation. *)
Definition fully_populated (info : Node.t) : Prop :=
  in_int32 (Node.Type_ info) /\
  (exists a, Node.Address info = Some a /\
             NodeAddress.Address a <> "" /\
             in_int32 (NodeAddress.Transport a)) /\
  (exists m, Node.Metadata info = Some m /\
             (NodeMetadata.Email m <> "" \/ NodeMetadata.Wallet m <> "")) /\
  (exists r, Node.Restrictions info = Some r /\
             (0 <= NodeRestrictions.FreeBandwidth r \/
              0 <= NodeRestrictions.FreeDisk r)) /\
  (exists s, Node.Reputation info = Some s /\
             0 <= NodeStats.Latency_90 s /\
             NodeStats.NodeId s = Node.Id info).

(** Sample data: a populated message, a message of identity and type
    only, and a store filled through [Update]. *)
Definition sample_stats (id : NodeID) (auditCount : Z) : NodeStats.t :=
  NodeStats.mk id 5 PrimFloat.one PrimFloat.one
               auditCount auditCount auditCount auditCount.

Definition sample_node (b : byte) (auditCount : Z) : Node.t :=
  Node.mk (sample_id b) 2
    (Some (NodeAddress.mk 0 "10.0.0.1:7777"))
    (Some (NodeMetadata.mk "op@example.test" "0xwallet"))
    (Some (NodeRestrictions.mk 100 100))
    (Some (sample_stats (sample_id b) auditCount)).

Definition bare_node (b : byte) : Node.t :=
  Node.mk (sample_id b) 2 None None None None.

Definition store_of (nodes : list Node.t) : DB :=
  fold_left
    (fun db n =>
       match Update db (Some n) with
       | Returns (_, db') => db'
       | Panics => db
       end)
    nodes fresh.

Definition sample_store : DB :=
  store_of [sample_node x05 10; sample_node x02 10; sample_node x03 0;
            sample_node x04 0; sample_node x01 10].

(** The row [Update] creates for a message on first sight. *)
Definition created_row (info : Node.t) : row :=
  let address := match Node.Address info with
                 | None => NodeAddress.empty | Some a => a end in
  let metadata := match Node.Metadata info with
                  | None => NodeMetadata.empty | Some m => m end in
  let restrictions := match Node.Restrictions info with
                      | None => NodeRestrictions.mk (-1) (-1) | Some r => r end in
  let reputation := match Node.Reputation info with
                    | None => NodeStats.empty | Some r => r end in
  OverlayCacheNode.mk
    (Node.Id info) (Node.Type_ info)
    (NodeAddress.Address address) (NodeAddress.Transport address)
    (NodeMetadata.Email metadata) (NodeMetadata.Wallet metadata)
    (NodeRestrictions.FreeBandwidth restrictions)
    (NodeRestrictions.FreeDisk restrictions)
    (NodeStats.Latency_90 reputation)
    (NodeStats.AuditSuccessRatio reputation)
    (NodeStats.UptimeRatio reputation)
    (NodeStats.AuditCount reputation)
    (NodeStats.AuditSuccessCount reputation)
    (NodeStats.UptimeCount reputation)
    (NodeStats.UptimeSuccessCount reputation).

(** Messages for the sparse update of the record of [sample_id x01]: the
    resource floors alone, and the floors with a reputation. *)
Definition floors_only : Node.t :=
  Node.mk (sample_id x01) 2 None None
          (Some (NodeRestrictions.mk 10 20)) None.

Definition floors_and_reputation : Node.t :=
  Node.mk (sample_id x01) 2 None None
          (Some (NodeRestrictions.mk 10 20))
          (Some (sample_stats (sample_id x01) 10)).

(** A message whose four sub-groups are present, each in its sentinel
    state. *)
Definition sentinel_node : Node.t :=
  Node.mk (sample_id x01) 2
    (Some (NodeAddress.mk 0 ""))
    (Some (NodeMetadata.mk "" ""))
    (Some (NodeRestrictions.mk (-1) (-1)))
    (Some (NodeStats.mk (sample_id x01) (-1)
                        PrimFloat.zero PrimFloat.zero 0 0 0 0)).

(** The proven target of a request: [req.MinNodes], or the amount of the
    options when that is not positive; and its new-node quota,
    [int64(float64(reputableNodeAmount) * req.NewNodePercentage)]. *)
Definition provenTarget (req : FilterNodesRequest.t) : Z :=
  if FilterNodesRequest.MinNodes req <=? 0
  then GetAmount (FilterNodesRequest.Opts req)
  else FilterNodesRequest.MinNodes req.

Definition newNodeQuota (req : FilterNodesRequest.t) : Z :=
  int64_of_float64
    (PrimFloat.mul (float64_of_int64 (provenTarget req))
                   (FilterNodesRequest.NewNodePercentage req)).

(** The requests [FilterNodes] hands to its two queries. *)
Definition reputableReq (req : FilterNodesRequest.t)
           (opts : OverlayOptions.t) (restrictions : NodeRestrictions.t)
  : getNodesRequest :=
  {| minReputation := FilterNodesRequest.MinReputation req;
     freeBandwidth := NodeRestrictions.FreeBandwidth restrictions;
     freeDisk := NodeRestrictions.FreeDisk restrictions;
     excluded := OverlayOptions.ExcludedNodes opts;
     reputableNodeAmount := provenTarget req;
     newNodeAmount := 0;
     newNodeAuditThreshold := FilterNodesRequest.NewNodeAuditThreshold req |}.

Definition newReq (req : FilterNodesRequest.t)
           (opts : OverlayOptions.t) (restrictions : NodeRestrictions.t)
  : getNodesRequest :=
  {| minReputation := None;
     freeBandwidth := NodeRestrictions.FreeBandwidth restrictions;
     freeDisk := NodeRestrictions.FreeDisk restrictions;
     excluded := OverlayOptions.ExcludedNodes opts;
     reputableNodeAmount := 0;
     newNodeAmount := newNodeQuota req;
     newNodeAuditThreshold := FilterNodesRequest.NewNodeAuditThreshold req |}.

(** The conditions of the two tiers on a stored row, in the words of the
    specification. *)
Definition not_excluded (excl : list NodeID) (r : row) : bool :=
  negb (existsb (bytes_eqb (OverlayCacheNode.NodeId r)) excl).

Definition meets_floors (g : getNodesRequest) (floor : NodeStats.t) (r : row)
  : bool :=
  (Z.max (NodeStats.AuditCount floor) (newNodeAuditThreshold g)
   <=? OverlayCacheNode.AuditCount r)
  && PrimFloat.leb (NodeStats.AuditSuccessRatio floor)
                   (OverlayCacheNode.AuditSuccessRatio r)
  && (NodeStats.UptimeCount floor <=? OverlayCacheNode.UptimeCount r)
  && PrimFloat.leb (NodeStats.UptimeRatio floor)
                   (OverlayCacheNode.AuditUptimeRatio r)
  && (freeBandwidth g <=? OverlayCacheNode.FreeBandwidth r)
  && (freeDisk g <=? OverlayCacheNode.FreeDisk r)
  && (OverlayCacheNode.NodeType r =? NodeType_STORAGE).

Definition proven_row (g : getNodesRequest) (floor : NodeStats.t) (r : row)
  : bool :=
  not_excluded (excluded g) r && meets_floors g floor r.

Definition below_threshold (g : getNodesRequest) (r : row) : bool :=
  (OverlayCacheNode.AuditCount r <? newNodeAuditThreshold g)
  && (freeBandwidth g <=? OverlayCacheNode.FreeBandwidth r)
  && (freeDisk g <=? OverlayCacheNode.FreeDisk r)
  && (OverlayCacheNode.NodeType r =? NodeType_STORAGE).

Definition new_row (g : getNodesRequest) (r : row) : bool :=
  not_excluded (excluded g) r && below_threshold g r.

(** What [rows.Scan] keeps of a stored row, and the node of a selected
    row. *)
Definition scanned (r : row) : row :=
  OverlayCacheNode.mk
    (OverlayCacheNode.NodeId r) (OverlayCacheNode.NodeType r)
    (OverlayCacheNode.Address r) 0 "" ""
    (OverlayCacheNode.FreeBandwidth r) (OverlayCacheNode.FreeDisk r) 0
    (OverlayCacheNode.AuditSuccessRatio r)
    (OverlayCacheNode.AuditUptimeRatio r)
    (OverlayCacheNode.AuditCount r)
    (OverlayCacheNode.AuditSuccessCount r)
    (OverlayCacheNode.UptimeCount r)
    (OverlayCacheNode.UptimeSuccessCount r).

Definition selected_node (r : row) : option Node.t :=
  Some (node_of_row (scanned r)).

(** The rows of the two tiers of a store. *)
Definition proven_rows (cache : DB) (g : getNodesRequest) (floor : NodeStats.t)
  : list row :=
  LIMIT (reputableNodeAmount g)
        (filter (proven_row g floor) (overlay_cache_nodes cache)).

Definition new_rows (cache : DB) (g : getNodesRequest) : list row :=
  LIMIT (newNodeAmount g) (filter (new_row g) (overlay_cache_nodes cache)).

(** The identities of a list of nodes, and its new (unproven) entries:
    those whose audit count is below the threshold. *)
Definition node_ids (nodes : list (option Node.t)) : list NodeID :=
  flat_map (fun o => match o with
                     | Some n => [Node.Id n]
                     | None => []
                     end) nodes.

Definition is_new (threshold : Z) (o : option Node.t) : bool :=
  match o with
  | Some n => GetAuditCount (Node.Reputation n) <? threshold
  | None => false
  end.

Definition count_new (threshold : Z) (nodes : list (option Node.t)) : nat :=
  length (filter (is_new threshold) nodes).

(** The error of a shortfall. *)
Definition shortfall (requested : Z) (found : nat) : error :=
  ErrStatus ResourceExhausted
            (shortfall_message requested (Z.of_nat found)).

(** A selection request on the sample store: three proven nodes wanted,
    at most half as many new ones, the boundary between the tiers at five
    audits. *)
Definition sample_floor : NodeStats.t :=
  NodeStats.mk storj.zero 0 PrimFloat.one PrimFloat.one 1 0 1 0.

Definition sample_request (excl : list NodeID) : FilterNodesRequest.t :=
  FilterNodesRequest.mk 3 (Some sample_floor)
    (Some (OverlayOptions.mk 0 (Some (NodeRestrictions.mk 1 1)) excl))
    (PrimFloat.div PrimFloat.one PrimFloat.two) 5.

(** The sample store with a connection that is lost on the new-node
    query (the query with five conditions). *)
Definition lossy_store : DB :=
  {| overlay_cache_nodes := overlay_cache_nodes sample_store;
     fault := fun c =>
       match c with
       | call_Query q _ =>
           if Nat.eqb (length (sel_where q)) 5
           then Some (ErrStore "connection lost") else None
       | _ => None
       end |}.

(** The selection of the sample request that excludes [sample_id x01]:
    its proven tier and its new nodes. *)
Definition sample_proven : list (option Node.t) :=
  [selected_node (created_row (sample_node x05 10));
   selected_node (created_row (sample_node x02 10))].

Definition sample_new : list (option Node.t) :=
  [selected_node (created_row (sample_node x03 0))].

(** A request that leaves the number of nodes to its options, and options
    that ask for a negative amount: the proven target is -4 and the
    new-node quota -2.  On the sample store, with nothing excluded, three
    rows qualify for the proven tier and two are new. *)
Definition negative_amount_request : FilterNodesRequest.t :=
  FilterNodesRequest.mk 0 (Some sample_floor)
    (Some (OverlayOptions.mk (-4) (Some (NodeRestrictions.mk 1 1)) []))
    (PrimFloat.div PrimFloat.one PrimFloat.two) 5.

Definition all_proven : list (option Node.t) :=
  [selected_node (created_row (sample_node x05 10));
   selected_node (created_row (sample_node x02 10));
   selected_node (created_row (sample_node x01 10))].

Definition all_new : list (option Node.t) :=
  [selected_node (created_row (sample_node x03 0));
   selected_node (created_row (sample_node x04 0))].

(** The identities of the rows of a table, its key. *)
Definition keys (t : list row) : list (list byte) :=
  map OverlayCacheNode.NodeId t.

(** A table as [Update] keeps it: identities of the right length, one row
    per identity. *)
Definition table_ok (cache : DB) : Prop :=
  wf_table cache /\ NoDup (keys (overlay_cache_nodes cache)).

(** A store that answers every query. *)
Definition queries_answered (cache : DB) : Prop :=
  forall q args, fault cache (call_Query q args) = None.

(** The fields [Update] sets on a stored row for a message that carries
    the reputation [s]. *)
Definition update_fields (info : Node.t) (s : NodeStats.t) : Update_Fields.t :=
  let address := match Node.Address info with
                 | None => NodeAddress.empty | Some a => a end in
  Update_Fields.mk
    (Some (NodeAddress.Address address))
    (Some (NodeAddress.Transport address))
    (option_map NodeMetadata.Email (Node.Metadata info))
    (option_map NodeMetadata.Wallet (Node.Metadata info))
    (option_map NodeRestrictions.FreeBandwidth (Node.Restrictions info))
    (option_map NodeRestrictions.FreeDisk (Node.Restrictions info))
    (Some (NodeStats.Latency_90 s))
    (Some (NodeStats.AuditSuccessRatio s))
    (Some (NodeStats.UptimeRatio s))
    (Some (NodeStats.AuditCount s))
    (Some (NodeStats.AuditSuccessCount s))
    (Some (NodeStats.UptimeCount s))
    (Some (NodeStats.UptimeSuccessCount s)).

(** The store [cache] with the rows [rows]. *)
Definition with_rows (cache : DB) (rows : list row) : DB :=
  {| overlay_cache_nodes := rows; fault := fault cache |}.

(** A store none of whose calls fails. *)
Definition healthy (cache : DB) : Prop := forall c, fault cache c = None.

(** A table without a row for the zero identity. *)
Definition no_zero_row (cache : DB) : Prop :=
  Forall (fun r => IsZero (OverlayCacheNode.NodeId r) = false)
         (overlay_cache_nodes cache).

(** What a call of [Update] that returns did to the store: nothing, with
    an error; or it created the row of the message; or it set the fields
    of the message on the stored row. *)
Definition Update_did (cache : DB) (info : option Node.t)
           (err : option error) (cache' : DB) : Prop :=
  (cache' = cache /\ err <> None)
  \/ (exists n,
        info = Some n /\ IsZero (Node.Id n) = false /\ err = None /\
        find_node (Node.Id n) (overlay_cache_nodes cache) = None /\
        cache' = with_rows cache (overlay_cache_nodes cache ++ [created_row n]))
  \/ (exists n r s,
        info = Some n /\ IsZero (Node.Id n) = false /\ err = None /\
        find_node (Node.Id n) (overlay_cache_nodes cache) = Some r /\
        Node.Reputation n = Some s /\
        cache' = with_rows cache
                   (update_node (Node.Id n) (update_fields n s)
                                (overlay_cache_nodes cache))).

(** The sub-groups [convertOverlayNode] makes of stored values. *)
Definition address_group (a : NodeAddress.t) : option NodeAddress.t :=
  if String.eqb (NodeAddress.Address a) "" then None
  else Some (NodeAddress.mk (int32 (NodeAddress.Transport a))
                            (NodeAddress.Address a)).

Definition metadata_group (m : NodeMetadata.t) : option NodeMetadata.t :=
  if String.eqb (NodeMetadata.Email m) ""
     && String.eqb (NodeMetadata.Wallet m) ""
  then None else Some m.

Definition restrictions_group (r : NodeRestrictions.t)
  : option NodeRestrictions.t :=
  if (NodeRestrictions.FreeBandwidth r <? 0)
     && (NodeRestrictions.FreeDisk r <? 0)
  then None else Some r.

Definition reputation_group (id : NodeID) (s : NodeStats.t)
  : option NodeStats.t :=
  if NodeStats.Latency_90 s <? 0 then None
  else Some (NodeStats.mk id
               (NodeStats.Latency_90 s)
               (NodeStats.AuditSuccessRatio s)
               (NodeStats.UptimeRatio s)
               (NodeStats.AuditCount s)
               (NodeStats.AuditSuccessCount s)
               (NodeStats.UptimeCount s)
               (NodeStats.UptimeSuccessCount s)).

(** The sample store with a commit that fails. *)
Definition commit_fails : DB :=
  {| overlay_cache_nodes := overlay_cache_nodes sample_store;
     fault := fun c =>
       match c with
       | call_Commit => Some (ErrStore "commit failed")
       | _ => None
       end |}.

(** The store a call of [Update] leaves. *)
Definition after_update (cache : DB) (info : Node.t) : DB :=
  match Update cache (Some info) with
  | Returns (_, cache') => cache'
  | Panics => cache
  end.

(** The wallet a call of [GetWalletAddress] returned, empty when it
    returned none. *)
Definition wallet_of (o : outcome (string * option error)) : string :=
  match o with
  | Returns (w, _) => w
  | Panics => ""
  end.

(** The fault of the wallet lookup of an identity. *)
Definition wallet_fault (cache : DB) (id : NodeID) : option error :=
  fault cache (call_Query wallet_statement [VBytes id]).

(** A row at or after a cursor, in the order of the identities. *)
Definition at_or_after (cursor : NodeID) (r : row) : bool :=
  bytes_leb (Bytes cursor) (OverlayCacheNode.NodeId r).

(** A store that answers every listing query. *)
Definition listings_answered (cache : DB) : Prop :=
  forall cursor limit offset,
    fault cache (call_Limited cursor limit offset) = None.

(** The record of a stored row, as the enumerators return it. *)
Definition record_of (r : row) : option Node.t := Some (node_of_row r).

(** The rows a listing query ranges over: those at or after the cursor,
    in the order of the store. *)
Definition listing (cache : DB) (cursor : NodeID) : list row :=
  order_by_id (filter (at_or_after cursor) (overlay_cache_nodes cache)).

(** A row of a result set and the entry [sqlRowsToNodes] makes of it:
    the record of the scanned row. *)
Definition scans_to (r : list value) (o : option Node.t) : Prop :=
  exists overlayNode, Scan r = (overlayNode, None) /\ o = record_of overlayNode.

(** The requests that make [FilterNodes] dereference a nil pointer: a nil
    request, nil options, nil restrictions or a nil minimum reputation. *)
Definition nil_request (req : option FilterNodesRequest.t) : Prop :=
  match req with
  | None => True
  | Some req =>
      GetRestrictions (FilterNodesRequest.Opts req) = None \/
      FilterNodesRequest.MinReputation req = None
  end.

(** The rows that qualify for the proven tier of a request. *)
Definition qualifying (cache : DB) (req : FilterNodesRequest.t)
           (opts : OverlayOptions.t) (restrictions : NodeRestrictions.t)
           (floor : NodeStats.t) : list row :=
  filter (proven_row (reputableReq req opts restrictions) floor)
         (overlay_cache_nodes cache).

(** A record in the normal form of [convertOverlayNode]: an identity of
    the right length, a type and a transport of 32 bits, no sub-group in
    its sentinel state, and a reputation under the identity of the
    record. *)
Definition normalised (n : Node.t) : Prop :=
  storj.wf (Node.Id n) /\
  in_int32 (Node.Type_ n) /\
  (forall a, Node.Address n = Some a ->
             NodeAddress.Address a <> "" /\
             in_int32 (NodeAddress.Transport a)) /\
  (forall m, Node.Metadata n = Some m ->
             NodeMetadata.Email m <> "" \/ NodeMetadata.Wallet m <> "") /\
  (forall r, Node.Restrictions n = Some r ->
             0 <= NodeRestrictions.FreeBandwidth r \/
             0 <= NodeRestrictions.FreeDisk r) /\
  (forall s, Node.Reputation n = Some s ->
             0 <= NodeStats.Latency_90 s /\
             NodeStats.NodeId s = Node.Id n).

(** The lookup of [Update] inside its transaction finds a row: the
    store opens the transaction, answers the lookup and holds a row of
    the identity. *)
Definition lookup_finds (cache : DB) (id : NodeID) : Prop :=
  fault cache call_Open = None /\
  fault cache (call_Get (Bytes id)) = None /\
  find_node (Bytes id) (overlay_cache_nodes cache) <> None.

(** The result set of a list of rows: their selected columns. *)
Definition result_set (rs : list row) : Rows :=
  map (fun r => map (col r) selected_columns) rs.

#[local] Arguments convertOverlayNode : simpl never.

(** ** Bytes and slices *)

Lemma bytes_eqb_eq (a b : list byte) : bytes_eqb a b = true <-> a = b.
Proof.
  revert b. induction a as [|x a IH]; intros [|y b]; simpl;
    try (split; intros; congruence).
  rewrite andb_true_iff, IH. split.
  - intros [Hxy ->]. apply Byte.byte_dec_bl in Hxy. now subst.
  - intros [= -> ->]. split; [apply Byte.byte_dec_lb|]; reflexivity.
Qed.

Lemma bytes_eqb_refl (a : list byte) : bytes_eqb a a = true.
Proof. now apply bytes_eqb_eq. Qed.

Lemma bytes_leb_zero (n : nat) (id : list byte) :
  length id = n -> bytes_leb (repeat x00 n) id = true.
Proof.
  revert id. induction n as [|n IH]; intros [|y id] Hlen; simpl in *;
    try reflexivity; try discriminate.
  destruct (Byte.to_N y) eqn:Hy; simpl.
  - apply IH. congruence.
  - reflexivity.
Qed.

Lemma slice_set_length {A} (s : list A) (i : nat) (v : A) :
  length (slice_set s i v) = length s.
Proof.
  revert i. induction s as [|x s IH]; intros [|i]; simpl; auto.
Qed.

Lemma slice_set_middle {A} (pre : list A) (x v : A) (post : list A) :
  slice_set (pre ++ x :: post) (length pre) v = pre ++ v :: post.
Proof.
  induction pre as [|y pre IH]; simpl; [reflexivity|]. now rewrite IH.
Qed.

(** ** Result assembly on a well-formed row *)

Lemma convertOverlayNode_wf (r : row) :
  wf_row r -> convertOverlayNode (Some r) = (Some (node_of_row r), None).
Proof.
  unfold wf_row, storj.wf, convertOverlayNode, NodeIDFromBytes. intros ->.
  reflexivity.
Qed.

Lemma convertOverlayNode_cases (r : row) :
  (exists e, convertOverlayNode (Some r) = (None, Some e)) \/
  convertOverlayNode (Some r) = (Some (node_of_row r), None).
Proof.
  unfold convertOverlayNode, NodeIDFromBytes.
  destruct (Nat.eqb (length (OverlayCacheNode.NodeId r)) NodeID_size);
    [right; reflexivity | left; eexists; reflexivity].
Qed.

(** ** Lookups *)

(** A successful [Get] returns a record. *)
Lemma Get_ok_record (cache : DB) (id : NodeID) (info : option Node.t) :
  Get cache id = (info, None) -> exists n, info = Some n.
Proof.
  unfold Get, Get_OverlayCacheNode_By_NodeId, get_by_node_id.
  destruct (IsZero id); [discriminate|].
  destruct (fault cache (call_Get (Bytes id))) as [[]|]; try discriminate.
  destruct (find_node (Bytes id) (overlay_cache_nodes cache)) as [r|];
    [|discriminate].
  destruct (convertOverlayNode_cases r) as [[e ->] | ->]; [discriminate|].
  intros [= <-]. eauto.
Qed.

Lemma GetAll_loop_spec (cache : DB) (ids : list NodeID) :
  forall pre post,
    GetAll_loop cache ids (length pre)
                (pre ++ repeat None (length ids) ++ post)
    = pre ++ map (slot cache) ids ++ post.
Proof.
  induction ids as [|id ids IH]; intros pre post; simpl; [reflexivity|].
  unfold slot at 1. destruct (Get cache id) as [info [e|]].
  - specialize (IH (pre ++ [None]) post).
    rewrite length_app, Nat.add_comm in IH. simpl in IH.
    rewrite <- !app_assoc in IH. exact IH.
  - rewrite slice_set_middle.
    specialize (IH (pre ++ [info]) post).
    rewrite length_app, Nat.add_comm in IH. simpl in IH.
    rewrite <- !app_assoc in IH. exact IH.
Qed.

(** C7.  [Get] on the zero identity fails with the empty-node error
    (invalid argument); [Get] on a non-zero identity that has no row in a
    store that answers the lookup fails with the node-not-found error; in
    both cases no record is returned. *)
Theorem Get_zero_and_missing (cache : DB) (id : NodeID) :
  (IsZero id = true -> Get cache id = (None, Some ErrEmptyNode)) /\
  (IsZero id = false ->
   fault cache (call_Get (Bytes id)) = None ->
   find_node (Bytes id) (overlay_cache_nodes cache) = None ->
   Get cache id = (None, Some ErrNodeNotFound)).
Proof.
  unfold Get, Get_OverlayCacheNode_By_NodeId, get_by_node_id.
  split.
  - intros ->. reflexivity.
  - intros -> -> ->. reflexivity.
Qed.

Lemma Get_zero_and_missing_witness :
  Get fresh storj.zero = (None, Some ErrEmptyNode) /\
  Get fresh (sample_id x01) = (None, Some ErrNodeNotFound).
Proof.
  split.
  - apply (proj1 (Get_zero_and_missing fresh storj.zero)). reflexivity.
  - apply (proj2 (Get_zero_and_missing fresh (sample_id x01))); reflexivity.
Defined.

(** C8.  For every list of identities [GetAll] returns no error and a
    list of the same length; the position of an identity holds the record
    of its lookup when that succeeded (and then it is a record, not a
    hole) and a hole when it failed, whatever happened to the other
    lookups. *)
Theorem GetAll_positional (cache : DB) (ids : list NodeID) :
  snd (GetAll cache ids) = None /\
  length (fst (GetAll cache ids)) = length ids /\
  forall i id,
    nth_error ids i = Some id ->
    (forall e, snd (Get cache id) = Some e ->
               nth_error (fst (GetAll cache ids)) i = Some None) /\
    (snd (Get cache id) = None ->
     exists n, fst (Get cache id) = Some n /\
               nth_error (fst (GetAll cache ids)) i = Some (Some n)).
Proof.
  assert (E : fst (GetAll cache ids) = map (slot cache) ids).
  { unfold GetAll; simpl.
    pose proof (GetAll_loop_spec cache ids [] []) as H. simpl in H.
    now rewrite !app_nil_r in H. }
  rewrite E. split; [reflexivity|]. split; [apply length_map|].
  intros i id Hi. rewrite nth_error_map, Hi. simpl. unfold slot.
  destruct (Get cache id) as [info [e|]] eqn:G; simpl; split.
  - reflexivity.
  - discriminate.
  - discriminate.
  - intros _. destruct (Get_ok_record _ _ G) as [n ->]. eauto.
Qed.

Lemma GetAll_positional_witness :
  snd (GetAll sample_store [sample_id x01; sample_id x09; sample_id x03])
  = None /\
  length (fst (GetAll sample_store
                      [sample_id x01; sample_id x09; sample_id x03]))
  = 3%nat /\
  nth_error (fst (GetAll sample_store
                         [sample_id x01; sample_id x09; sample_id x03])) 1
  = Some None /\
  exists n,
    nth_error (fst (GetAll sample_store
                           [sample_id x01; sample_id x09; sample_id x03])) 2
    = Some (Some n).
Proof.
  destruct (GetAll_positional
              sample_store [sample_id x01; sample_id x09; sample_id x03])
    as (Herr & Hlen & Hpos).
  split; [exact Herr|]. split; [exact Hlen|]. split.
  - apply (proj1 (Hpos 1%nat (sample_id x09) eq_refl) ErrNodeNotFound).
    reflexivity.
  - destruct (proj2 (Hpos 2%nat (sample_id x03) eq_refl) eq_refl)
      as (n & _ & Hn).
    exists n. exact Hn.
Defined.

(** ** The cursor enumerator *)

Lemma insert_by_id_length (r : row) (l : list row) :
  length (insert_by_id r l) = S (length l).
Proof.
  induction l as [|x l IH]; simpl; [reflexivity|].
  destruct (bytes_leb _ _); simpl; congruence.
Qed.

Lemma order_by_id_length (l : list row) : length (order_by_id l) = length l.
Proof.
  induction l as [|x l IH]; simpl; [reflexivity|].
  now rewrite insert_by_id_length, IH.
Qed.

Lemma Forall_insert_by_id (P : row -> Prop) (r : row) (l : list row) :
  P r -> Forall P l -> Forall P (insert_by_id r l).
Proof.
  intros Hr. induction 1 as [|x l Hx Hl IH]; simpl.
  - now constructor.
  - destruct (bytes_leb _ _); repeat constructor; assumption.
Qed.

Lemma Forall_order_by_id (P : row -> Prop) (l : list row) :
  Forall P l -> Forall P (order_by_id l).
Proof.
  induction 1; simpl; [constructor | now apply Forall_insert_by_id].
Qed.

Lemma Forall_firstn {A} (P : A -> Prop) (n : nat) (l : list A) :
  Forall P l -> Forall P (firstn n l).
Proof.
  intros H. apply Forall_forall. intros x Hx.
  rewrite Forall_forall in H. apply H.
  rewrite <- (firstn_skipn n l). apply in_or_app. now left.
Qed.

Lemma Forall_skipn {A} (P : A -> Prop) (n : nat) (l : list A) :
  Forall P l -> Forall P (skipn n l).
Proof.
  intros H. apply Forall_forall. intros x Hx.
  rewrite Forall_forall in H. apply H.
  rewrite <- (firstn_skipn n l). apply in_or_app. now right.
Qed.

Lemma filter_all {A} (p : A -> bool) (l : list A) :
  Forall (fun x => p x = true) l -> filter p l = l.
Proof.
  induction 1 as [|x l Hx Hl IH]; simpl; [reflexivity|].
  now rewrite Hx, IH.
Qed.

Lemma convert_loop_length (l : list row) :
  forall i infos res,
    convert_loop l i infos = (res, None) -> length res = length infos.
Proof.
  induction l as [|r l IH]; intros i infos res; simpl.
  - now intros [= ->].
  - destruct (convertOverlayNode_cases r) as [[e ->] | ->];
      [discriminate|].
    intros H. apply IH in H. now rewrite slice_set_length in H.
Qed.

Lemma convert_loop_wf (l : list row) :
  Forall wf_row l ->
  forall pre post,
    convert_loop l (length pre) (pre ++ repeat None (length l) ++ post)
    = (pre ++ map (fun r => Some (node_of_row r)) l ++ post, None).
Proof.
  induction 1 as [|r l Hr Hl IH]; intros pre post; simpl.
  - reflexivity.
  - rewrite (convertOverlayNode_wf Hr), slice_set_middle.
    specialize (IH (pre ++ [Some (node_of_row r)]) post).
    rewrite length_app, Nat.add_comm in IH. simpl in IH.
    now rewrite <- !app_assoc in IH.
Qed.

Lemma clamp_limit_range (LookupLimit limit : Z) :
  1 <= LookupLimit -> 1 <= clamp_limit LookupLimit limit <= LookupLimit.
Proof.
  unfold clamp_limit. intros HL.
  destruct (limit <=? 0) eqn:E1; simpl; [lia|].
  destruct (LookupLimit <? limit) eqn:E2; lia.
Qed.

Lemma clamp_limit_id (LookupLimit limit : Z) :
  0 < limit <= LookupLimit -> clamp_limit LookupLimit limit = limit.
Proof.
  unfold clamp_limit. intros H.
  destruct (limit <=? 0) eqn:E1; [lia|].
  destruct (LookupLimit <? limit) eqn:E2; [lia|]. reflexivity.
Qed.

(** [moreAvailable] is true exactly on a page of as many records as the
    limit the query ran with. *)
Lemma Paginate_more (LookupLimit : Z) (cache : DB) (offset limit : Z) :
  1 <= LookupLimit ->
  moreAvailable LookupLimit cache offset limit = true <->
  Z.of_nat (page_size LookupLimit cache offset limit)
  = clamp_limit LookupLimit limit.
Proof.
  intros HL. pose proof (clamp_limit_range limit HL) as Hc.
  unfold moreAvailable, page_size, page, Paginate,
    Limited_OverlayCacheNode_By_NodeId_GreaterOrEqual.
  destruct (fault cache _) as [e|]; simpl; [split; [discriminate | lia]|].
  set (rows := firstn _ _).
  assert (Hrows : (length rows <= Z.to_nat (clamp_limit LookupLimit limit))%nat)
    by apply firstn_le_length.
  destruct (convert_loop rows 0 (repeat None (length rows)))
    as [infos [e|]] eqn:E; simpl.
  - split; [discriminate | lia].
  - apply convert_loop_length in E. rewrite repeat_length in E. rewrite E.
    destruct (Z.of_nat (length rows) <? clamp_limit LookupLimit limit) eqn:C;
      split; try discriminate; try reflexivity; lia.
Qed.

(** The page of a healthy store with well-formed rows: records only, as
    many as the limit allows after the offset. *)
Lemma Paginate_page (LookupLimit : Z) (cache : DB) (offset limit : Z) :
  wf_table cache ->
  (forall c l o, fault cache (call_Limited c l o) = None) ->
  page_size LookupLimit cache offset limit
  = Nat.min (Z.to_nat (clamp_limit LookupLimit limit))
            (length (overlay_cache_nodes cache) - Z.to_nat offset) /\
  ~ In None (page LookupLimit cache offset limit) /\
  snd (Paginate LookupLimit cache offset limit) = None.
Proof.
  intros Hwf Hf.
  unfold page_size, page, Paginate,
    Limited_OverlayCacheNode_By_NodeId_GreaterOrEqual.
  rewrite Hf. rewrite filter_all.
  2:{ eapply Forall_impl; [|exact Hwf]. intros r Hr.
      apply bytes_leb_zero. exact Hr. }
  set (rows := firstn _ _).
  assert (Hrows : Forall wf_row rows).
  { apply Forall_firstn, Forall_skipn, Forall_order_by_id, Hwf. }
  pose proof (convert_loop_wf Hrows [] []) as E.
  cbn [length app] in E. rewrite !app_nil_r in E.
  rewrite E. cbn [fst snd]. split; [|split; [|reflexivity]].
  - rewrite length_map. unfold rows.
    now rewrite length_firstn, length_skipn, order_by_id_length.
  - intros Hin. apply in_map_iff in Hin as (r & Hr & _). discriminate.
Qed.

(** C9 (amended).  On a healthy store of five well-formed records,
    [Paginate] with limit 2 at offsets 0, 2 and 4 returns 2, 2 and 1
    records with [moreAvailable] true, true and false and no error; in
    general [moreAvailable] is true exactly when the page holds as many
    records as the limit the query ran with, which is the requested limit
    when that lies between 1 and [LookupLimit], and [LookupLimit]
    otherwise. *)
Theorem Paginate_five_by_two (LookupLimit : Z) (cache : DB) :
  2 <= LookupLimit ->
  (wf_table cache ->
   length (overlay_cache_nodes cache) = 5%nat ->
   (forall c l o, fault cache (call_Limited c l o) = None) ->
   page_is LookupLimit cache 0 2 2 true /\
   page_is LookupLimit cache 2 2 2 true /\
   page_is LookupLimit cache 4 2 1 false) /\
  (forall offset limit,
     moreAvailable LookupLimit cache offset limit = true <->
     Z.of_nat (page_size LookupLimit cache offset limit)
     = clamp_limit LookupLimit limit) /\
  (forall limit,
     clamp_limit LookupLimit limit
     = if (0 <? limit) && (limit <=? LookupLimit) then limit
       else LookupLimit).
Proof.
  intros HL. split; [|split].
  - intros Hwf Hlen Hf.
    assert (Hc : clamp_limit LookupLimit 2 = 2) by (apply clamp_limit_id; lia).
    assert (Hpage : forall offset,
               page_size LookupLimit cache offset 2
               = Nat.min 2 (5 - Z.to_nat offset) /\
               ~ In None (page LookupLimit cache offset 2) /\
               snd (Paginate LookupLimit cache offset 2) = None).
    { intros offset.
      destruct (Paginate_page LookupLimit offset 2 Hwf Hf) as (E1 & E2 & E3).
      rewrite E1, Hc, Hlen. now repeat split. }
    assert (Hmore : forall offset,
               moreAvailable LookupLimit cache offset 2 = true <->
               Z.of_nat (page_size LookupLimit cache offset 2) = 2).
    { intros offset.
      pose proof (Paginate_more cache offset 2 (LookupLimit:=LookupLimit)) as H.
      rewrite Hc in H. apply H. lia. }
    unfold page_is.
    repeat split; try apply Hpage.
    + apply Hmore. now rewrite (proj1 (Hpage 0)).
    + apply Hmore. now rewrite (proj1 (Hpage 2)).
    + destruct (moreAvailable LookupLimit cache 4 2) eqn:E; [|reflexivity].
      apply Hmore in E. rewrite (proj1 (Hpage 4)) in E. discriminate.
  - intros offset limit. apply Paginate_more. lia.
  - intros limit. unfold clamp_limit.
    destruct (limit <=? 0) eqn:E1, (LookupLimit <? limit) eqn:E2,
      (0 <? limit) eqn:E3, (limit <=? LookupLimit) eqn:E4;
      simpl; try reflexivity; lia.
Qed.

Lemma sample_store_wf : wf_table sample_store.
Proof. repeat (constructor; [reflexivity|]). constructor. Qed.

Lemma Paginate_five_by_two_witness :
  page_is 1000 sample_store 0 2 2 true /\
  page_is 1000 sample_store 2 2 2 true /\
  page_is 1000 sample_store 4 2 1 false.
Proof.
  assert (HL : 2 <= 1000) by lia.
  apply (proj1 (Paginate_five_by_two sample_store HL)).
  - exact sample_store_wf.
  - reflexivity.
  - reflexivity.
Defined.

(** C9, the claim as stated fails: with limit 0 the query runs with
    [LookupLimit]; the page of an empty store holds exactly 0 records,
    the requested limit, and [moreAvailable] is false. *)
Lemma Paginate_limit_zero_counterexample :
  Z.of_nat (page_size 1000 fresh 0 0) = 0 /\
  moreAvailable 1000 fresh 0 0 = false.
Proof. split; reflexivity. Qed.

(** ** The node record store *)

Lemma int32_id (z : Z) : in_int32 z -> int32 z = z.
Proof.
  unfold in_int32, int32, wrap. intros H.
  change (32 - 1) with 31. rewrite Z.mod_small; lia.
Qed.

Lemma Update_fresh (info : Node.t) :
  IsZero (Node.Id info) = false ->
  Update fresh (Some info)
  = Returns (None, {| overlay_cache_nodes := [created_row info];
                      fault := no_fault |}).
Proof. unfold Update. intros ->. reflexivity. Qed.

Lemma Get_singleton (r : row) :
  wf_row r ->
  IsZero (OverlayCacheNode.NodeId r) = false ->
  Get {| overlay_cache_nodes := [r]; fault := no_fault |}
      (OverlayCacheNode.NodeId r)
  = (Some (node_of_row r), None).
Proof.
  intros Hwf Hz.
  unfold Get, Get_OverlayCacheNode_By_NodeId, get_by_node_id, find_node, Bytes.
  rewrite Hz. simpl. rewrite bytes_eqb_refl.
  now apply convertOverlayNode_wf.
Qed.

(** An update of a stored record by a message without reputation stops
    in a nil dereference, whatever else the message carries. *)
Lemma Update_existing_without_reputation (cache : DB) (info : Node.t) (r : row) :
  IsZero (Node.Id info) = false ->
  fault cache call_Open = None ->
  fault cache (call_Get (Bytes (Node.Id info))) = None ->
  find_node (Bytes (Node.Id info)) (overlay_cache_nodes cache) = Some r ->
  Node.Reputation info = None ->
  Update cache (Some info) = Panics.
Proof.
  intros Hz Ho Hg Hf Hr.
  unfold Update, Open, Tx_Get_OverlayCacheNode_By_NodeId, get_by_node_id.
  rewrite Hz, Ho. simpl. rewrite Hg, Hf, Hr. reflexivity.
Qed.

Lemma find_node_None (id : list byte) (t : list row) :
  find_node id t = None -> ~ In id (keys t).
Proof.
  unfold find_node, keys. intros Hfind Hin.
  apply in_map_iff in Hin as (r & Hid & Hin).
  apply (find_none _ _ Hfind) in Hin.
  rewrite Hid, bytes_eqb_refl in Hin. discriminate.
Qed.

Lemma keys_update_node (id : list byte) (u : Update_Fields.t) (t : list row) :
  keys (update_node id u t) = keys t.
Proof.
  unfold keys, update_node. rewrite map_map. apply map_ext.
  intros r. now destruct (bytes_eqb _ _).
Qed.

(** [Update] keeps the table well formed, whatever it returns. *)
Lemma Update_keeps_table (cache cache' : DB) (info : option Node.t)
      (err : option error) :
  table_ok cache ->
  (forall n, info = Some n -> storj.wf (Node.Id n)) ->
  Update cache info = Returns (err, cache') ->
  table_ok cache'.
Proof.
  intros [Hwf Hkeys] Hid H. unfold Update in H.
  destruct info as [info|]; [|injection H; intros; subst; now split].
  specialize (Hid info eq_refl).
  destruct (IsZero _); [injection H; intros; subst; now split|].
  unfold Open in H.
  destruct (fault cache call_Open); [injection H; intros; subst; now split|].
  unfold Tx_Get_OverlayCacheNode_By_NodeId, get_by_node_id in H.
  cbn [tx_db tx_nodes] in H.
  assert (Hcreate : forall r,
             OverlayCacheNode.NodeId r = Node.Id info ->
             (let '(_, err0, tx) :=
                Tx_Create_OverlayCacheNode
                  {| tx_db := cache; tx_nodes := overlay_cache_nodes cache |} r in
              match err0 with
              | Some _ => Returns (Error_Wrap (errs_Combine err0 (Tx_Rollback tx)), cache)
              | None => let '(err1, cache1) := Tx_Commit tx in
                        Returns (Error_Wrap err1, cache1)
              end) = Returns (err, cache') ->
             table_ok cache').
  { intros r Hr. unfold Tx_Create_OverlayCacheNode, Tx_Commit.
    cbn [tx_db tx_nodes].
    destruct (fault cache (call_Create _));
      [cbn; intros HH; injection HH; intros; subst; now split|].
    destruct (find_node (OverlayCacheNode.NodeId r) _) eqn:Hfind;
      [cbn; intros HH; injection HH; intros; subst; now split|].
    cbn [tx_db tx_nodes].
    destruct (fault cache call_Commit); cbn; intros HH; injection HH; intros; subst;
      [now split|].
    split; cbn.
    - apply Forall_app. split; [exact Hwf|]. constructor; [|constructor].
      unfold wf_row. now rewrite Hr.
    - unfold keys. rewrite map_app. cbn.
      apply NoDup_app; [exact Hkeys | repeat constructor; intros [] |].
      intros id Hin [<- | []]. now apply find_node_None in Hfind. }
  destruct (fault cache (call_Get _)).
  { eapply Hcreate; [|exact H]. reflexivity. }
  destruct (find_node _ _) eqn:Hfind.
  2:{ eapply Hcreate; [|exact H]. reflexivity. }
  destruct (Node.Reputation info); [|discriminate].
  unfold Tx_Update_OverlayCacheNode_By_NodeId, Tx_Commit in H.
  cbn [tx_db tx_nodes] in H.
  destruct (fault cache (call_Update _));
    [cbn in H; injection H; intros; subst; now split|].
  rewrite Hfind in H. cbn [tx_db tx_nodes] in H.
  destruct (fault cache call_Commit); cbn in H; injection H; intros; subst;
    [now split|].
  split; cbn.
  - unfold update_node. apply Forall_map.
    eapply Forall_impl; [|exact Hwf]. intros r0 Hr0.
    now destruct (bytes_eqb _ _).
  - now rewrite keys_update_node.
Qed.

(** C1 (amended).  For every message with a well-formed non-zero
    identity, [Update] on a fresh store followed by [Get] on the identity
    succeeds and returns a record with the same identity and type; a
    fully populated message comes back equal to the input; the address,
    metadata and restrictions come back absent when they were absent or
    in their sentinel state (empty address; empty email and wallet; both
    floors negative) and as supplied otherwise; a supplied reputation
    comes back absent when its latency is negative and otherwise as
    supplied, under the identity of the record. *)
Theorem Update_then_Get_fresh (info : Node.t) :
  storj.wf (Node.Id info) ->
  IsZero (Node.Id info) = false ->
  exists node,
    Update_then_Get fresh info = Returns (Some node, None) /\
    Node.Id node = Node.Id info /\
    Node.Type_ node = int32 (Node.Type_ info) /\
    Node.Address node
    = match Node.Address info with
      | None => None
      | Some a =>
          if String.eqb (NodeAddress.Address a) "" then None
          else Some (NodeAddress.mk (int32 (NodeAddress.Transport a))
                                    (NodeAddress.Address a))
      end /\
    Node.Metadata node
    = match Node.Metadata info with
      | None => None
      | Some m =>
          if String.eqb (NodeMetadata.Email m) ""
             && String.eqb (NodeMetadata.Wallet m) ""
          then None else Some m
      end /\
    Node.Restrictions node
    = match Node.Restrictions info with
      | None => None
      | Some r =>
          if (NodeRestrictions.FreeBandwidth r <? 0)
             && (NodeRestrictions.FreeDisk r <? 0)
          then None else Some r
      end /\
    (forall s, Node.Reputation info = Some s ->
       Node.Reputation node
       = if NodeStats.Latency_90 s <? 0 then None
         else Some (NodeStats.mk (Node.Id info)
                      (NodeStats.Latency_90 s)
                      (NodeStats.AuditSuccessRatio s)
                      (NodeStats.UptimeRatio s)
                      (NodeStats.AuditCount s)
                      (NodeStats.AuditSuccessCount s)
                      (NodeStats.UptimeCount s)
                      (NodeStats.UptimeSuccessCount s))) /\
    (fully_populated info -> node = info).
Proof.
  intros Hwf Hz.
  exists (node_of_row (created_row info)).
  assert (HG : Update_then_Get fresh info
               = Returns (Some (node_of_row (created_row info)), None)).
  { unfold Update_then_Get. rewrite (Update_fresh info Hz).
    f_equal. apply (Get_singleton (r := created_row info)); assumption. }
  split; [exact HG|].
  destruct info as [id ty [a|] [m|] [r|] [s|]];
    repeat split; try reflexivity;
    try (intros s0 [=]; subst; reflexivity);
    try (destruct a; reflexivity); try (destruct m; reflexivity);
    try (destruct r; reflexivity);
    try (intros (_ & (a0 & [=] & _) & _); fail);
    try (intros (_ & _ & (m0 & [=] & _) & _); fail);
    try (intros (_ & _ & _ & (r0 & [=] & _) & _); fail);
    try (intros (_ & _ & _ & _ & (s0 & [=] & _)); fail).
  intros (Hty & (a0 & [= <-] & Ha & Htr) & (m0 & [= <-] & Hm)
          & (r0 & [= <-] & Hr) & (s0 & [= <-] & Hs & Hid)).
  destruct a as [tr addr], m as [em wa], r as [bw disk], s; simpl in *.
  unfold node_of_row; simpl. subst.
  rewrite (int32_id Hty), (int32_id Htr).
  apply String.eqb_neq in Ha. rewrite Ha.
  assert (Hm' : String.eqb em "" && String.eqb wa "" = false).
  { destruct Hm as [Hm|Hm]; apply String.eqb_neq in Hm; rewrite Hm;
      [reflexivity | apply andb_false_r]. }
  rewrite Hm'.
  assert (Hr' : (bw <? 0) && (disk <? 0) = false).
  { destruct Hr as [Hr|Hr]; [apply andb_false_intro1 | apply andb_false_intro2];
      lia. }
  rewrite Hr'.
  assert (Hs' : (Latency_90 <? 0) = false) by lia.
  rewrite Hs'. reflexivity.
Qed.

Lemma sample_node_fully_populated (b : byte) (auditCount : Z) :
  fully_populated (sample_node b auditCount).
Proof.
  assert (H31 : 2 ^ 31 = 2147483648) by reflexivity.
  unfold fully_populated, sample_node, in_int32; cbn [Node.Type_ Node.Address
    Node.Metadata Node.Restrictions Node.Reputation Node.Id].
  rewrite H31.
  split; [lia|]. split; [|split; [|split]]; eexists; (split; [reflexivity|]).
  - split; [discriminate | simpl; lia].
  - left. discriminate.
  - left. simpl. lia.
  - split; [simpl; lia | reflexivity].
Qed.

Lemma Update_then_Get_fresh_witness :
  Update_then_Get fresh (sample_node x01 10)
  = Returns (Some (sample_node x01 10), None).
Proof.
  destruct (Update_then_Get_fresh (sample_node x01 10) eq_refl eq_refl)
    as (node & HG & _ & _ & _ & _ & _ & _ & Hfull).
  rewrite HG, (Hfull (sample_node_fully_populated x01 10)). reflexivity.
Defined.

(** C1, the claim as stated fails.  A message of identity and type only
    comes back with a reputation that is present and zero-valued; a
    message whose sub-groups are present in their sentinel state comes
    back with all four absent. *)
Lemma Update_then_Get_counterexample :
  (Update_then_Get fresh (bare_node x01)
   = Returns
       (Some (Node.mk (sample_id x01) 2 None None None
                (Some (NodeStats.mk (sample_id x01) 0
                         PrimFloat.zero PrimFloat.zero 0 0 0 0))),
        None)
   /\ Update_then_Get fresh (bare_node x01)
      <> Returns (Some (bare_node x01), None))
  /\
  (Update_then_Get fresh sentinel_node
   = Returns (Some (bare_node x01), None)
   /\ Update_then_Get fresh sentinel_node
      <> Returns (Some sentinel_node, None)).
Proof.
  split; split; try reflexivity.
  - intros H. vm_compute in H. discriminate H.
  - intros H. vm_compute in H. discriminate H.
Qed.

(** C2, the code at the failing input.  On a store that holds the record
    of [sample_id x01], an update that carries the resource floors alone
    stops in a nil dereference and writes nothing; the same update with
    the reputation supplied erases the stored address. *)
Theorem Update_floors_only :
  Update sample_store (Some floors_only) = Panics /\
  option_map Node.Address (fst (Get sample_store (sample_id x01)))
  = Some (Some (NodeAddress.mk 0 "10.0.0.1:7777")) /\
  match Update_then_Get sample_store floors_and_reputation with
  | Returns (Some node, None) =>
      Node.Address node = None /\
      Node.Restrictions node = Some (NodeRestrictions.mk 10 20) /\
      Node.Metadata node = Some (NodeMetadata.mk "op@example.test" "0xwallet")
  | _ => False
  end.
Proof. vm_compute. repeat split; reflexivity. Qed.

(** ** The queries of the selector *)

Lemma sliceOfCopies_loop_spec (val : string) (k : nat) :
  forall pre,
    sliceOfCopies_loop val (seq (length pre) k) (pre ++ repeat "" k)
    = pre ++ repeat val k.
Proof.
  induction k as [|k IH]; intros pre; simpl; [reflexivity|].
  rewrite slice_set_middle.
  specialize (IH (pre ++ [val])).
  rewrite length_app, Nat.add_comm in IH. simpl in IH.
  now rewrite <- !app_assoc in IH.
Qed.

Lemma sliceOfCopies_repeat (val : string) (count : nat) :
  sliceOfCopies val count = repeat val count.
Proof. exact (sliceOfCopies_loop_spec val count []). Qed.

Lemma firstn_length_app {A} (xs rest : list A) :
  firstn (length xs) (xs ++ rest) = xs.
Proof.
  induction xs as [|x xs IH]; simpl; [now destruct rest | now rewrite IH].
Qed.

Lemma skipn_length_app {A} (xs rest : list A) :
  skipn (length xs) (xs ++ rest) = rest.
Proof. induction xs as [|x xs IH]; simpl; [reflexivity | exact IH]. Qed.

(** The placeholders of [NOT IN] take exactly the excluded identities. *)
Lemma bind_NOT_IN (c : column) (cs : list cond) (xs rest : list value) :
  bind (NOT_IN c (sliceOfCopies "?" (length xs)) :: cs) (xs ++ rest)
  = match bind cs rest with
    | Some (bs, rest') => Some (BNotIn c xs :: bs, rest')
    | None => None
    end.
Proof.
  cbn [bind]. rewrite sliceOfCopies_repeat, repeat_length.
  replace (Nat.ltb (length (xs ++ rest)) (length xs)) with false.
  - now rewrite skipn_length_app, firstn_length_app.
  - symmetry. apply Nat.ltb_ge. rewrite length_app. lia.
Qed.

Lemma existsb_map {A B} (f : B -> bool) (g : A -> B) (l : list A) :
  existsb f (map g l) = existsb (fun x => f (g x)) l.
Proof. induction l as [|x l IH]; simpl; [reflexivity | now rewrite IH]. Qed.

Lemma threshold_max (a t : Z) : (if a <? t then t else a) = Z.max a t.
Proof. destruct (a <? t) eqn:E; lia. Qed.

(** The WHERE clause of the proven-node query is the condition of the
    proven tier. *)
Lemma reputable_query_rows (table : list row) (g : getNodesRequest)
      (floor : NodeStats.t) :
  run_select
    (reputable_query (length (excluded g)))
    (map (fun id => VBytes (Bytes id)) (excluded g)
     ++ [VInt (if NodeStats.AuditCount floor <? newNodeAuditThreshold g
               then newNodeAuditThreshold g else NodeStats.AuditCount floor);
         VFloat (NodeStats.AuditSuccessRatio floor);
         VInt (NodeStats.UptimeCount floor);
         VFloat (NodeStats.UptimeRatio floor);
         VInt (freeBandwidth g); VInt (freeDisk g);
         VInt nodeTypeStorage; VInt (reputableNodeAmount g)])
    table
  = Some (map (fun r => map (col r) selected_columns)
              (LIMIT (reputableNodeAmount g)
                     (filter (proven_row g floor) table))).
Proof.
  unfold run_select, reputable_query. cbn [sel_where sel_columns].
  rewrite <- (length_map (fun id => VBytes (Bytes id)) (excluded g)) at 1.
  rewrite bind_NOT_IN. cbn [bind]. do 3 f_equal.
  apply filter_ext. intros r.
  unfold proven_row, meets_floors, not_excluded, Bytes. cbn.
  rewrite existsb_map, threshold_max, andb_true_r, !andb_assoc.
  reflexivity.
Qed.

(** The WHERE clause of the new-node query is the condition of the new
    tier. *)
Lemma new_query_rows (table : list row) (g : getNodesRequest) :
  run_select
    (Rebind (new_query (length (excluded g))))
    (map (fun id => VBytes (Bytes id)) (excluded g)
     ++ [VInt (newNodeAuditThreshold g); VInt (freeBandwidth g);
         VInt (freeDisk g); VInt nodeTypeStorage; VInt (newNodeAmount g)])
    table
  = Some (map (fun r => map (col r) selected_columns)
              (LIMIT (newNodeAmount g) (filter (new_row g) table))).
Proof.
  unfold run_select, Rebind, new_query. cbn [sel_where sel_columns].
  rewrite <- (length_map (fun id => VBytes (Bytes id)) (excluded g)) at 1.
  rewrite bind_NOT_IN. cbn [bind]. do 3 f_equal.
  apply filter_ext. intros r.
  unfold new_row, below_threshold, not_excluded, Bytes. cbn.
  rewrite existsb_map, andb_true_r, !andb_assoc.
  reflexivity.
Qed.

Lemma Scan_selected (r : row) :
  Scan (map (col r) selected_columns) = (scanned r, None).
Proof. reflexivity. Qed.

(** The nodes of a result set: all of them, or none with the first
    error. *)
Lemma sqlRowsToNodes_loop_cases (rs : list row) :
  forall nodes,
    sqlRowsToNodes_loop (map (fun r => map (col r) selected_columns) rs) nodes
    = (nodes ++ map selected_node rs, None)
    \/ exists e,
      sqlRowsToNodes_loop (map (fun r => map (col r) selected_columns) rs) nodes
      = ([], Some e).
Proof.
  induction rs as [|r rs IH]; intros nodes; cbn [map sqlRowsToNodes_loop].
  - left. now rewrite app_nil_r.
  - rewrite Scan_selected.
    destruct (convertOverlayNode_cases (scanned r)) as [[e ->] | ->].
    + right. eauto.
    + destruct (IH (nodes ++ [Some (node_of_row (scanned r))])) as [E | E].
      * left. rewrite E. now rewrite <- app_assoc.
      * now right.
Qed.

Lemma sqlRowsToNodes_loop_wf (rs : list row) :
  Forall wf_row rs ->
  forall nodes,
    sqlRowsToNodes_loop (map (fun r => map (col r) selected_columns) rs) nodes
    = (nodes ++ map selected_node rs, None).
Proof.
  induction 1 as [|r rs Hr Hrs IH]; intros nodes;
    cbn [map sqlRowsToNodes_loop].
  - now rewrite app_nil_r.
  - rewrite Scan_selected, (convertOverlayNode_wf (r := scanned r) Hr).
    rewrite IH. now rewrite <- app_assoc.
Qed.

(** ** The two tiers *)

Lemma In_LIMIT {A} (n : Z) (l : list A) (x : A) : In x (LIMIT n l) -> In x l.
Proof.
  unfold LIMIT. destruct (n <? 0); [trivial|].
  intros H. rewrite <- (firstn_skipn (Z.to_nat n) l).
  apply in_or_app. now left.
Qed.

Lemma LIMIT_length {A} (n : Z) (l : list A) :
  0 <= n -> Z.of_nat (length (LIMIT n l)) <= n.
Proof.
  intros Hn. unfold LIMIT. destruct (n <? 0) eqn:E; [lia|].
  pose proof (firstn_le_length (Z.to_nat n) l). lia.
Qed.


Lemma keys_LIMIT (n : Z) (t : list row) :
  NoDup (keys t) -> NoDup (keys (LIMIT n t)).
Proof.
  unfold LIMIT, keys. destruct (n <? 0); [trivial|].
  intros Hkey.
  rewrite <- (firstn_skipn (Z.to_nat n) t), map_app in Hkey.
  exact (NoDup_app_remove_r _ _ Hkey).
Qed.

Lemma keys_filter (keep : row -> bool) (t : list row) :
  NoDup (keys t) -> NoDup (keys (filter keep t)).
Proof.
  unfold keys. induction t as [|r t IH]; cbn [filter map]; [trivial|].
  intros Hkey. apply NoDup_cons_iff in Hkey as [Hfresh Hkey].
  destruct (keep r); [|now apply IH].
  cbn [map]. apply NoDup_cons; [|now apply IH].
  intros Hin. apply Hfresh.
  apply in_map_iff in Hin as (r' & Hid & Hin).
  apply filter_In in Hin as [Hin _].
  apply in_map_iff. now exists r'.
Qed.

Lemma keys_injective (t : list row) (r r' : row) :
  NoDup (keys t) -> In r t -> In r' t ->
  OverlayCacheNode.NodeId r = OverlayCacheNode.NodeId r' -> r = r'.
Proof.
  unfold keys. induction t as [|x t IH]; cbn [map]; [contradiction|].
  intros Hkey Hr Hr' Hid. apply NoDup_cons_iff in Hkey as [Hfresh Hkey].
  destruct Hr as [-> | Hr], Hr' as [-> | Hr']; auto.
  - exfalso. apply Hfresh. rewrite Hid. now apply in_map.
  - exfalso. apply Hfresh. rewrite <- Hid. now apply in_map.
Qed.

Lemma node_ids_selected (rs : list row) :
  node_ids (map selected_node rs) = keys rs.
Proof. induction rs as [|r rs IH]; simpl; [reflexivity | now rewrite IH]. Qed.

Lemma node_ids_app (a b : list (option Node.t)) :
  node_ids (a ++ b) = node_ids a ++ node_ids b.
Proof. unfold node_ids. apply flat_map_app. Qed.

Lemma not_excluded_In (excl : list NodeID) (r : row) :
  not_excluded excl r = true -> ~ In (OverlayCacheNode.NodeId r) excl.
Proof.
  unfold not_excluded. intros H Hin.
  apply negb_true_iff in H.
  assert (E : existsb (bytes_eqb (OverlayCacheNode.NodeId r)) excl = true).
  { apply existsb_exists. eexists. split; [exact Hin | apply bytes_eqb_refl]. }
  congruence.
Qed.

(** The proven tier: the rows of [proven_rows], or nothing with an
    error. *)
Lemma getReputableNodes_cases (cache : DB) (g : getNodesRequest)
      (floor : NodeStats.t) :
  minReputation g = Some floor ->
  getReputableNodes cache g
  = Returns (map selected_node (proven_rows cache g floor), None)
  \/ exists e, getReputableNodes cache g = Returns ([], Some e).
Proof.
  intros Hfloor.
  unfold getReputableNodes, findReputableNodesQuery, Query. rewrite Hfloor.
  destruct (fault cache _) as [e|]; [right; eauto|].
  rewrite reputable_query_rows. cbn beta iota. unfold sqlRowsToNodes.
  destruct (sqlRowsToNodes_loop_cases (proven_rows cache g floor) [])
    as [E | [e E]]; unfold proven_rows in *; rewrite E; [left | right; eauto].
  reflexivity.
Qed.

Lemma getNewNodes_cases (cache : DB) (g : getNodesRequest) :
  getNewNodes cache g = Returns (map selected_node (new_rows cache g), None)
  \/ exists e, getNewNodes cache g = Returns ([], Some e).
Proof.
  unfold getNewNodes, findNewNodesQuery, Query.
  destruct (fault cache _) as [e|]; [right; eauto|].
  rewrite new_query_rows. cbn beta iota. unfold sqlRowsToNodes.
  destruct (sqlRowsToNodes_loop_cases (new_rows cache g) [])
    as [E | [e E]]; unfold new_rows in *; rewrite E; [left | right; eauto].
  reflexivity.
Qed.

Lemma wf_proven_rows (cache : DB) (g : getNodesRequest) (floor : NodeStats.t) :
  wf_table cache -> Forall wf_row (proven_rows cache g floor).
Proof.
  unfold wf_table. rewrite !Forall_forall. intros H r Hr.
  apply In_LIMIT, filter_In in Hr. now apply H.
Qed.

Lemma wf_new_rows (cache : DB) (g : getNodesRequest) :
  wf_table cache -> Forall wf_row (new_rows cache g).
Proof.
  unfold wf_table. rewrite !Forall_forall. intros H r Hr.
  apply In_LIMIT, filter_In in Hr. now apply H.
Qed.

(** On a healthy store with well-formed rows both tiers are returned. *)
Lemma getReputableNodes_healthy (cache : DB) (g : getNodesRequest)
      (floor : NodeStats.t) :
  minReputation g = Some floor ->
  queries_answered cache -> wf_table cache ->
  getReputableNodes cache g
  = Returns (map selected_node (proven_rows cache g floor), None).
Proof.
  intros Hfloor Hq Hwf.
  unfold getReputableNodes, findReputableNodesQuery, Query.
  rewrite Hfloor, Hq, reputable_query_rows. cbn beta iota.
  unfold sqlRowsToNodes.
  pose proof (sqlRowsToNodes_loop_wf (wf_proven_rows g floor Hwf) []) as E.
  unfold proven_rows in *. rewrite E. reflexivity.
Qed.

Lemma getNewNodes_healthy (cache : DB) (g : getNodesRequest) :
  queries_answered cache -> wf_table cache ->
  getNewNodes cache g = Returns (map selected_node (new_rows cache g), None).
Proof.
  intros Hq Hwf.
  unfold getNewNodes, findNewNodesQuery, Query.
  rewrite Hq, new_query_rows. cbn beta iota. unfold sqlRowsToNodes.
  pose proof (sqlRowsToNodes_loop_wf (wf_new_rows g Hwf) []) as E.
  unfold new_rows in *. rewrite E. reflexivity.
Qed.

(** [FilterNodes] in terms of its two tiers. *)
Lemma FilterNodes_tiers (cache : DB) (req : FilterNodesRequest.t)
      (opts : OverlayOptions.t) (restrictions : NodeRestrictions.t) :
  FilterNodesRequest.Opts req = Some opts ->
  OverlayOptions.Restrictions opts = Some restrictions ->
  FilterNodes cache (Some req)
  = match getReputableNodes cache (reputableReq req opts restrictions) with
    | Panics => Panics
    | Returns (_, Some e) => Returns ([], Some e)
    | Returns (reputableNodes, None) =>
        match getNewNodes cache (newReq req opts restrictions) with
        | Panics => Panics
        | Returns (_, Some e) => Returns ([], Some e)
        | Returns (newNodes, None) =>
            Returns (reputableNodes ++ newNodes,
                     if Z.of_nat (length reputableNodes) <? provenTarget req
                     then Some (shortfall (provenTarget req)
                                          (length reputableNodes))
                     else None)
        end
    end.
Proof.
  intros Hopts Hrestr.
  unfold FilterNodes. cbv zeta.
  fold (provenTarget req). fold (newNodeQuota req).
  unfold GetRestrictions. rewrite Hopts, Hrestr.
  fold (reputableReq req opts restrictions).
  fold (newReq req opts restrictions).
  fold (shortfall (provenTarget req)).
  destruct (getReputableNodes _ _) as [[reputableNodes [e|]]|];
    try reflexivity.
  destruct (getNewNodes _ _) as [[newNodes [e|]]|]; try reflexivity.
  cbn [app]. destruct (_ <? _); reflexivity.
Qed.

(** What [FilterNodes] can return: nothing with an error, or the two
    tiers, with the shortfall error when the proven tier is short. *)
Lemma FilterNodes_returns (cache : DB) (req : FilterNodesRequest.t)
      (nodes : list (option Node.t)) (err : option error) :
  FilterNodes cache (Some req) = Returns (nodes, err) ->
  exists opts restrictions floor,
    FilterNodesRequest.Opts req = Some opts /\
    OverlayOptions.Restrictions opts = Some restrictions /\
    FilterNodesRequest.MinReputation req = Some floor /\
    ((nodes = [] /\ err <> None)
     \/
     (getReputableNodes cache (reputableReq req opts restrictions)
      = Returns
          (map selected_node
               (proven_rows cache (reputableReq req opts restrictions) floor),
           None) /\
      nodes
      = map selected_node
            (proven_rows cache (reputableReq req opts restrictions) floor)
        ++ map selected_node
               (new_rows cache (newReq req opts restrictions)) /\
      err
      = if Z.of_nat
             (length (proven_rows cache
                        (reputableReq req opts restrictions) floor))
           <? provenTarget req
        then Some (shortfall (provenTarget req)
                     (length (proven_rows cache
                                (reputableReq req opts restrictions) floor)))
        else None)).
Proof.
  intros H.
  destruct (FilterNodesRequest.Opts req) as [opts|] eqn:Hopts;
    [|unfold FilterNodes, GetRestrictions in H; rewrite Hopts in H;
      discriminate].
  destruct (OverlayOptions.Restrictions opts) as [restrictions|] eqn:Hrestr;
    [|unfold FilterNodes, GetRestrictions in H; rewrite Hopts, Hrestr in H;
      discriminate].
  rewrite (FilterNodes_tiers cache req Hopts Hrestr) in H.
  destruct (FilterNodesRequest.MinReputation req) as [floor|] eqn:Hfloor.
  2:{ unfold getReputableNodes, findReputableNodesQuery in H.
      cbn [minReputation reputableReq] in H. rewrite Hfloor in H.
      discriminate. }
  exists opts, restrictions, floor.
  do 3 (split; [solve [auto]|]).
  destruct (getReputableNodes_cases cache
              (reputableReq req opts restrictions) Hfloor) as [E | [e E]];
    rewrite E in H.
  - destruct (getNewNodes_cases cache (newReq req opts restrictions))
      as [E' | [e E']]; rewrite E' in H.
    + right. rewrite length_map in H. injection H as <- <-.
      repeat split; assumption.
    + left. injection H as <- <-. split; [reflexivity | discriminate].
  - left. injection H as <- <-. split; [reflexivity | discriminate].
Qed.

(** A selected node and the row it was read from. *)
Lemma selected_node_fields (r : row) :
  exists n s,
    selected_node r = Some n /\
    Node.Id n = OverlayCacheNode.NodeId r /\
    Node.Type_ n = int32 (OverlayCacheNode.NodeType r) /\
    Node.Reputation n = Some s /\
    NodeStats.AuditCount s = OverlayCacheNode.AuditCount r /\
    NodeStats.AuditSuccessRatio s = OverlayCacheNode.AuditSuccessRatio r /\
    NodeStats.UptimeCount s = OverlayCacheNode.UptimeCount r /\
    NodeStats.UptimeRatio s = OverlayCacheNode.AuditUptimeRatio r /\
    (forall floor, floor <= OverlayCacheNode.FreeBandwidth r ->
                   floor <= GetFreeBandwidth (Node.Restrictions n)) /\
    (forall floor, floor <= OverlayCacheNode.FreeDisk r ->
                   floor <= GetFreeDisk (Node.Restrictions n)).
Proof.
  unfold selected_node. do 2 eexists. split; [reflexivity|].
  unfold node_of_row, scanned; cbn.
  repeat split; try reflexivity.
  - intros floor Hf.
    destruct (OverlayCacheNode.FreeBandwidth r <? 0) eqn:E1,
             (OverlayCacheNode.FreeDisk r <? 0) eqn:E2; cbn; lia.
  - intros floor Hf.
    destruct (OverlayCacheNode.FreeBandwidth r <? 0) eqn:E1,
             (OverlayCacheNode.FreeDisk r <? 0) eqn:E2; cbn; lia.
Qed.

Lemma is_new_selected (threshold : Z) (r : row) :
  is_new threshold (selected_node r)
  = (OverlayCacheNode.AuditCount r <? threshold).
Proof. reflexivity. Qed.

Lemma meets_floors_proven (g : getNodesRequest) (floor : NodeStats.t) (r : row) :
  meets_floors g floor r = true ->
  newNodeAuditThreshold g <= OverlayCacheNode.AuditCount r.
Proof.
  unfold meets_floors. rewrite !andb_true_iff.
  intros [[[[[[H _] _] _] _] _] _]. lia.
Qed.

Lemma below_threshold_new (g : getNodesRequest) (r : row) :
  below_threshold g r = true ->
  OverlayCacheNode.AuditCount r < newNodeAuditThreshold g.
Proof.
  unfold below_threshold. rewrite !andb_true_iff.
  intros [[[H _] _] _]. lia.
Qed.

Lemma In_proven_rows (cache : DB) (g : getNodesRequest) (floor : NodeStats.t)
      (r : row) :
  In r (proven_rows cache g floor) ->
  In r (overlay_cache_nodes cache) /\
  not_excluded (excluded g) r = true /\ meets_floors g floor r = true.
Proof.
  unfold proven_rows, proven_row. intros H.
  apply In_LIMIT, filter_In in H as [Hin H].
  apply andb_true_iff in H. tauto.
Qed.

Lemma In_new_rows (cache : DB) (g : getNodesRequest) (r : row) :
  In r (new_rows cache g) ->
  In r (overlay_cache_nodes cache) /\
  not_excluded (excluded g) r = true /\ below_threshold g r = true.
Proof.
  unfold new_rows, new_row. intros H.
  apply In_LIMIT, filter_In in H as [Hin H].
  apply andb_true_iff in H. tauto.
Qed.

Lemma count_new_proven (cache : DB) (g : getNodesRequest) (floor : NodeStats.t) :
  count_new (newNodeAuditThreshold g)
            (map selected_node (proven_rows cache g floor)) = 0%nat.
Proof.
  unfold count_new.
  assert (H : forall r, In r (proven_rows cache g floor) ->
                        newNodeAuditThreshold g
                        <= OverlayCacheNode.AuditCount r).
  { intros r Hr. apply In_proven_rows in Hr as (_ & _ & Hr).
    now apply meets_floors_proven in Hr. }
  induction (proven_rows cache g floor) as [|r rs IH]; [reflexivity|].
  cbn [map filter]. rewrite is_new_selected.
  replace (_ <? _) with false.
  - apply IH. intros r' Hr'. apply H. now right.
  - symmetry. apply Z.ltb_ge. apply H. now left.
Qed.

(** ** The reputation-gated selector *)


Lemma sample_store_answers : queries_answered sample_store.
Proof. intros q args. reflexivity. Qed.


(** C4.  Whatever [FilterNodes] returns on a store with one row per
    identity, the list holds no nil entry, no excluded identity and no
    identity twice, and when the new-node quota
    [int64(float64(provenTarget) * newNodePercentage)] is not negative
    the number of new (unproven) nodes in the list does not exceed it. *)
Theorem FilterNodes_invariant (cache : DB) (req : FilterNodesRequest.t)
        (nodes : list (option Node.t)) (err : option error) :
  NoDup (keys (overlay_cache_nodes cache)) ->
  FilterNodes cache (Some req) = Returns (nodes, err) ->
  ~ In None nodes /\
  (forall n, In (Some n) nodes ->
             ~ In (Node.Id n)
                  (GetExcludedNodes (FilterNodesRequest.Opts req))) /\
  NoDup (node_ids nodes) /\
  (0 <= newNodeQuota req ->
   Z.of_nat (count_new (FilterNodesRequest.NewNodeAuditThreshold req) nodes)
   <= newNodeQuota req).
Proof.
  intros Hkey H.
  destruct (@FilterNodes_returns _ _ _ _ H)
    as (opts & restrictions & floor & Hopts & Hrestr & Hfloor & Hcases).
  destruct Hcases as [[-> _] | (_ & -> & _)].
  { repeat split; simpl; try tauto. constructor. }
  set (g := reputableReq req opts restrictions).
  set (g' := newReq req opts restrictions).
  rewrite Hopts. cbn [GetExcludedNodes].
  split; [|split; [|split]].
  - intros Hin. apply in_app_or in Hin.
    destruct Hin as [Hin | Hin]; apply in_map_iff in Hin as (r & Hr & _);
      discriminate.
  - intros n Hin. apply in_app_or in Hin.
    destruct Hin as [Hin | Hin]; apply in_map_iff in Hin as (r & [= <-] & Hr).
    + apply In_proven_rows in Hr as (_ & Hr & _).
      now apply not_excluded_In in Hr.
    + apply In_new_rows in Hr as (_ & Hr & _).
      now apply not_excluded_In in Hr.
  - rewrite node_ids_app, !node_ids_selected.
    apply NoDup_app.
    + now apply keys_LIMIT, keys_filter.
    + now apply keys_LIMIT, keys_filter.
    + intros id Hp Hn.
      apply in_map_iff in Hp as (r & Hid & Hr).
      apply in_map_iff in Hn as (r' & Hid' & Hr').
      apply In_proven_rows in Hr as (Hin & _ & Hr).
      apply In_new_rows in Hr' as (Hin' & _ & Hr').
      assert (r = r') by
        (apply (@keys_injective _ _ _ Hkey Hin Hin'); congruence).
      subst r'.
      apply meets_floors_proven in Hr. apply below_threshold_new in Hr'.
      cbn in Hr, Hr'. lia.
  - intros Hquota. unfold count_new. rewrite filter_app, length_app.
    pose proof (count_new_proven cache g floor) as Hp.
    unfold count_new in Hp. cbn [newNodeAuditThreshold g reputableReq] in Hp.
    rewrite Hp.
    pose proof (filter_length_le
                  (is_new (FilterNodesRequest.NewNodeAuditThreshold req))
                  (map selected_node (new_rows cache g'))) as Hle.
    rewrite length_map in Hle.
    pose proof (@LIMIT_length _ (newNodeAmount g')
                  (filter (new_row g') (overlay_cache_nodes cache))
                  Hquota) as Hlim.
    unfold new_rows in *. cbn [newNodeAmount g' newReq] in *. lia.
Qed.

Lemma sample_store_keys : NoDup (keys (overlay_cache_nodes sample_store)).
Proof.
  repeat (constructor; [simpl; intuition discriminate|]). constructor.
Qed.

Lemma sample_selection :
  FilterNodes sample_store (Some (sample_request [sample_id x01]))
  = Returns (sample_proven ++ sample_new, Some (shortfall 3 2)).
Proof. vm_compute. reflexivity. Qed.

Lemma FilterNodes_invariant_witness :
  ~ In None (sample_proven ++ sample_new) /\
  (forall n, In (Some n) (sample_proven ++ sample_new) ->
             ~ In (Node.Id n) [sample_id x01]) /\
  NoDup (node_ids (sample_proven ++ sample_new)) /\
  (0 <= 1 -> Z.of_nat (count_new 5 (sample_proven ++ sample_new)) <= 1).
Proof.
  exact (@FilterNodes_invariant
           sample_store (sample_request [sample_id x01])
           (sample_proven ++ sample_new) (Some (shortfall 3 2))
           sample_store_keys sample_selection).
Defined.

(** The selection of the request with the negative amount on the sample
    store: both queries run with a negative [LIMIT], that is without
    one. *)
Lemma negative_amount_selection :
  FilterNodes sample_store (Some negative_amount_request)
  = Returns (all_proven ++ all_new, None).
Proof. vm_compute. reflexivity. Qed.

(** C4, the claim as stated fails: for a request without a minimum count
    whose options ask for the amount -4, the proven target is -4 and the
    new-node quota [int64(float64(-4) * 0.5)] is -2; on the sample store,
    which holds one row per identity, [FilterNodes] returns five nodes
    and no error, and two of the nodes are new: more than the quota. *)
Lemma FilterNodes_quota_counterexample :
  NoDup (keys (overlay_cache_nodes sample_store)) /\
  newNodeQuota negative_amount_request = -2 /\
  FilterNodes sample_store (Some negative_amount_request)
  = Returns (all_proven ++ all_new, None) /\
  Z.of_nat
    (count_new (FilterNodesRequest.NewNodeAuditThreshold
                  negative_amount_request)
               (all_proven ++ all_new)) = 2 /\
  ~ (Z.of_nat
       (count_new (FilterNodesRequest.NewNodeAuditThreshold
                     negative_amount_request)
                  (all_proven ++ all_new))
     <= newNodeQuota negative_amount_request).
Proof.
  split; [exact sample_store_keys|].
  split; [vm_compute; reflexivity|].
  split; [exact negative_amount_selection|].
  split; [vm_compute; reflexivity|].
  vm_compute. intros H. apply H. reflexivity.
Qed.

(** C5.  Whatever [FilterNodes] returns is a proven tier followed by new
    nodes.  Every node of the proven tier is a storage node whose audit
    count is at least the larger of the minimum audit count and the
    new-node threshold, whose audit success ratio, uptime count and
    uptime ratio are at least the minimum reputation's, whose free
    bandwidth and free disk are at least the requested floors, and whose
    identity is not excluded; when the proven target is not negative the
    tier holds at most that many nodes. *)
Theorem FilterNodes_proven_tier (cache : DB) (req : FilterNodesRequest.t)
        (nodes : list (option Node.t)) (err : option error) :
  FilterNodes cache (Some req) = Returns (nodes, err) ->
  exists opts restrictions floor proven new,
    FilterNodesRequest.Opts req = Some opts /\
    OverlayOptions.Restrictions opts = Some restrictions /\
    FilterNodesRequest.MinReputation req = Some floor /\
    nodes = proven ++ new /\
    (nodes <> [] ->
     getReputableNodes cache (reputableReq req opts restrictions)
     = Returns (proven, None)) /\
    (forall o, In o new ->
       is_new (FilterNodesRequest.NewNodeAuditThreshold req) o = true) /\
    (forall o, In o proven ->
       exists n s,
         o = Some n /\
         Node.Reputation n = Some s /\
         Node.Type_ n = NodeType_STORAGE /\
         Z.max (NodeStats.AuditCount floor)
               (FilterNodesRequest.NewNodeAuditThreshold req)
         <= NodeStats.AuditCount s /\
         PrimFloat.leb (NodeStats.AuditSuccessRatio floor)
                       (NodeStats.AuditSuccessRatio s) = true /\
         NodeStats.UptimeCount floor <= NodeStats.UptimeCount s /\
         PrimFloat.leb (NodeStats.UptimeRatio floor)
                       (NodeStats.UptimeRatio s) = true /\
         NodeRestrictions.FreeBandwidth restrictions
         <= GetFreeBandwidth (Node.Restrictions n) /\
         NodeRestrictions.FreeDisk restrictions
         <= GetFreeDisk (Node.Restrictions n) /\
         ~ In (Node.Id n) (OverlayOptions.ExcludedNodes opts)) /\
    (0 <= provenTarget req ->
     Z.of_nat (length proven) <= provenTarget req).
Proof.
  intros H.
  destruct (@FilterNodes_returns _ _ _ _ H)
    as (opts & restrictions & floor & Hopts & Hrestr & Hfloor & Hcases).
  exists opts, restrictions, floor.
  destruct Hcases as [[-> _] | (Hrep & -> & _)].
  { exists [], []. repeat split; simpl; try tauto; try lia. }
  set (g := reputableReq req opts restrictions) in *.
  set (g' := newReq req opts restrictions) in *.
  exists (map selected_node (proven_rows cache g floor)),
         (map selected_node (new_rows cache g')).
  do 4 (split; [solve [auto]|]). split; [auto|]. split; [|split].
  - intros o Hin. apply in_map_iff in Hin as (r & <- & Hr).
    rewrite is_new_selected.
    apply In_new_rows in Hr as (_ & _ & Hr).
    apply below_threshold_new in Hr. cbn in Hr. now apply Z.ltb_lt.
  - intros o Hin. apply in_map_iff in Hin as (r & <- & Hr).
    apply In_proven_rows in Hr as (_ & Hexcl & Hr).
    apply not_excluded_In in Hexcl.
    unfold meets_floors in Hr. rewrite !andb_true_iff in Hr.
    destruct Hr as [[[[[[Hac Hasr] Huc] Hur] Hbw] Hdisk] Hty].
    cbn [g reputableReq newNodeAuditThreshold freeBandwidth freeDisk] in *.
    destruct (selected_node_fields r)
      as (n & s & -> & Hid & Htype & Hs & Eac & Easr & Euc & Eur & Fbw & Fdisk).
    exists n, s. rewrite Hid, Htype, Eac, Easr, Euc, Eur.
    apply Z.eqb_eq in Hty. rewrite Hty.
    repeat split; try assumption; try reflexivity; try lia.
    + apply Fbw. lia.
    + apply Fdisk. lia.
  - intros Htarget. rewrite length_map.
    exact (@LIMIT_length _ (reputableNodeAmount g) _ Htarget).
Qed.

Lemma FilterNodes_proven_tier_witness :
  exists proven new,
    sample_proven ++ sample_new = proven ++ new /\
    getReputableNodes
      sample_store
      (reputableReq (sample_request [sample_id x01])
         (OverlayOptions.mk 0 (Some (NodeRestrictions.mk 1 1))
                            [sample_id x01])
         (NodeRestrictions.mk 1 1))
    = Returns (proven, None) /\
    (0 <= 3 -> Z.of_nat (length proven) <= 3).
Proof.
  destruct (@FilterNodes_proven_tier
              sample_store (sample_request [sample_id x01])
              (sample_proven ++ sample_new) (Some (shortfall 3 2))
              sample_selection)
    as (opts & restrictions & floor & proven & new
        & Hopts & Hrestr & Hfloor & Hsplit & Hrep & _ & _ & Hlen).
  injection Hopts as <-. injection Hrestr as <-.
  exists proven, new. split; [exact Hsplit|]. split; [|exact Hlen].
  apply Hrep. discriminate.
Defined.

(** C5, the claim as stated fails: for a request without a minimum count
    whose options ask for the amount -4, the proven target is -4 and the
    proven-node query runs with [LIMIT -4], that is without a limit; on
    the sample store the proven tier holds the three rows that qualify,
    more than the target, and [FilterNodes] returns them with the new
    nodes and no error. *)
Lemma FilterNodes_cap_counterexample :
  provenTarget negative_amount_request = -4 /\
  getReputableNodes
    sample_store
    (reputableReq negative_amount_request
       (OverlayOptions.mk (-4) (Some (NodeRestrictions.mk 1 1)) [])
       (NodeRestrictions.mk 1 1))
  = Returns (all_proven, None) /\
  FilterNodes sample_store (Some negative_amount_request)
  = Returns (all_proven ++ all_new, None) /\
  Z.of_nat (length all_proven) = 3 /\
  ~ (Z.of_nat (length all_proven) <= provenTarget negative_amount_request).
Proof.
  split; [reflexivity|].
  split; [vm_compute; reflexivity|].
  split; [exact negative_amount_selection|].
  split; [reflexivity|].
  vm_compute. intros H. apply H. reflexivity.
Qed.

(** C6.  With an empty exclusion set the list after [NOT IN] is empty,
    the arguments still match the placeholders, and no row is excluded:
    on a healthy store with well-formed rows [FilterNodes] selects by the
    remaining conditions alone, the proven tier among the rows that meet
    the floors and the new nodes among the rows below the threshold. *)
Theorem FilterNodes_empty_exclusion (cache : DB) (req : FilterNodesRequest.t)
        (opts : OverlayOptions.t) (restrictions : NodeRestrictions.t)
        (floor : NodeStats.t) :
  FilterNodesRequest.Opts req = Some opts ->
  OverlayOptions.Restrictions opts = Some restrictions ->
  FilterNodesRequest.MinReputation req = Some floor ->
  OverlayOptions.ExcludedNodes opts = [] ->
  queries_answered cache ->
  wf_table cache ->
  not_in_text (length (OverlayOptions.ExcludedNodes opts)) = "" /\
  (forall r, not_excluded (OverlayOptions.ExcludedNodes opts) r = true) /\
  FilterNodes cache (Some req)
  = Returns
      (map selected_node
           (LIMIT (provenTarget req)
                  (filter (meets_floors (reputableReq req opts restrictions)
                                        floor)
                          (overlay_cache_nodes cache)))
       ++ map selected_node
              (LIMIT (newNodeQuota req)
                     (filter (below_threshold (newReq req opts restrictions))
                             (overlay_cache_nodes cache))),
       if Z.of_nat
            (length
               (LIMIT (provenTarget req)
                      (filter (meets_floors
                                 (reputableReq req opts restrictions) floor)
                              (overlay_cache_nodes cache))))
          <? provenTarget req
       then Some (shortfall
                    (provenTarget req)
                    (length
                       (LIMIT (provenTarget req)
                              (filter (meets_floors
                                         (reputableReq req opts restrictions)
                                         floor)
                                      (overlay_cache_nodes cache)))))
       else None).
Proof.
  intros Hopts Hrestr Hfloor Hexcl Hq Hwf.
  rewrite Hexcl. split; [reflexivity|]. split; [reflexivity|].
  rewrite (FilterNodes_tiers cache req Hopts Hrestr).
  rewrite (@getReputableNodes_healthy
             cache (reputableReq req opts restrictions) floor Hfloor Hq Hwf).
  rewrite (@getNewNodes_healthy
             cache (newReq req opts restrictions) Hq Hwf).
  rewrite length_map. unfold proven_rows, new_rows.
  cbn [reputableNodeAmount newNodeAmount reputableReq newReq].
  assert (E1 : forall r,
             proven_row (reputableReq req opts restrictions) floor r
             = meets_floors (reputableReq req opts restrictions) floor r).
  { intros r. unfold proven_row. cbn [excluded reputableReq].
    now rewrite Hexcl. }
  assert (E2 : forall r,
             new_row (newReq req opts restrictions) r
             = below_threshold (newReq req opts restrictions) r).
  { intros r. unfold new_row. cbn [excluded newReq]. now rewrite Hexcl. }
  rewrite (filter_ext _ _ E1), (filter_ext _ _ E2). reflexivity.
Qed.

Lemma FilterNodes_empty_exclusion_witness :
  match FilterNodes sample_store (Some (sample_request [])) with
  | Returns (nodes, err) =>
      node_ids nodes
      = [sample_id x05; sample_id x02; sample_id x01; sample_id x03] /\
      err = None
  | Panics => False
  end.
Proof.
  rewrite (proj2 (proj2 (@FilterNodes_empty_exclusion
                           sample_store (sample_request []) _ _ _
                           eq_refl eq_refl eq_refl eq_refl
                           sample_store_answers sample_store_wf))).
  split; reflexivity.
Defined.

(** C10.  When the proven-node query fails, [FilterNodes] returns no
    list and the error; when the proven tier was read and the new-node
    query fails, it returns no list and the error as well; a list that is
    not empty comes with no error or with the shortfall error. *)
Theorem FilterNodes_query_failure (cache : DB) (req : FilterNodesRequest.t)
        (opts : OverlayOptions.t) (restrictions : NodeRestrictions.t)
        (e : error) :
  FilterNodesRequest.Opts req = Some opts ->
  OverlayOptions.Restrictions opts = Some restrictions ->
  (forall rows,
     findReputableNodesQuery cache (reputableReq req opts restrictions)
     = Returns (rows, Some e) ->
     FilterNodes cache (Some req) = Returns ([], Some e)) /\
  (forall proven rows,
     getReputableNodes cache (reputableReq req opts restrictions)
     = Returns (proven, None) ->
     findNewNodesQuery cache (newReq req opts restrictions)
     = (rows, Some e) ->
     FilterNodes cache (Some req) = Returns ([], Some e)) /\
  (forall nodes e',
     FilterNodes cache (Some req) = Returns (nodes, Some e') ->
     nodes <> [] ->
     exists found, e' = shortfall (provenTarget req) found).
Proof.
  intros Hopts Hrestr. split; [|split].
  - intros rows Hfail.
    rewrite (FilterNodes_tiers cache req Hopts Hrestr).
    unfold getReputableNodes. rewrite Hfail. reflexivity.
  - intros proven rows Hproven Hfail.
    rewrite (FilterNodes_tiers cache req Hopts Hrestr), Hproven.
    unfold getNewNodes. rewrite Hfail. reflexivity.
  - intros nodes e' H Hne.
    destruct (@FilterNodes_returns _ _ _ _ H)
      as (opts' & restrictions' & floor & _ & _ & _ & Hcases).
    destruct Hcases as [[-> _] | (_ & _ & Herr)]; [congruence|].
    destruct (_ <? _); [|discriminate].
    injection Herr as ->. eauto.
Qed.

Lemma FilterNodes_query_failure_witness :
  getReputableNodes
    lossy_store
    (reputableReq (sample_request [])
       (OverlayOptions.mk 0 (Some (NodeRestrictions.mk 1 1)) [])
       (NodeRestrictions.mk 1 1))
  = Returns (sample_proven
             ++ [selected_node (created_row (sample_node x01 10))], None) /\
  FilterNodes lossy_store (Some (sample_request []))
  = Returns ([], Some (ErrStore "connection lost")).
Proof.
  assert (Hproven :
    getReputableNodes
      lossy_store
      (reputableReq (sample_request [])
         (OverlayOptions.mk 0 (Some (NodeRestrictions.mk 1 1)) [])
         (NodeRestrictions.mk 1 1))
    = Returns (sample_proven
               ++ [selected_node (created_row (sample_node x01 10))], None))
    by (vm_compute; reflexivity).
  split; [exact Hproven|].
  apply (proj1 (proj2 (@FilterNodes_query_failure
                         lossy_store (sample_request []) _ _
                         (ErrStore "connection lost") eq_refl eq_refl))
           _ None Hproven).
  vm_compute. reflexivity.
Defined.

(** ** Further properties of the cache operations *)

Lemma Update_effect (cache cache' : DB) (info : option Node.t)
      (err : option error) :
  Update cache info = Returns (err, cache') ->
  Update_did cache info err cache'.
Proof.
  intros H. unfold Update in H. unfold Update_did.
  destruct info as [info|];
    [|injection H; intros; subst; left; split; [reflexivity | discriminate]].
  destruct (IsZero (Node.Id info)) eqn:Hz;
    [injection H; intros; subst; left; split; [reflexivity | discriminate]|].
  unfold Open in H.
  destruct (fault cache call_Open);
    [injection H; intros; subst; left; split; [reflexivity | discriminate]|].
  unfold Tx_Get_OverlayCacheNode_By_NodeId, get_by_node_id, Bytes in H.
  cbn [tx_db tx_nodes] in H.
  assert (Hcreate :
    (let '(_, err0, tx) :=
       Tx_Create_OverlayCacheNode
         {| tx_db := cache; tx_nodes := overlay_cache_nodes cache |}
         (created_row info) in
     match err0 with
     | Some _ =>
         Returns (Error_Wrap (errs_Combine err0 (Tx_Rollback tx)), cache)
     | None => let '(err1, cache1) := Tx_Commit tx in
               Returns (Error_Wrap err1, cache1)
     end) = Returns (err, cache') ->
    (cache' = cache /\ err <> None)
    \/ (err = None /\
        find_node (Node.Id info) (overlay_cache_nodes cache) = None /\
        cache' = with_rows cache
                   (overlay_cache_nodes cache ++ [created_row info]))).
  { unfold Tx_Create_OverlayCacheNode, Tx_Commit, Tx_Rollback.
    cbn [tx_db tx_nodes].
    change (OverlayCacheNode.NodeId (created_row info)) with (Node.Id info).
    destruct (fault cache (call_Create (Node.Id info))) as [e|].
    { cbn. intros HH. injection HH; intros; subst. left. split; [reflexivity|].
      destruct (fault _ call_Rollback); discriminate. }
    destruct (find_node (Node.Id info) (overlay_cache_nodes cache)) eqn:Hfind.
    { cbn. intros HH. injection HH; intros; subst. left. split; [reflexivity|].
      destruct (fault _ call_Rollback); discriminate. }
    cbn [tx_db tx_nodes].
    destruct (fault cache call_Commit); cbn; intros HH; injection HH;
      intros; subst.
    - left. split; [reflexivity | discriminate].
    - right. repeat split. }
  destruct (fault cache (call_Get (Node.Id info))).
  { destruct (Hcreate H) as [Hc | (He & Hf & Hc)]; [now left|].
    right. left. exists info. repeat split; assumption. }
  destruct (find_node (Node.Id info) (overlay_cache_nodes cache))
    as [r|] eqn:Hfind.
  2:{ destruct (Hcreate H) as [Hc | (He & Hf & Hc)]; [now left|].
      right. left. exists info. repeat split; assumption. }
  clear Hcreate.
  destruct (Node.Reputation info) as [s|] eqn:Hs; [|discriminate].
  unfold Tx_Update_OverlayCacheNode_By_NodeId, Tx_Commit, Tx_Rollback in H.
  cbn [tx_db tx_nodes] in H.
  destruct (fault cache (call_Update (Node.Id info))).
  { cbn in H. injection H; intros; subst. left. split; [reflexivity|].
    destruct (fault _ call_Rollback); discriminate. }
  rewrite Hfind in H. cbn [tx_db tx_nodes] in H.
  destruct (fault cache call_Commit); cbn in H; injection H; intros; subst.
  - left. split; [reflexivity | discriminate].
  - right. right. exists info, r, s. repeat split; try assumption.
    unfold with_rows. f_equal. f_equal. unfold update_fields.
    destruct (Node.Metadata info), (Node.Restrictions info); reflexivity.
Qed.

Lemma find_node_Some (id : list byte) (t : list row) (r : row) :
  find_node id t = Some r -> OverlayCacheNode.NodeId r = id /\ In r t.
Proof.
  unfold find_node. intros H. apply find_some in H as [Hin Heq].
  apply bytes_eqb_eq in Heq. now split.
Qed.

Lemma find_node_other_row (id : list byte) (t : list row) :
  find_node id t = None ->
  Forall (fun r => bytes_eqb (OverlayCacheNode.NodeId r) id = false) t.
Proof.
  unfold find_node. intros H. apply Forall_forall. intros r Hr.
  exact (find_none _ _ H r Hr).
Qed.

Lemma bytes_eqb_neq (a b : list byte) : a <> b -> bytes_eqb a b = false.
Proof.
  intros H. destruct (bytes_eqb a b) eqn:E; [|reflexivity].
  apply bytes_eqb_eq in E. contradiction.
Qed.

Lemma find_node_app (id : list byte) (t : list row) (r : row) :
  find_node id (t ++ [r])
  = match find_node id t with
    | Some x => Some x
    | None => if bytes_eqb (OverlayCacheNode.NodeId r) id then Some r else None
    end.
Proof.
  unfold find_node. induction t as [|x t IH]; cbn [app find].
  - reflexivity.
  - destruct (bytes_eqb (OverlayCacheNode.NodeId x) id); [reflexivity | exact IH].
Qed.

Lemma NodeId_apply_update (u : Update_Fields.t) (r : row) :
  OverlayCacheNode.NodeId (apply_update u r) = OverlayCacheNode.NodeId r.
Proof. reflexivity. Qed.

Lemma find_node_update (id id' : list byte) (u : Update_Fields.t)
      (t : list row) :
  find_node id' (update_node id u t)
  = match find_node id' t with
    | Some x =>
        Some (if bytes_eqb (OverlayCacheNode.NodeId x) id
              then apply_update u x else x)
    | None => None
    end.
Proof.
  unfold find_node, update_node. induction t as [|x t IH]; cbn [map find].
  - reflexivity.
  - destruct (bytes_eqb (OverlayCacheNode.NodeId x) id) eqn:E;
      rewrite ?NodeId_apply_update;
      destruct (bytes_eqb (OverlayCacheNode.NodeId x) id') eqn:E';
      try rewrite E; try reflexivity; exact IH.
Qed.

(** [Get] reads the fault of its call and the row of the identity. *)
Lemma Get_same (cache cache' : DB) (id : NodeID) :
  fault cache' = fault cache ->
  find_node id (overlay_cache_nodes cache')
  = find_node id (overlay_cache_nodes cache) ->
  Get cache' id = Get cache id.
Proof.
  unfold Get, Get_OverlayCacheNode_By_NodeId, get_by_node_id, Bytes.
  now intros -> ->.
Qed.

Lemma Get_found (cache : DB) (id : NodeID) (r : row) :
  IsZero id = false ->
  fault cache (call_Get id) = None ->
  find_node id (overlay_cache_nodes cache) = Some r ->
  Get cache id = convertOverlayNode (Some r).
Proof.
  unfold Get, Get_OverlayCacheNode_By_NodeId, get_by_node_id, Bytes.
  now intros -> -> ->.
Qed.

(** What a successful [Get] read. *)
Lemma Get_ok_row (cache : DB) (id : NodeID) (n : Node.t) :
  Get cache id = (Some n, None) ->
  exists r,
    IsZero id = false /\
    fault cache (call_Get id) = None /\
    find_node id (overlay_cache_nodes cache) = Some r /\
    wf_row r /\ n = node_of_row r.
Proof.
  unfold Get, Get_OverlayCacheNode_By_NodeId, get_by_node_id, Bytes.
  destruct (IsZero id); [discriminate|].
  destruct (fault cache (call_Get id)) as [[]|]; try discriminate.
  destruct (find_node id (overlay_cache_nodes cache)) as [r|];
    [|discriminate].
  intros H. exists r. do 3 (split; [reflexivity|]).
  destruct (convertOverlayNode_cases r) as [[e E] | E]; rewrite E in H;
    [discriminate|].
  injection H as <-. split; [|reflexivity].
  unfold convertOverlayNode, NodeIDFromBytes in E. unfold wf_row, storj.wf.
  destruct (Nat.eqb (length (OverlayCacheNode.NodeId r)) NodeID_size) eqn:L;
    [now apply Nat.eqb_eq | discriminate].
Qed.

(** The forward direction: an update of a stored record on a store that
    answers the four calls. *)
Lemma Update_stored (cache : DB) (info : Node.t) (r : row) (s : NodeStats.t) :
  IsZero (Node.Id info) = false ->
  fault cache call_Open = None ->
  fault cache (call_Get (Node.Id info)) = None ->
  fault cache (call_Update (Node.Id info)) = None ->
  fault cache call_Commit = None ->
  find_node (Node.Id info) (overlay_cache_nodes cache) = Some r ->
  Node.Reputation info = Some s ->
  Update cache (Some info)
  = Returns (None,
             with_rows cache
               (update_node (Node.Id info) (update_fields info s)
                            (overlay_cache_nodes cache))).
Proof.
  intros Hz Ho Hg Hu Hc Hf Hs.
  unfold Update, Open, Tx_Get_OverlayCacheNode_By_NodeId, get_by_node_id,
    Tx_Update_OverlayCacheNode_By_NodeId, Tx_Commit, Bytes.
  rewrite Hz, Ho. cbn [tx_db tx_nodes]. rewrite Hg, Hf, Hs, Hu.
  cbn [tx_db tx_nodes]. rewrite Hc. unfold with_rows, update_fields.
  destruct (Node.Metadata info), (Node.Restrictions info); reflexivity.
Qed.

(** * Further properties of the node record store *)

(** X1.  [Update] refuses a nil message and a message with the zero
    identity with the empty-node error, and whenever it returns an error
    the store is the one it was called on. *)
Theorem Update_failure_keeps_store (cache : DB) (info : option Node.t) :
  ((forall n, info = Some n -> IsZero (Node.Id n) = true) ->
   Update cache info = Returns (Some ErrEmptyNode, cache)) /\
  (forall e cache',
     Update cache info = Returns (Some e, cache') -> cache' = cache).
Proof.
  split.
  - intros Hz. unfold Update. destruct info as [n|]; [|reflexivity].
    now rewrite (Hz n eq_refl).
  - intros e cache' H. apply Update_effect in H.
    destruct H as [[-> _] | [(n & _ & _ & [=] & _) | (n & r & s & _ & _ & [=] & _)]].
    reflexivity.
Qed.

Lemma Update_failure_keeps_store_witness :
  Update commit_fails (Some (sample_node x09 1))
  = Returns (Some (ErrClass (ErrStore "commit failed")), commit_fails) /\
  Update sample_store (Some (sample_node x00 1))
  = Returns (Some ErrEmptyNode, sample_store).
Proof.
  split.
  - assert (E : Update commit_fails (Some (sample_node x09 1))
                = Returns (Some (ErrClass (ErrStore "commit failed")),
                           {| overlay_cache_nodes :=
                                overlay_cache_nodes commit_fails;
                              fault := fault commit_fails |}))
      by reflexivity.
    rewrite E.
    rewrite (proj2 (Update_failure_keeps_store
                      commit_fails (Some (sample_node x09 1))) _ _ E).
    reflexivity.
  - apply (proj1 (Update_failure_keeps_store
                    sample_store (Some (sample_node x00 1)))).
    intros n [= <-]. reflexivity.
Defined.

(** X2.  [Update] keeps the invariants of the table, whatever it
    returns: identities of the right length, one row per identity, no row
    for the zero identity. *)
Theorem Update_keeps_invariants (cache cache' : DB) (info : option Node.t)
        (err : option error) :
  table_ok cache ->
  no_zero_row cache ->
  (forall n, info = Some n -> storj.wf (Node.Id n)) ->
  Update cache info = Returns (err, cache') ->
  table_ok cache' /\ no_zero_row cache'.
Proof.
  intros Hok Hnz Hwf H. split.
  - exact (Update_keeps_table Hok Hwf H).
  - apply Update_effect in H. unfold no_zero_row in *.
    destruct H as [[-> _] | [(n & _ & Hz & _ & _ & ->)
                            | (n & r & s & _ & _ & _ & _ & _ & ->)]];
      cbn [with_rows overlay_cache_nodes].
    + exact Hnz.
    + apply Forall_app. split; [exact Hnz|]. now repeat constructor.
    + unfold update_node. apply Forall_map.
      eapply Forall_impl; [|exact Hnz]. intros x Hx.
      now destruct (bytes_eqb _ _).
Qed.

(** X3.  [Update] leaves the records of the other identities as they
    were: [Get] on another identity returns after the call what it
    returned before, whatever the call returned. *)
Theorem Update_other_identities (cache cache' : DB) (info : option Node.t)
        (err : option error) (id' : NodeID) :
  (forall n, info = Some n -> Node.Id n <> id') ->
  Update cache info = Returns (err, cache') ->
  Get cache' id' = Get cache id'.
Proof.
  intros Hne H. apply Update_effect in H.
  destruct H as [[-> _] | [(n & -> & _ & _ & _ & ->)
                          | (n & r & s & -> & _ & _ & _ & _ & ->)]].
  - reflexivity.
  - apply Get_same; [reflexivity|]. cbn [with_rows overlay_cache_nodes].
    rewrite find_node_app.
    change (OverlayCacheNode.NodeId (created_row n)) with (Node.Id n).
    rewrite (bytes_eqb_neq (Hne n eq_refl)).
    now destruct (find_node id' (overlay_cache_nodes cache)).
  - apply Get_same; [reflexivity|]. cbn [with_rows overlay_cache_nodes].
    rewrite find_node_update.
    destruct (find_node id' (overlay_cache_nodes cache)) as [x|] eqn:Hx;
      [|reflexivity].
    apply find_node_Some in Hx as [Hx _]. rewrite Hx.
    assert (Hne' : id' <> Node.Id n) by (intros E; apply (Hne n eq_refl); auto).
    now rewrite (bytes_eqb_neq Hne').
Qed.

Lemma sample_store_ok : table_ok sample_store /\ no_zero_row sample_store.
Proof.
  split; [split; [exact sample_store_wf | exact sample_store_keys]|].
  repeat (constructor; [reflexivity|]). constructor.
Qed.

Lemma Update_keeps_invariants_witness :
  table_ok (after_update sample_store floors_and_reputation) /\
  no_zero_row (after_update sample_store floors_and_reputation).
Proof.
  apply (@Update_keeps_invariants
           sample_store (after_update sample_store floors_and_reputation)
           (Some floors_and_reputation) None
           (proj1 sample_store_ok) (proj2 sample_store_ok)).
  - intros n [= <-]. reflexivity.
  - reflexivity.
Defined.

Lemma Update_other_identities_witness :
  Get (after_update sample_store floors_and_reputation) (sample_id x02)
  = Get sample_store (sample_id x02).
Proof.
  apply (@Update_other_identities
           sample_store (after_update sample_store floors_and_reputation)
           (Some floors_and_reputation) None (sample_id x02)).
  - intros n [= <-]. discriminate.
  - reflexivity.
Defined.

Lemma node_of_row_groups (r : row) :
  node_of_row r
  = Node.mk (OverlayCacheNode.NodeId r)
      (int32 (OverlayCacheNode.NodeType r))
      (address_group (NodeAddress.mk (OverlayCacheNode.Protocol r)
                                     (OverlayCacheNode.Address r)))
      (metadata_group (NodeMetadata.mk (OverlayCacheNode.OperatorEmail r)
                                       (OverlayCacheNode.OperatorWallet r)))
      (restrictions_group
         (NodeRestrictions.mk (OverlayCacheNode.FreeBandwidth r)
                              (OverlayCacheNode.FreeDisk r)))
      (reputation_group
         (OverlayCacheNode.NodeId r)
         (NodeStats.mk (OverlayCacheNode.NodeId r)
            (OverlayCacheNode.Latency90 r)
            (OverlayCacheNode.AuditSuccessRatio r)
            (OverlayCacheNode.AuditUptimeRatio r)
            (OverlayCacheNode.AuditCount r)
            (OverlayCacheNode.AuditSuccessCount r)
            (OverlayCacheNode.UptimeCount r)
            (OverlayCacheNode.UptimeSuccessCount r))).
Proof. reflexivity. Qed.

(** X4.  After a successful [Update], on a fresh or on a stored
    identity, [Get] on the identity returns a record of that identity
    that carries the address and the reputation of the message: the
    address as supplied, or none when the message has none or an empty
    one; a supplied reputation under the identity of the record, or none
    when its latency is negative. *)
Theorem Update_then_Get_message (cache cache' : DB) (info : Node.t) :
  storj.wf (Node.Id info) ->
  fault cache (call_Get (Node.Id info)) = None ->
  Update cache (Some info) = Returns (None, cache') ->
  exists node,
    Get cache' (Node.Id info) = (Some node, None) /\
    Node.Id node = Node.Id info /\
    Node.Address node
    = match Node.Address info with
      | None => None
      | Some a => address_group a
      end /\
    (forall s, Node.Reputation info = Some s ->
               Node.Reputation node = reputation_group (Node.Id info) s).
Proof.
  intros Hwf Hg H. apply Update_effect in H.
  destruct H as [[_ []] | [(n & [= <-] & Hz & _ & Hf & ->)
                          | (n & r & s & [= <-] & Hz & _ & Hf & Hs & ->)]];
    [reflexivity| |].
  - exists (node_of_row (created_row info)).
    split.
    + rewrite (@Get_found (with_rows cache _) (Node.Id info)
                          (created_row info) Hz Hg).
      * now apply convertOverlayNode_wf.
      * cbn [with_rows overlay_cache_nodes]. rewrite find_node_app, Hf.
        change (OverlayCacheNode.NodeId (created_row info))
          with (Node.Id info).
        now rewrite bytes_eqb_refl.
    + split; [reflexivity|]. split.
      * destruct info as [id ty [a|] m rs rp]; reflexivity.
      * intros s Hs. destruct info as [id ty a m rs rp].
        cbn in Hs. subst rp. reflexivity.
  - destruct (find_node_Some _ _ Hf) as [Hid Hin].
    exists (node_of_row (apply_update (update_fields info s) r)).
    split.
    + rewrite (@Get_found (with_rows cache _) (Node.Id info)
                          (apply_update (update_fields info s) r) Hz Hg).
      * apply convertOverlayNode_wf. unfold wf_row.
        rewrite NodeId_apply_update, Hid. exact Hwf.
      * cbn [with_rows overlay_cache_nodes]. rewrite find_node_update, Hf.
        now rewrite Hid, bytes_eqb_refl.
    + rewrite node_of_row_groups, NodeId_apply_update, Hid.
      split; [reflexivity|]. split.
      * destruct info as [id ty [a|] m rs rp]; reflexivity.
      * intros s' Hs'. rewrite Hs in Hs'. injection Hs' as <-. reflexivity.
Qed.

Lemma Update_then_Get_message_witness :
  exists node,
    Get (after_update sample_store floors_and_reputation) (sample_id x01)
    = (Some node, None) /\
    Node.Id node = sample_id x01 /\
    Node.Address node = None /\
    (forall s, Node.Reputation floors_and_reputation = Some s ->
               Node.Reputation node = reputation_group (sample_id x01) s).
Proof.
  exact (@Update_then_Get_message
           sample_store (after_update sample_store floors_and_reputation)
           floors_and_reputation eq_refl eq_refl eq_refl).
Defined.

(** X5.  A successful [Update] of a stored record never changes its node
    type, keeps the operator metadata when the message has none and the
    resource floors when the message has none, and replaces them by the
    supplied ones otherwise. *)
Theorem Update_stored_sparse (cache cache' : DB) (info old : Node.t) :
  Get cache (Node.Id info) = (Some old, None) ->
  Update cache (Some info) = Returns (None, cache') ->
  exists new,
    Get cache' (Node.Id info) = (Some new, None) /\
    Node.Type_ new = Node.Type_ old /\
    Node.Metadata new
    = match Node.Metadata info with
      | None => Node.Metadata old
      | Some m => metadata_group m
      end /\
    Node.Restrictions new
    = match Node.Restrictions info with
      | None => Node.Restrictions old
      | Some r => restrictions_group r
      end.
Proof.
  intros Hget H.
  apply Get_ok_row in Hget as (r & Hz & Hg & Hf & Hwf & ->).
  apply Update_effect in H.
  destruct H as [[_ []] | [(n & [= <-] & _ & _ & Hf' & _)
                          | (n & r' & s & [= <-] & _ & _ & Hf' & Hs & ->)]];
    [reflexivity | congruence |].
  rewrite Hf in Hf'. injection Hf' as <-.
  destruct (find_node_Some _ _ Hf) as [Hid Hin].
  exists (node_of_row (apply_update (update_fields info s) r)).
  split.
  - rewrite (@Get_found (with_rows cache _) (Node.Id info)
                          (apply_update (update_fields info s) r) Hz Hg).
    + now apply convertOverlayNode_wf.
    + cbn [with_rows overlay_cache_nodes]. rewrite find_node_update, Hf.
      now rewrite Hid, bytes_eqb_refl.
  - rewrite !node_of_row_groups. cbn [Node.Type_ Node.Metadata Node.Restrictions].
    split; [reflexivity|].
    destruct info as [id ty a [[em wa]|] [[bw disk]|] rp]; split; reflexivity.
Qed.

Lemma Update_stored_sparse_witness :
  exists new,
    Get (after_update sample_store floors_and_reputation) (sample_id x01)
    = (Some new, None) /\
    Node.Type_ new = 2 /\
    Node.Metadata new
    = Some (NodeMetadata.mk "op@example.test" "0xwallet") /\
    Node.Restrictions new = Some (NodeRestrictions.mk 10 20).
Proof.
  exact (@Update_stored_sparse
           sample_store (after_update sample_store floors_and_reputation)
           floors_and_reputation (sample_node x01 10) eq_refl eq_refl).
Defined.

Lemma set_or_twice {A} (f : option A) (old : A) :
  set_or f (set_or f old) = set_or f old.
Proof. now destruct f. Qed.

Lemma apply_update_twice (u : Update_Fields.t) (r : row) :
  apply_update u (apply_update u r) = apply_update u r.
Proof.
  unfold apply_update.
  cbn [OverlayCacheNode.NodeId OverlayCacheNode.NodeType
       OverlayCacheNode.Address OverlayCacheNode.Protocol
       OverlayCacheNode.OperatorEmail OverlayCacheNode.OperatorWallet
       OverlayCacheNode.FreeBandwidth OverlayCacheNode.FreeDisk
       OverlayCacheNode.Latency90 OverlayCacheNode.AuditSuccessRatio
       OverlayCacheNode.AuditUptimeRatio OverlayCacheNode.AuditCount
       OverlayCacheNode.AuditSuccessCount OverlayCacheNode.UptimeCount
       OverlayCacheNode.UptimeSuccessCount].
  now rewrite !set_or_twice.
Qed.

Lemma update_node_twice (id : list byte) (u : Update_Fields.t) (t : list row) :
  update_node id u (update_node id u t) = update_node id u t.
Proof.
  unfold update_node. rewrite map_map. apply map_ext. intros r.
  destruct (bytes_eqb (OverlayCacheNode.NodeId r) id) eqn:E.
  - now rewrite NodeId_apply_update, E, apply_update_twice.
  - now rewrite E.
Qed.

Lemma update_node_absent (id : list byte) (u : Update_Fields.t) (t : list row) :
  find_node id t = None -> update_node id u t = t.
Proof.
  intros H. apply find_node_other_row in H. unfold update_node.
  induction H as [|r t Hr Ht IH]; cbn [map]; [reflexivity|].
  now rewrite Hr, IH.
Qed.

Lemma update_node_app (id : list byte) (u : Update_Fields.t)
      (t t' : list row) :
  update_node id u (t ++ t') = update_node id u t ++ update_node id u t'.
Proof. unfold update_node. apply map_app. Qed.

Lemma apply_update_created (info : Node.t) (s : NodeStats.t) :
  Node.Reputation info = Some s ->
  apply_update (update_fields info s) (created_row info) = created_row info.
Proof.
  destruct info as [id ty a m rs rp]. cbn [Node.Reputation]. intros ->.
  destruct a, m, rs; reflexivity.
Qed.

(** X6.  On a healthy store [Update] is idempotent for a message that
    carries a reputation: after a successful call, the same call
    succeeds again and leaves the store as the first call left it. *)
Theorem Update_idempotent (cache cache' : DB) (info : Node.t)
        (s : NodeStats.t) :
  healthy cache ->
  Node.Reputation info = Some s ->
  Update cache (Some info) = Returns (None, cache') ->
  Update cache' (Some info) = Returns (None, cache').
Proof.
  intros Hh Hs H. apply Update_effect in H.
  destruct H as [[_ []] | [(n & [= <-] & Hz & _ & Hf & ->)
                          | (n & r & s' & [= <-] & Hz & _ & Hf & Hs' & ->)]];
    [reflexivity| |].
  - assert (Hf1 : find_node (Node.Id info)
                    (overlay_cache_nodes
                       (with_rows cache
                          (overlay_cache_nodes cache ++ [created_row info])))
                  = Some (created_row info)).
    { cbn [with_rows overlay_cache_nodes]. rewrite find_node_app, Hf.
      change (OverlayCacheNode.NodeId (created_row info)) with (Node.Id info).
      now rewrite bytes_eqb_refl. }
    rewrite (@Update_stored
               (with_rows cache
                  (overlay_cache_nodes cache ++ [created_row info]))
               info (created_row info) s
               Hz (Hh _) (Hh _) (Hh _) (Hh _) Hf1 Hs).
    unfold with_rows. cbn [overlay_cache_nodes fault].
    rewrite update_node_app, (@update_node_absent _ _ _ Hf).
    unfold update_node. cbn [map].
    change (OverlayCacheNode.NodeId (created_row info)) with (Node.Id info).
    now rewrite bytes_eqb_refl, (apply_update_created info Hs).
  - destruct (find_node_Some _ _ Hf) as [Hid _].
    assert (s' = s) by congruence. subst s'.
    assert (Hf1 : find_node (Node.Id info)
                    (overlay_cache_nodes
                       (with_rows cache
                          (update_node (Node.Id info) (update_fields info s)
                                       (overlay_cache_nodes cache))))
                  = Some (apply_update (update_fields info s) r)).
    { cbn [with_rows overlay_cache_nodes]. rewrite find_node_update, Hf.
      now rewrite Hid, bytes_eqb_refl. }
    rewrite (@Update_stored
               (with_rows cache
                  (update_node (Node.Id info) (update_fields info s)
                               (overlay_cache_nodes cache)))
               info _ s
               Hz (Hh _) (Hh _) (Hh _) (Hh _) Hf1 Hs).
    unfold with_rows. cbn [overlay_cache_nodes fault].
    now rewrite update_node_twice.
Qed.

Lemma sample_store_healthy : healthy sample_store.
Proof. intros c. reflexivity. Qed.

Lemma Update_idempotent_witness :
  Update (after_update sample_store floors_and_reputation)
         (Some floors_and_reputation)
  = Returns (None, after_update sample_store floors_and_reputation).
Proof.
  exact (@Update_idempotent
           sample_store (after_update sample_store floors_and_reputation)
           floors_and_reputation (sample_stats (sample_id x01) 10)
           sample_store_healthy eq_refl eq_refl).
Defined.

(** X7.  [Get] returns a record or an error, never both and never
    neither; a record it returns is the record of the identity asked
    for, which is then neither the zero identity nor of a wrong
    length. *)
Theorem Get_record_or_error (cache : DB) (id : NodeID) :
  (exists n,
     Get cache id = (Some n, None) /\
     Node.Id n = id /\ IsZero id = false /\ storj.wf id)
  \/ (exists e, Get cache id = (None, Some e)).
Proof.
  destruct (Get cache id) as [info [e|]] eqn:G.
  - right. exists e. f_equal.
    unfold Get, Get_OverlayCacheNode_By_NodeId, get_by_node_id in G.
    destruct (IsZero id); [now injection G as <- _|].
    destruct (fault cache (call_Get (Bytes id))) as [[]|];
      try (now injection G as <- _).
    destruct (find_node (Bytes id) (overlay_cache_nodes cache)) as [r|];
      [|now injection G as <- _].
    destruct (convertOverlayNode_cases r) as [[e' E] | E]; rewrite E in G;
      [now injection G as <- _ | discriminate].
  - left. destruct (Get_ok_record _ _ G) as [n ->]. exists n.
    split; [reflexivity|].
    apply Get_ok_row in G as (r & Hz & _ & Hf & Hwf & ->).
    apply find_node_Some in Hf as [Hid _].
    unfold wf_row in Hwf. rewrite Hid in Hwf. now repeat split.
Qed.

(** * Deletion and the operator wallet *)

Lemma with_rows_same (cache : DB) :
  with_rows cache (overlay_cache_nodes cache) = cache.
Proof. now destruct cache. Qed.

Lemma Delete_unfold (cache : DB) (id : NodeID) :
  Delete cache id
  = match fault cache (call_Query delete_statement [VBytes id]) with
    | Some e => (Some e, cache)
    | None =>
        (None,
         with_rows cache
           (filter (fun r => negb (bytes_eqb (OverlayCacheNode.NodeId r) id))
                   (overlay_cache_nodes cache)))
    end.
Proof.
  unfold Delete, Delete_OverlayCacheNode_By_NodeId, Bytes.
  now destruct (fault cache _).
Qed.

Lemma find_node_deleted (id id' : list byte) (t : list row) :
  find_node id'
    (filter (fun r => negb (bytes_eqb (OverlayCacheNode.NodeId r) id)) t)
  = if bytes_eqb id' id then None else find_node id' t.
Proof.
  unfold find_node. induction t as [|x t IH]; cbn [filter find].
  - now destruct (bytes_eqb id' id).
  - destruct (bytes_eqb (OverlayCacheNode.NodeId x) id) eqn:E; cbn [negb find].
    + rewrite IH. destruct (bytes_eqb id' id) eqn:E'; [reflexivity|].
      destruct (bytes_eqb (OverlayCacheNode.NodeId x) id') eqn:E'';
        [|reflexivity].
      apply bytes_eqb_eq in E, E''. subst.
      now rewrite bytes_eqb_refl in E'.
    + destruct (bytes_eqb (OverlayCacheNode.NodeId x) id') eqn:E''.
      * apply bytes_eqb_eq in E''. subst id'. now rewrite E.
      * exact IH.
Qed.

Lemma filter_absent (id : list byte) (t : list row) :
  find_node id t = None ->
  filter (fun r => negb (bytes_eqb (OverlayCacheNode.NodeId r) id)) t = t.
Proof.
  intros H. apply find_node_other_row in H. apply filter_all.
  eapply Forall_impl; [|exact H]. intros r Hr. cbn. now rewrite Hr.
Qed.

Lemma filter_twice {A} (p : A -> bool) (l : list A) :
  filter p (filter p l) = filter p l.
Proof.
  apply filter_all. apply Forall_forall. intros x Hx.
  now apply filter_In in Hx.
Qed.

Lemma Get_absent (cache : DB) (id : NodeID) :
  IsZero id = false ->
  fault cache (call_Get id) = None ->
  find_node id (overlay_cache_nodes cache) = None ->
  Get cache id = (None, Some ErrNodeNotFound).
Proof.
  unfold Get, Get_OverlayCacheNode_By_NodeId, get_by_node_id, Bytes.
  now intros -> -> ->.
Qed.

(** X8.  After a successful [Delete] the identity has no record: [Get]
    on it fails with the node-not-found error; and [Delete] is
    idempotent: the same call succeeds again and changes nothing. *)
Theorem Delete_removes (cache cache' : DB) (id : NodeID) :
  Delete cache id = (None, cache') ->
  (IsZero id = false ->
   fault cache (call_Get id) = None ->
   Get cache' id = (None, Some ErrNodeNotFound)) /\
  Delete cache' id = (None, cache').
Proof.
  rewrite Delete_unfold.
  destruct (fault cache (call_Query delete_statement [VBytes id])) eqn:F;
    [discriminate|].
  intros [= <-]. split.
  - intros Hz Hg.
    apply Get_absent; [exact Hz | exact Hg |].
    cbn [with_rows overlay_cache_nodes].
    now rewrite find_node_deleted, bytes_eqb_refl.
  - rewrite Delete_unfold. cbn [with_rows overlay_cache_nodes fault].
    rewrite F. unfold with_rows. cbn [fault]. now rewrite filter_twice.
Qed.

Lemma Delete_removes_witness :
  Get (snd (Delete sample_store (sample_id x01))) (sample_id x01)
  = (None, Some ErrNodeNotFound) /\
  Delete (snd (Delete sample_store (sample_id x01))) (sample_id x01)
  = (None, snd (Delete sample_store (sample_id x01))).
Proof.
  destruct (@Delete_removes
              sample_store (snd (Delete sample_store (sample_id x01)))
              (sample_id x01) eq_refl) as [Hget Hagain].
  split; [exact (Hget eq_refl eq_refl) | exact Hagain].
Defined.

(** X9.  [Delete] leaves the records of the other identities as they
    were; a call that returns an error leaves the store as it was; on an
    identity that has no record it succeeds, when the store answers, and
    changes nothing; and it keeps the invariants of the table. *)
Theorem Delete_frame (cache cache' : DB) (id : NodeID) (err : option error) :
  Delete cache id = (err, cache') ->
  (forall id', id' <> id -> Get cache' id' = Get cache id') /\
  (err <> None -> cache' = cache) /\
  (find_node id (overlay_cache_nodes cache) = None -> cache' = cache) /\
  (table_ok cache -> table_ok cache') /\
  (no_zero_row cache -> no_zero_row cache').
Proof.
  rewrite Delete_unfold.
  destruct (fault cache (call_Query delete_statement [VBytes id])) eqn:F;
    intros [= <- <-].
  { split; [reflexivity|]. split; [reflexivity|]. split; [reflexivity|].
    split; trivial. }
  split; [|split; [|split; [|split]]].
  - intros id' Hne. apply Get_same; [reflexivity|].
    cbn [with_rows overlay_cache_nodes].
    now rewrite find_node_deleted, (bytes_eqb_neq Hne).
  - intros []. reflexivity.
  - intros Hf. rewrite (@filter_absent _ _ Hf). apply with_rows_same.
  - intros [Hwf Hkeys]. split.
    + unfold wf_table in *. cbn [with_rows overlay_cache_nodes].
      apply Forall_forall. intros r Hr. apply filter_In in Hr as [Hr _].
      rewrite Forall_forall in Hwf. now apply Hwf.
    + cbn [with_rows overlay_cache_nodes]. now apply keys_filter.
  - unfold no_zero_row. cbn [with_rows overlay_cache_nodes]. intros Hnz.
    apply Forall_forall. intros r Hr. apply filter_In in Hr as [Hr _].
    rewrite Forall_forall in Hnz. now apply Hnz.
Qed.

Lemma Delete_frame_witness :
  Get (snd (Delete sample_store (sample_id x01))) (sample_id x02)
  = Get sample_store (sample_id x02) /\
  snd (Delete sample_store (sample_id x09)) = sample_store.
Proof.
  split.
  - apply (proj1 (@Delete_frame
                    sample_store (snd (Delete sample_store (sample_id x01)))
                    (sample_id x01) None eq_refl)).
    discriminate.
  - apply (proj1 (proj2 (proj2
             (@Delete_frame
                sample_store (snd (Delete sample_store (sample_id x09)))
                (sample_id x09) None eq_refl)))).
    reflexivity.
Defined.

(** X10.  [Delete] undoes a creation: when an identity has no record,
    a successful [Update] for it followed by a successful [Delete] of it
    gives back the store before the two calls. *)
Theorem Update_then_Delete (cache c1 c2 : DB) (info : Node.t) :
  find_node (Node.Id info) (overlay_cache_nodes cache) = None ->
  Update cache (Some info) = Returns (None, c1) ->
  Delete c1 (Node.Id info) = (None, c2) ->
  c2 = cache.
Proof.
  intros Hf H Hd. apply Update_effect in H.
  destruct H as [[_ []] | [(n & [= <-] & _ & _ & _ & ->)
                          | (n & r & s & [= <-] & _ & _ & Hf' & _)]];
    [reflexivity | | congruence].
  rewrite Delete_unfold in Hd. cbn [with_rows fault overlay_cache_nodes] in Hd.
  destruct (fault cache _); [discriminate|]. injection Hd as <-.
  unfold with_rows. cbn [fault]. rewrite filter_app. cbn [filter].
  change (OverlayCacheNode.NodeId (created_row info)) with (Node.Id info).
  rewrite bytes_eqb_refl. cbn [negb]. rewrite app_nil_r.
  transitivity (with_rows cache (overlay_cache_nodes cache));
    [|apply with_rows_same].
  unfold with_rows. f_equal. exact (@filter_absent _ _ Hf).
Qed.

Lemma Update_then_Delete_witness :
  snd (Delete (after_update sample_store (sample_node x09 1)) (sample_id x09))
  = sample_store.
Proof.
  exact (@Update_then_Delete
           sample_store (after_update sample_store (sample_node x09 1))
           (snd (Delete (after_update sample_store (sample_node x09 1))
                        (sample_id x09)))
           (sample_node x09 1) eq_refl eq_refl eq_refl).
Defined.

Lemma GetWalletAddress_unfold (cache : DB) (id : NodeID) :
  GetWalletAddress cache id
  = match wallet_fault cache id with
    | Some e => Returns ("", Some e)
    | None =>
        match find_node id (overlay_cache_nodes cache) with
        | Some r => Returns (OverlayCacheNode.OperatorWallet r, None)
        | None => Returns ("", Some ErrNoRows)
        end
    end.
Proof.
  unfold GetWalletAddress, Get_OverlayCacheNode_OperatorWallet_By_NodeId,
    wallet_fault, Bytes.
  destruct (fault cache _); [reflexivity|].
  now destruct (find_node id (overlay_cache_nodes cache)).
Qed.

(** X11.  [GetWalletAddress] agrees with [Get]: when [Get] returns a
    record and the wallet lookup is answered, [GetWalletAddress] returns
    the wallet of the metadata of that record, and the empty string when
    the record has no metadata. *)
Theorem GetWalletAddress_of_record (cache : DB) (id : NodeID) (n : Node.t) :
  Get cache id = (Some n, None) ->
  wallet_fault cache id = None ->
  GetWalletAddress cache id
  = Returns (match Node.Metadata n with
             | Some m => NodeMetadata.Wallet m
             | None => ""
             end, None).
Proof.
  intros Hget Hw. apply Get_ok_row in Hget as (r & _ & _ & Hf & _ & ->).
  rewrite GetWalletAddress_unfold, Hw, Hf. do 2 f_equal.
  rewrite node_of_row_groups. cbn [Node.Metadata]. unfold metadata_group.
  cbn [NodeMetadata.Email NodeMetadata.Wallet].
  destruct (String.eqb (OverlayCacheNode.OperatorEmail r) "");
    [|reflexivity].
  destruct (String.eqb (OverlayCacheNode.OperatorWallet r) "") eqn:E;
    [|reflexivity].
  now apply String.eqb_eq in E.
Qed.

Lemma GetWalletAddress_of_record_witness :
  GetWalletAddress sample_store (sample_id x01)
  = Returns ("0xwallet", None).
Proof.
  exact (@GetWalletAddress_of_record
           sample_store (sample_id x01) (sample_node x01 10)
           eq_refl eq_refl).
Defined.

(** X12.  [GetWalletAddress] never stops in a panic and returns the
    empty wallet with every error; on an identity without a record, the
    zero identity included, the error is the no-rows error of the store
    when the lookup is answered. *)
Theorem GetWalletAddress_errors (cache : DB) (id : NodeID) :
  GetWalletAddress cache id <> Panics /\
  (forall w e, GetWalletAddress cache id = Returns (w, Some e) -> w = "") /\
  (wallet_fault cache id = None ->
   find_node id (overlay_cache_nodes cache) = None ->
   GetWalletAddress cache id = Returns ("", Some ErrNoRows)).
Proof.
  rewrite GetWalletAddress_unfold.
  destruct (wallet_fault cache id);
    [repeat split; [discriminate | now intros w e0 [= <- _]
                    | discriminate]|].
  destruct (find_node id (overlay_cache_nodes cache)).
  - repeat split; discriminate.
  - repeat split; [discriminate | now intros w e0 [= <- _]].
Qed.

Lemma GetWalletAddress_errors_witness :
  GetWalletAddress sample_store storj.zero = Returns ("", Some ErrNoRows).
Proof.
  exact (proj2 (proj2 (GetWalletAddress_errors sample_store storj.zero))
           eq_refl eq_refl).
Defined.

(** X13.  After a successful [Update], [GetWalletAddress] on the
    identity returns the wallet of the metadata of the message, and when
    the message has no metadata the wallet it returned before the call
    (the empty string for a record just created). *)
Theorem Update_then_GetWalletAddress (cache cache' : DB) (info : Node.t) :
  wallet_fault cache (Node.Id info) = None ->
  Update cache (Some info) = Returns (None, cache') ->
  GetWalletAddress cache' (Node.Id info)
  = Returns (match Node.Metadata info with
             | Some m => NodeMetadata.Wallet m
             | None => wallet_of (GetWalletAddress cache (Node.Id info))
             end, None).
Proof.
  intros Hw H. apply Update_effect in H.
  rewrite (GetWalletAddress_unfold cache), Hw.
  destruct H as [[_ []] | [(n & [= <-] & _ & _ & Hf & ->)
                          | (n & r & s & [= <-] & _ & _ & Hf & _ & ->)]];
    [reflexivity| |]; rewrite GetWalletAddress_unfold;
    unfold wallet_fault in *; cbn [with_rows fault overlay_cache_nodes];
    rewrite Hw, Hf.
  - rewrite find_node_app, Hf.
    change (OverlayCacheNode.NodeId (created_row info)) with (Node.Id info).
    rewrite bytes_eqb_refl.
    destruct info as [id ty a [m|] rs rp]; reflexivity.
  - destruct (find_node_Some _ _ Hf) as [Hid _].
    rewrite find_node_update, Hf, Hid, bytes_eqb_refl.
    destruct info as [id ty a [m|] rs rp]; reflexivity.
Qed.

Lemma Update_then_GetWalletAddress_witness :
  GetWalletAddress (after_update sample_store floors_and_reputation)
                   (sample_id x01)
  = Returns ("0xwallet", None).
Proof.
  exact (@Update_then_GetWalletAddress
           sample_store (after_update sample_store floors_and_reputation)
           floors_and_reputation eq_refl eq_refl).
Defined.

(** ** The enumerators *)

Lemma In_insert_by_id (x r : row) (l : list row) :
  In x (insert_by_id r l) <-> x = r \/ In x l.
Proof.
  induction l as [|y l IH]; simpl.
  - intuition.
  - destruct (bytes_leb _ _); simpl; [intuition|].
    rewrite IH. intuition.
Qed.

Lemma In_listing (cache : DB) (cursor : NodeID) (x : row) :
  In x (listing cache cursor)
  <-> In x (overlay_cache_nodes cache) /\ at_or_after cursor x = true.
Proof.
  unfold listing. rewrite <- filter_In.
  induction (filter (at_or_after cursor) (overlay_cache_nodes cache))
    as [|y l IH]; simpl; [tauto|].
  rewrite In_insert_by_id, IH. intuition.
Qed.

Lemma listing_length (cache : DB) (cursor : NodeID) :
  length (listing cache cursor)
  = length (filter (at_or_after cursor) (overlay_cache_nodes cache)).
Proof. apply order_by_id_length. Qed.

Lemma listing_zero (cache : DB) :
  wf_table cache ->
  listing cache storj.zero = order_by_id (overlay_cache_nodes cache).
Proof.
  intros Hwf. unfold listing. f_equal. apply filter_all.
  eapply Forall_impl; [|exact Hwf]. intros r Hr.
  apply bytes_leb_zero. exact Hr.
Qed.

(** The conversion loop returns the records of all rows, or nothing with
    the first error. *)
Lemma convert_loop_cases (l : list row) :
  forall pre post res err,
    convert_loop l (length pre) (pre ++ repeat None (length l) ++ post)
    = (res, err) ->
    (err = None /\ res = pre ++ map record_of l ++ post)
    \/ (err <> None /\ res = []).
Proof.
  induction l as [|r l IH]; intros pre post res err; simpl.
  - intros [= <- <-]. now left.
  - destruct (convertOverlayNode_cases r) as [[e ->] | ->].
    + intros [= <- <-]. right. split; [discriminate | reflexivity].
    + rewrite slice_set_middle. intros H.
      specialize (IH (pre ++ [Some (node_of_row r)]) post res err).
      rewrite length_app, Nat.add_comm in IH. simpl in IH.
      rewrite <- !app_assoc in IH. exact (IH H).
Qed.

Lemma converted_cases (l : list row) (res : list (option Node.t))
      (err : option error) :
  convert_loop l 0 (repeat None (length l)) = (res, err) ->
  (err = None /\ res = map record_of l) \/ (err <> None /\ res = []).
Proof.
  intros H. pose proof (@convert_loop_cases l [] [] res err) as C.
  cbn [length app] in C. rewrite !app_nil_r in C. exact (C H).
Qed.

Lemma converted_wf (l : list row) :
  Forall wf_row l ->
  convert_loop l 0 (repeat None (length l)) = (map record_of l, None).
Proof.
  intros H. pose proof (convert_loop_wf H [] []) as E.
  cbn [length app] in E. rewrite !app_nil_r in E. exact E.
Qed.

(** [List] in terms of the listing of the cursor. *)
Lemma List_unfold (LookupLimit : Z) (cache : DB) (cursor : NodeID) (limit : Z) :
  List LookupLimit cache cursor limit
  = match fault cache (call_Limited (Bytes cursor)
                                    (clamp_limit LookupLimit limit) 0) with
    | Some e => ([], Some e)
    | None =>
        let rows := firstn (Z.to_nat (clamp_limit LookupLimit limit))
                           (listing cache cursor) in
        match convert_loop rows 0 (repeat None (length rows)) with
        | (_, Some e) => ([], Some e)
        | (infos, None) => (infos, None)
        end
    end.
Proof.
  unfold List, Limited_OverlayCacheNode_By_NodeId_GreaterOrEqual.
  destruct (fault cache _); [reflexivity|].
  cbn [Z.to_nat skipn]. fold (at_or_after cursor). fold (listing cache cursor).
  cbv zeta.
  now destruct (convert_loop _ _ _) as [infos [e|]].
Qed.

(** [Paginate] in terms of the listing of the zero cursor. *)
Lemma Paginate_unfold (LookupLimit : Z) (cache : DB) (offset limit : Z) :
  Paginate LookupLimit cache offset limit
  = match fault cache (call_Limited (Bytes storj.zero)
                                    (clamp_limit LookupLimit limit) offset) with
    | Some e => ([], false, Some e)
    | None =>
        let rows := firstn (Z.to_nat (clamp_limit LookupLimit limit))
                           (skipn (Z.to_nat offset)
                                  (listing cache storj.zero)) in
        match convert_loop rows 0 (repeat None (length rows)) with
        | (_, Some e) => ([], false, Some e)
        | (infos, None) =>
            (infos,
             negb (Z.of_nat (length rows) <? clamp_limit LookupLimit limit),
             None)
        end
    end.
Proof.
  unfold Paginate, Limited_OverlayCacheNode_By_NodeId_GreaterOrEqual.
  destruct (fault cache _); [reflexivity|].
  fold (at_or_after storj.zero). fold (listing cache storj.zero).
  cbv zeta.
  destruct (convert_loop _ _ _) as [infos [e|]]; [reflexivity|].
  now destruct (_ <? _).
Qed.

(** X14.  [List] returns an error with no list; a list it returns holds
    at most as many entries as the limit the query ran with, and every
    entry is the record of a stored row whose identity is at or after the
    cursor. *)
Theorem List_sound (LookupLimit : Z) (cache : DB) (cursor : NodeID)
        (limit : Z) (infos : list (option Node.t)) (err : option error) :
  1 <= LookupLimit ->
  List LookupLimit cache cursor limit = (infos, err) ->
  (err <> None -> infos = []) /\
  Z.of_nat (length infos) <= clamp_limit LookupLimit limit /\
  (forall o, In o infos ->
     exists r, o = record_of r /\
               In r (overlay_cache_nodes cache) /\
               at_or_after cursor r = true).
Proof.
  intros HL. pose proof (clamp_limit_range limit HL) as Hc.
  rewrite List_unfold.
  destruct (fault cache _) as [e|].
  { intros [= <- <-]. split; [reflexivity|]. split; [simpl; lia|].
    intros o []. }
  cbv zeta. set (rows := firstn _ _).
  destruct (convert_loop rows 0 (repeat None (length rows)))
    as [res [e|]] eqn:E.
  { intros [= <- <-]. split; [reflexivity|]. split; [simpl; lia|].
    intros o []. }
  intros [= <- <-].
  apply converted_cases in E as [[_ ->] | [[] _]]; [|reflexivity].
  split; [intros []; reflexivity|]. split.
  - rewrite length_map.
    pose proof (firstn_le_length (Z.to_nat (clamp_limit LookupLimit limit))
                                 (listing cache cursor)).
    fold rows in H. lia.
  - intros o Ho. apply in_map_iff in Ho as (r & <- & Hr).
    exists r. split; [reflexivity|]. apply In_listing.
    unfold rows in Hr.
    rewrite <- (firstn_skipn (Z.to_nat (clamp_limit LookupLimit limit))
                             (listing cache cursor)).
    apply in_or_app. now left.
Qed.

Lemma List_sound_witness :
  Z.of_nat (length (fst (List 1000 sample_store (sample_id x03) 2))) <= 2.
Proof.
  assert (HL : 1 <= 1000) by lia.
  exact (proj1 (proj2 (@List_sound 1000 sample_store (sample_id x03) 2 _ _ HL
                         (surjective_pairing _)))).
Defined.

(** X15.  On a store that answers the listing queries and whose rows are
    well formed, when the limit the query runs with covers the rows at or
    after the cursor, [List] returns the record of every one of them, and
    no error. *)
Theorem List_complete (LookupLimit : Z) (cache : DB) (cursor : NodeID)
        (limit : Z) :
  listings_answered cache ->
  wf_table cache ->
  Z.of_nat (length (filter (at_or_after cursor) (overlay_cache_nodes cache)))
  <= clamp_limit LookupLimit limit ->
  snd (List LookupLimit cache cursor limit) = None /\
  length (fst (List LookupLimit cache cursor limit))
  = length (filter (at_or_after cursor) (overlay_cache_nodes cache)) /\
  (forall r, In r (overlay_cache_nodes cache) ->
             at_or_after cursor r = true ->
             In (record_of r) (fst (List LookupLimit cache cursor limit))).
Proof.
  intros Hq Hwf Hlen. rewrite List_unfold, Hq. cbv zeta.
  rewrite <- listing_length in *.
  rewrite firstn_all2 by lia.
  assert (Hrows : Forall wf_row (listing cache cursor)).
  { apply Forall_forall. intros r Hr. apply In_listing in Hr as [Hr _].
    unfold wf_table in Hwf. rewrite Forall_forall in Hwf. now apply Hwf. }
  rewrite (converted_wf Hrows). cbn [fst snd].
  split; [reflexivity|]. split; [apply length_map|].
  intros r Hr Hc. apply in_map. apply In_listing. now split.
Qed.

Lemma sample_store_lists : listings_answered sample_store.
Proof. intros c l o. reflexivity. Qed.

Lemma List_complete_witness :
  In (record_of (created_row (sample_node x04 0)))
     (fst (List 1000 sample_store (sample_id x03) 10)).
Proof.
  assert (Hlen : Z.of_nat (length (filter (at_or_after (sample_id x03))
                                          (overlay_cache_nodes sample_store)))
                 <= clamp_limit 1000 10)
    by (vm_compute; discriminate).
  apply (proj2 (proj2 (@List_complete 1000 sample_store (sample_id x03) 10
                         sample_store_lists sample_store_wf Hlen))).
  - vm_compute. auto 10.
  - reflexivity.
Defined.

(** X16.  [List] from the zero identity is the first page of [Paginate]:
    the same entries and the same error. *)
Theorem List_first_page (LookupLimit : Z) (cache : DB) (limit : Z) :
  List LookupLimit cache storj.zero limit
  = (page LookupLimit cache 0 limit,
     snd (Paginate LookupLimit cache 0 limit)).
Proof.
  unfold page. rewrite List_unfold, Paginate_unfold.
  destruct (fault cache _); [reflexivity|].
  cbv zeta. cbn [Z.to_nat skipn].
  now destruct (convert_loop _ _ _) as [infos [e|]].
Qed.

(** X17.  [Paginate] returns an error with an empty page and the flag
    false; a page holds at most as many entries as the limit the query
    ran with, and every entry is the record of a stored row. *)
Theorem Paginate_sound (LookupLimit : Z) (cache : DB) (offset limit : Z) :
  1 <= LookupLimit ->
  (snd (Paginate LookupLimit cache offset limit) <> None ->
   page LookupLimit cache offset limit = [] /\
   moreAvailable LookupLimit cache offset limit = false) /\
  Z.of_nat (page_size LookupLimit cache offset limit)
  <= clamp_limit LookupLimit limit /\
  (forall o, In o (page LookupLimit cache offset limit) ->
     exists r, o = record_of r /\ In r (overlay_cache_nodes cache)).
Proof.
  intros HL. pose proof (clamp_limit_range limit HL) as Hc.
  unfold page_size, page, moreAvailable. rewrite Paginate_unfold.
  destruct (fault cache _) as [e|].
  { cbn [fst snd length]. split; [auto|]. split; [lia|]. intros o []. }
  cbv zeta. set (rows := firstn _ _).
  destruct (convert_loop rows 0 (repeat None (length rows)))
    as [res [e|]] eqn:E.
  { cbn [fst snd length]. split; [auto|]. split; [lia|]. intros o []. }
  apply converted_cases in E as [[_ ->] | [[] _]]; [|reflexivity].
  cbn [fst snd]. split; [intros []; reflexivity|]. split.
  - rewrite length_map.
    pose proof (firstn_le_length
                  (Z.to_nat (clamp_limit LookupLimit limit))
                  (skipn (Z.to_nat offset) (listing cache storj.zero))).
    fold rows in H. lia.
  - intros o Ho. apply in_map_iff in Ho as (r & <- & Hr).
    exists r. split; [reflexivity|].
    assert (Hin : In r (listing cache storj.zero)).
    { unfold rows in Hr.
      rewrite <- (firstn_skipn (Z.to_nat offset) (listing cache storj.zero)).
      apply in_or_app. right.
      rewrite <- (firstn_skipn (Z.to_nat (clamp_limit LookupLimit limit))
                    (skipn (Z.to_nat offset) (listing cache storj.zero))).
      apply in_or_app. now left. }
    now apply In_listing in Hin.
Qed.

Lemma Paginate_sound_witness :
  Z.of_nat (page_size 1000 sample_store 1 3) <= 3.
Proof.
  assert (HL : 1 <= 1000) by lia.
  exact (proj1 (proj2 (@Paginate_sound 1000 sample_store 1 3 HL))).
Defined.

(** The page of a store that answers, with well-formed rows. *)
Lemma Paginate_healthy (LookupLimit : Z) (cache : DB) (offset limit : Z) :
  listings_answered cache ->
  wf_table cache ->
  Paginate LookupLimit cache offset limit
  = (map record_of
         (firstn (Z.to_nat (clamp_limit LookupLimit limit))
                 (skipn (Z.to_nat offset)
                        (order_by_id (overlay_cache_nodes cache)))),
     negb (Z.of_nat
             (length
                (firstn (Z.to_nat (clamp_limit LookupLimit limit))
                        (skipn (Z.to_nat offset)
                               (order_by_id (overlay_cache_nodes cache)))))
           <? clamp_limit LookupLimit limit),
     None).
Proof.
  intros Hq Hwf. rewrite Paginate_unfold, Hq. cbv zeta.
  rewrite (listing_zero Hwf).
  rewrite converted_wf; [reflexivity|].
  apply Forall_firstn, Forall_skipn, Forall_order_by_id, Hwf.
Qed.

(** X18.  On a store that answers, with well-formed rows, [Paginate]
    says that more is available exactly when at least as many rows as the
    limit the query ran with lie at or after the offset: also when the
    page ends with the last row of the table. *)
Theorem Paginate_flag (LookupLimit : Z) (cache : DB) (offset limit : Z) :
  1 <= LookupLimit ->
  0 <= offset ->
  listings_answered cache ->
  wf_table cache ->
  moreAvailable LookupLimit cache offset limit = true
  <-> offset + clamp_limit LookupLimit limit
      <= Z.of_nat (length (overlay_cache_nodes cache)).
Proof.
  intros HL Ho Hq Hwf. pose proof (clamp_limit_range limit HL) as Hc.
  unfold moreAvailable. rewrite (Paginate_healthy _ _ _ Hq Hwf).
  cbn [fst snd].
  rewrite length_firstn, length_skipn, order_by_id_length.
  rewrite negb_true_iff, Z.ltb_ge. lia.
Qed.

Lemma Paginate_flag_witness :
  moreAvailable 1000 sample_store 3 2 = true.
Proof.
  assert (HL : 1 <= 1000) by lia.
  assert (Ho : 0 <= 3) by lia.
  apply (proj2 (@Paginate_flag 1000 sample_store 3 2 HL Ho
                  sample_store_lists sample_store_wf)).
  vm_compute. discriminate.
Defined.

(** The first [a + b] rows are the first [a] and the first [b] of the
    rest. *)
Lemma page_rows_join (a b : nat) (rows : list row) :
  firstn (a + b) rows = firstn a rows ++ firstn b (skipn a rows).
Proof.
  revert rows. induction a as [|a IH]; intros [|r rows]; simpl;
    try reflexivity.
  - now rewrite firstn_nil.
  - now rewrite IH.
Qed.

(** X19.  On a store that answers, with well-formed rows, consecutive
    pages join: the page of [a] records at an offset followed by the page
    of [b] records after it is the page of [a + b] records at the
    offset, as long as the lookup limit admits [a + b]. *)
Theorem Paginate_consecutive (LookupLimit : Z) (cache : DB)
        (offset a b : Z) :
  listings_answered cache ->
  wf_table cache ->
  0 <= offset -> 0 < a -> 0 < b -> a + b <= LookupLimit ->
  page LookupLimit cache offset a ++ page LookupLimit cache (offset + a) b
  = page LookupLimit cache offset (a + b).
Proof.
  intros Hq Hwf Ho Ha Hb HL. unfold page.
  rewrite !(Paginate_healthy _ _ _ Hq Hwf). cbn [fst].
  rewrite !clamp_limit_id by lia.
  rewrite <- map_app. f_equal.
  rewrite !Z2Nat.inj_add by lia.
  rewrite (Nat.add_comm (Z.to_nat offset)), <- skipn_skipn.
  symmetry. apply page_rows_join.
Qed.

Lemma Paginate_consecutive_witness :
  page 1000 sample_store 1 2 ++ page 1000 sample_store 3 1
  = page 1000 sample_store 1 3.
Proof.
  apply (@Paginate_consecutive 1000 sample_store 1 2 1
           sample_store_lists sample_store_wf); lia.
Defined.

(** ** The selector, further *)

(** X20.  [sliceOfCopies] returns a slice of [count] entries, every one
    of them [val]. *)
Theorem sliceOfCopies_copies (val : string) (count : nat) :
  length (sliceOfCopies val count) = count /\
  Forall (fun s => s = val) (sliceOfCopies val count).
Proof.
  rewrite sliceOfCopies_repeat. split; [apply repeat_length|].
  apply Forall_forall. intros s Hs. exact (repeat_spec _ _ _ Hs).
Qed.

Lemma sqlRowsToNodes_loop_entries (rows : Rows) :
  forall acc nodes err,
    sqlRowsToNodes_loop rows acc = (nodes, err) ->
    (err <> None /\ nodes = [])
    \/ (err = None /\
        exists entries, nodes = acc ++ entries /\
                        Forall2 scans_to rows entries).
Proof.
  induction rows as [|r rows IH]; intros acc nodes err;
    cbn [sqlRowsToNodes_loop].
  - intros [= <- <-]. right. split; [reflexivity|]. exists [].
    split; [now rewrite app_nil_r | constructor].
  - destruct (Scan r) as [overlayNode [e|]] eqn:Es.
    { intros [= <- <-]. left. split; [discriminate | reflexivity]. }
    destruct (convertOverlayNode_cases overlayNode) as [[e ->] | ->].
    { intros [= <- <-]. left. split; [discriminate | reflexivity]. }
    intros H. apply IH in H as [H | (-> & entries & -> & Hall)];
      [now left|].
    right. split; [reflexivity|].
    exists (record_of overlayNode :: entries). split.
    + now rewrite <- app_assoc.
    + constructor; [|exact Hall]. exists overlayNode. now split.
Qed.

(** X21.  [sqlRowsToNodes] converts all rows of a result set or none: it
    returns an error with no list, or no error and one entry per row, in
    the order of the rows, each the record of the scanned row and none of
    them nil. *)
Theorem sqlRowsToNodes_all_or_nothing (rows : Rows)
        (nodes : list (option Node.t)) (err : option error) :
  sqlRowsToNodes rows = (nodes, err) ->
  (err <> None /\ nodes = [])
  \/ (err = None /\ Forall2 scans_to rows nodes /\ ~ In None nodes).
Proof.
  unfold sqlRowsToNodes. intros H.
  apply sqlRowsToNodes_loop_entries in H
    as [H | (-> & entries & -> & Hall)]; [now left|].
  right. split; [reflexivity|]. cbn [app]. split; [exact Hall|].
  clear -Hall. induction Hall as [|r o rows entries (x & _ & ->) _ IH].
  - intros [].
  - intros [Hx | Hin]; [discriminate | now apply IH].
Qed.

Lemma sqlRowsToNodes_all_or_nothing_witness :
  Forall2 scans_to
          (result_set [created_row (sample_node x01 10)])
          [selected_node (created_row (sample_node x01 10))].
Proof.
  destruct (@sqlRowsToNodes_all_or_nothing
              (result_set [created_row (sample_node x01 10)])
              [selected_node (created_row (sample_node x01 10))] None eq_refl)
    as [[H _] | (_ & H & _)]; [now destruct H | exact H].
Defined.

(** X22.  [FilterNodes] stops in a panic exactly on a nil request, nil
    options, nil restrictions or a nil minimum reputation, whatever the
    store holds or answers. *)
Theorem FilterNodes_panics (cache : DB) (req : option FilterNodesRequest.t) :
  FilterNodes cache req = Panics <-> nil_request req.
Proof.
  destruct req as [req|]; [|split; [intros _; exact I | reflexivity]].
  cbn [nil_request].
  destruct (FilterNodesRequest.Opts req) as [opts|] eqn:Hopts.
  2:{ unfold FilterNodes, GetRestrictions. rewrite Hopts.
      split; [now left | reflexivity]. }
  destruct (OverlayOptions.Restrictions opts) as [restrictions|] eqn:Hrestr.
  2:{ unfold FilterNodes, GetRestrictions. rewrite Hopts, Hrestr.
      split; [now left | reflexivity]. }
  rewrite (FilterNodes_tiers cache req Hopts Hrestr).
  unfold GetRestrictions. rewrite Hrestr.
  destruct (FilterNodesRequest.MinReputation req) as [floor|] eqn:Hfloor.
  - split; [|intros [H | H]; discriminate].
    destruct (getReputableNodes_cases cache
                (reputableReq req opts restrictions) Hfloor) as [E | [e E]];
      rewrite E; [|discriminate].
    destruct (getNewNodes_cases cache (newReq req opts restrictions))
      as [E' | [e E']]; rewrite E'; discriminate.
  - split; [now right|]. intros _.
    unfold getReputableNodes, findReputableNodesQuery.
    cbn [minReputation reputableReq]. now rewrite Hfloor.
Qed.

(** X23.  Every entry of a list [FilterNodes] returns, of the proven tier
    or new, is the record of a stored row of that identity: a storage
    node whose free bandwidth and free disk are at least the floors of
    the request. *)
Theorem FilterNodes_from_store (cache : DB) (req : FilterNodesRequest.t)
        (nodes : list (option Node.t)) (err : option error) :
  FilterNodes cache (Some req) = Returns (nodes, err) ->
  forall o, In o nodes ->
    exists r n,
      In r (overlay_cache_nodes cache) /\
      o = Some n /\
      Node.Id n = OverlayCacheNode.NodeId r /\
      Node.Type_ n = NodeType_STORAGE /\
      GetFreeBandwidth (GetRestrictions (FilterNodesRequest.Opts req))
      <= GetFreeBandwidth (Node.Restrictions n) /\
      GetFreeDisk (GetRestrictions (FilterNodesRequest.Opts req))
      <= GetFreeDisk (Node.Restrictions n).
Proof.
  intros H o Ho.
  destruct (@FilterNodes_returns _ _ _ _ H)
    as (opts & restrictions & floor & Hopts & Hrestr & Hfloor & Hcases).
  destruct Hcases as [[-> _] | (_ & -> & _)]; [destruct Ho|].
  unfold GetRestrictions. rewrite Hopts, Hrestr.
  cbn [GetFreeBandwidth GetFreeDisk].
  assert (Hrow : exists r,
             In r (overlay_cache_nodes cache) /\ o = selected_node r /\
             NodeRestrictions.FreeBandwidth restrictions
             <= OverlayCacheNode.FreeBandwidth r /\
             NodeRestrictions.FreeDisk restrictions
             <= OverlayCacheNode.FreeDisk r /\
             OverlayCacheNode.NodeType r = NodeType_STORAGE).
  { apply in_app_or in Ho as [Ho | Ho];
      apply in_map_iff in Ho as (r & <- & Hr); exists r.
    - apply In_proven_rows in Hr as (Hin & _ & Hm).
      unfold meets_floors in Hm. rewrite !andb_true_iff in Hm.
      destruct Hm as [[[_ Hb] Hd] Ht].
      cbn [freeBandwidth freeDisk reputableReq] in *.
      apply Z.leb_le in Hb, Hd. apply Z.eqb_eq in Ht. auto.
    - apply In_new_rows in Hr as (Hin & _ & Hm).
      unfold below_threshold in Hm. rewrite !andb_true_iff in Hm.
      destruct Hm as [[[_ Hb] Hd] Ht].
      cbn [freeBandwidth freeDisk newReq] in *.
      apply Z.leb_le in Hb, Hd. apply Z.eqb_eq in Ht. auto. }
  destruct Hrow as (r & Hin & -> & Hb & Hd & Ht).
  destruct (selected_node_fields r)
    as (n & s & Hn & Hid & Hty & _ & _ & _ & _ & _ & Hfb & Hfd).
  exists r, n. split; [exact Hin|]. split; [exact Hn|].
  split; [exact Hid|]. split; [now rewrite Hty, Ht|].
  split; [now apply Hfb | now apply Hfd].
Qed.

Lemma FilterNodes_from_store_witness :
  exists r n,
    In r (overlay_cache_nodes sample_store) /\
    selected_node (created_row (sample_node x03 0)) = Some n /\
    Node.Id n = OverlayCacheNode.NodeId r /\
    Node.Type_ n = NodeType_STORAGE /\
    1 <= GetFreeBandwidth (Node.Restrictions n) /\
    1 <= GetFreeDisk (Node.Restrictions n).
Proof.
  apply (@FilterNodes_from_store
           sample_store (sample_request [sample_id x01])
           (sample_proven ++ sample_new) _ sample_selection).
  apply in_or_app. right. now left.
Defined.

(** X24.  The records [FilterNodes] returns are partial: the queries
    select neither the operator columns nor the latency nor the
    transport, so every record comes without operator metadata, with a
    reputation of latency zero, and with transport zero in its address,
    whatever the store holds for them. *)
Theorem FilterNodes_partial_records (cache : DB) (req : FilterNodesRequest.t)
        (nodes : list (option Node.t)) (err : option error) :
  FilterNodes cache (Some req) = Returns (nodes, err) ->
  forall n, In (Some n) nodes ->
    Node.Metadata n = None /\
    (exists s, Node.Reputation n = Some s /\ NodeStats.Latency_90 s = 0) /\
    (forall a, Node.Address n = Some a -> NodeAddress.Transport a = 0).
Proof.
  intros H n Hn.
  destruct (@FilterNodes_returns _ _ _ _ H)
    as (opts & restrictions & floor & _ & _ & _ & Hcases).
  destruct Hcases as [[-> _] | (_ & -> & _)]; [destruct Hn|].
  rewrite <- map_app in Hn. apply in_map_iff in Hn as (r & Hr & _).
  unfold selected_node in Hr. injection Hr as <-.
  unfold node_of_row, scanned. cbn.
  split; [reflexivity|]. split; [eauto|].
  intros a. destruct (String.eqb (OverlayCacheNode.Address r) "");
    [discriminate|].
  now intros [= <-].
Qed.

Lemma FilterNodes_partial_records_witness :
  Node.Metadata (node_of_row (scanned (created_row (sample_node x05 10))))
  = None /\
  (exists s,
     Node.Reputation (node_of_row (scanned (created_row (sample_node x05 10))))
     = Some s /\ NodeStats.Latency_90 s = 0) /\
  (forall a,
     Node.Address (node_of_row (scanned (created_row (sample_node x05 10))))
     = Some a -> NodeAddress.Transport a = 0).
Proof.
  apply (@FilterNodes_partial_records
           sample_store (sample_request [sample_id x01])
           (sample_proven ++ sample_new) _ sample_selection).
  now left.
Defined.

(** X25.  On a healthy store with well-formed rows, when at least as many
    rows qualify for the proven tier as the proven target asks for,
    [FilterNodes] returns no error: the first qualifying rows up to the
    target, followed by the new nodes. *)
Theorem FilterNodes_enough (cache : DB) (req : FilterNodesRequest.t)
        (opts : OverlayOptions.t) (restrictions : NodeRestrictions.t)
        (floor : NodeStats.t) :
  FilterNodesRequest.Opts req = Some opts ->
  OverlayOptions.Restrictions opts = Some restrictions ->
  FilterNodesRequest.MinReputation req = Some floor ->
  queries_answered cache ->
  wf_table cache ->
  provenTarget req
  <= Z.of_nat (length (qualifying cache req opts restrictions floor)) ->
  FilterNodes cache (Some req)
  = Returns
      (map selected_node
           (LIMIT (provenTarget req)
                  (qualifying cache req opts restrictions floor))
       ++ map selected_node (new_rows cache (newReq req opts restrictions)),
       None) /\
  (0 <= provenTarget req ->
   Z.of_nat (length (LIMIT (provenTarget req)
                           (qualifying cache req opts restrictions floor)))
   = provenTarget req).
Proof.
  intros Hopts Hrestr Hfloor Hq Hwf Hlen.
  assert (Hn : (Z.of_nat (length (LIMIT (provenTarget req)
                            (qualifying cache req opts restrictions floor)))
                <? provenTarget req) = false).
  { apply Z.ltb_ge. unfold LIMIT.
    destruct (provenTarget req <? 0) eqn:E; [exact Hlen|].
    rewrite length_firstn. apply Z.ltb_ge in E. lia. }
  split.
  - rewrite (FilterNodes_tiers cache req Hopts Hrestr).
    rewrite (@getReputableNodes_healthy
               cache (reputableReq req opts restrictions) floor Hfloor Hq Hwf).
    rewrite (@getNewNodes_healthy
               cache (newReq req opts restrictions) Hq Hwf).
    unfold proven_rows. cbn [reputableNodeAmount reputableReq].
    fold (qualifying cache req opts restrictions floor).
    rewrite length_map, Hn. reflexivity.
  - intros Hpos. unfold LIMIT.
    destruct (provenTarget req <? 0) eqn:E; [apply Z.ltb_lt in E; lia|].
    rewrite length_firstn. lia.
Qed.

Lemma FilterNodes_enough_witness :
  FilterNodes sample_store (Some (sample_request []))
  = Returns
      (map selected_node
           (LIMIT 3 (qualifying sample_store (sample_request [])
                       (OverlayOptions.mk 0 (Some (NodeRestrictions.mk 1 1)) [])
                       (NodeRestrictions.mk 1 1) sample_floor))
       ++ map selected_node
              (new_rows sample_store
                 (newReq (sample_request [])
                    (OverlayOptions.mk 0 (Some (NodeRestrictions.mk 1 1)) [])
                    (NodeRestrictions.mk 1 1))),
       None).
Proof.
  assert (Hlen : provenTarget (sample_request [])
                 <= Z.of_nat
                      (length
                         (qualifying sample_store (sample_request [])
                            (OverlayOptions.mk 0
                               (Some (NodeRestrictions.mk 1 1)) [])
                            (NodeRestrictions.mk 1 1) sample_floor)))
    by (vm_compute; discriminate).
  exact (proj1 (@FilterNodes_enough
                  sample_store (sample_request []) _ _ _
                  eq_refl eq_refl eq_refl
                  sample_store_answers sample_store_wf Hlen)).
Defined.

(** ** Lookups after a deletion, panics of [Update], the queries, and the
    normal form of the records *)

Lemma GetAll_slots (cache : DB) (ids : list NodeID) :
  fst (GetAll cache ids) = map (slot cache) ids.
Proof.
  unfold GetAll. cbn [fst].
  pose proof (GetAll_loop_spec cache ids [] []) as H. cbn [length app] in H.
  now rewrite !app_nil_r in H.
Qed.

(** X26.  After a successful [Delete], [GetAll] leaves a hole at every
    position of the deleted identity and returns at the other positions
    what it returned before. *)
Theorem GetAll_after_Delete (cache cache' : DB) (id : NodeID)
        (ids : list NodeID) :
  Delete cache id = (None, cache') ->
  fst (GetAll cache' ids)
  = map (fun i => if bytes_eqb i id then None else slot cache i) ids.
Proof.
  intros Hd. rewrite GetAll_slots. apply map_ext. intros i.
  rewrite Delete_unfold in Hd.
  destruct (fault cache _); [discriminate|]. injection Hd as <-.
  unfold slot, Get, Get_OverlayCacheNode_By_NodeId, get_by_node_id, Bytes.
  cbn [with_rows fault overlay_cache_nodes].
  rewrite find_node_deleted.
  destruct (bytes_eqb i id); [|reflexivity].
  destruct (IsZero i); [reflexivity|].
  now destruct (fault cache (call_Get i)) as [[]|].
Qed.

Lemma GetAll_after_Delete_witness :
  fst (GetAll (snd (Delete sample_store (sample_id x03)))
              [sample_id x03; sample_id x01])
  = [None; slot sample_store (sample_id x01)].
Proof.
  exact (@GetAll_after_Delete
           sample_store (snd (Delete sample_store (sample_id x03)))
           (sample_id x03) [sample_id x03; sample_id x01] eq_refl).
Defined.

(** X27.  [Update] stops in a panic exactly when the message has a
    non-zero identity and no reputation and the lookup inside the
    transaction finds a row of the identity: the fields of the update
    read the reputation of the message itself. *)
Theorem Update_panics (cache : DB) (info : option Node.t) :
  Update cache info = Panics
  <-> exists n, info = Some n /\
                IsZero (Node.Id n) = false /\
                Node.Reputation n = None /\
                lookup_finds cache (Node.Id n).
Proof.
  split.
  - destruct info as [n|]; [|discriminate].
    unfold Update, Open, Tx_Get_OverlayCacheNode_By_NodeId, get_by_node_id.
    destruct (IsZero (Node.Id n)) eqn:Hz; [discriminate|].
    destruct (fault cache call_Open) eqn:Ho; [discriminate|].
    cbn [tx_db tx_nodes].
    destruct (fault cache (call_Get (Bytes (Node.Id n)))) eqn:Hg.
    { unfold Tx_Create_OverlayCacheNode. cbn [tx_db tx_nodes OverlayCacheNode.NodeId].
      destruct (fault cache (call_Create _)); [discriminate|].
      destruct (find_node _ _); [discriminate|].
      unfold Tx_Commit. cbn [tx_db tx_nodes].
      destruct (fault cache call_Commit); discriminate. }
    destruct (find_node (Bytes (Node.Id n)) (overlay_cache_nodes cache))
      as [r|] eqn:Hf.
    + destruct (Node.Reputation n) as [s|] eqn:Hs.
      * unfold Tx_Update_OverlayCacheNode_By_NodeId. cbn [tx_db tx_nodes].
        destruct (fault cache (call_Update _)); [discriminate|].
        rewrite Hf. unfold Tx_Commit. cbn [tx_db tx_nodes].
        destruct (fault cache call_Commit); discriminate.
      * intros _. exists n. split; [reflexivity|]. split; [exact Hz|].
        split; [exact Hs|]. unfold lookup_finds. rewrite Hf.
        split; [exact Ho|]. split; [exact Hg|]. discriminate.
    + unfold Tx_Create_OverlayCacheNode. cbn [tx_db tx_nodes OverlayCacheNode.NodeId].
      destruct (fault cache (call_Create _)); [discriminate|].
      rewrite Hf. unfold Tx_Commit. cbn [tx_db tx_nodes].
      destruct (fault cache call_Commit); discriminate.
  - intros (n & -> & Hz & Hs & Ho & Hg & Hf).
    destruct (find_node (Bytes (Node.Id n)) (overlay_cache_nodes cache))
      as [r|] eqn:E; [|contradiction].
    exact (@Update_existing_without_reputation cache n r Hz Ho Hg E Hs).
Qed.

Lemma result_set_scans (rs : list row) :
  Forall (fun r => snd (Scan r) = None) (result_set rs).
Proof.
  apply Forall_forall. intros x Hx. apply in_map_iff in Hx as (r & <- & _).
  now rewrite Scan_selected.
Qed.

(** X28.  On a store that answers, the two queries of the selector bind
    their arguments for every exclusion list and return a result set:
    rows of the eleven columns [Scan] reads, of stored rows that are not
    excluded, at most as many as the amount asked for when that is not
    negative. *)
Theorem find_queries_results (cache : DB) (g : getNodesRequest)
        (floor : NodeStats.t) :
  queries_answered cache ->
  minReputation g = Some floor ->
  exists proven new,
    findReputableNodesQuery cache g = Returns (Some (result_set proven), None) /\
    findNewNodesQuery cache g = (Some (result_set new), None) /\
    Forall (fun r => snd (Scan r) = None)
           (result_set proven ++ result_set new) /\
    (forall r, In r (proven ++ new) ->
               In r (overlay_cache_nodes cache) /\
               ~ In (OverlayCacheNode.NodeId r) (excluded g)) /\
    (0 <= reputableNodeAmount g ->
     Z.of_nat (length (result_set proven)) <= reputableNodeAmount g) /\
    (0 <= newNodeAmount g ->
     Z.of_nat (length (result_set new)) <= newNodeAmount g).
Proof.
  intros Hq Hfloor.
  exists (proven_rows cache g floor), (new_rows cache g).
  split; [|split; [|split; [|split; [|split]]]].
  - unfold findReputableNodesQuery, Query.
    rewrite Hfloor, Hq, reputable_query_rows. reflexivity.
  - unfold findNewNodesQuery, Query.
    rewrite Hq, new_query_rows. reflexivity.
  - apply Forall_app. split; apply result_set_scans.
  - intros r Hr. apply in_app_or in Hr as [Hr | Hr].
    + apply In_proven_rows in Hr as (Hin & Hx & _).
      split; [exact Hin | now apply not_excluded_In].
    + apply In_new_rows in Hr as (Hin & Hx & _).
      split; [exact Hin | now apply not_excluded_In].
  - intros Hn. unfold result_set. rewrite length_map.
    now apply LIMIT_length.
  - intros Hn. unfold result_set. rewrite length_map.
    now apply LIMIT_length.
Qed.

Lemma find_queries_results_witness :
  exists proven new,
    findReputableNodesQuery
      sample_store
      (reputableReq (sample_request [sample_id x01])
         (OverlayOptions.mk 0 (Some (NodeRestrictions.mk 1 1)) [sample_id x01])
         (NodeRestrictions.mk 1 1))
    = Returns (Some (result_set proven), None) /\
    Z.of_nat (length (result_set proven)) <= 3 /\
    Z.of_nat (length (result_set new)) <= 0.
Proof.
  destruct (@find_queries_results
              sample_store
              (reputableReq (sample_request [sample_id x01])
                 (OverlayOptions.mk 0 (Some (NodeRestrictions.mk 1 1))
                                    [sample_id x01])
                 (NodeRestrictions.mk 1 1))
              sample_floor sample_store_answers eq_refl)
    as (proven & new & Hp & _ & _ & _ & Hlp & Hln).
  exists proven, new. split; [exact Hp|]. split.
  - apply Hlp. vm_compute. discriminate.
  - apply Hln. vm_compute. discriminate.
Defined.

Lemma int32_range (z : Z) : in_int32 (int32 z).
Proof.
  unfold in_int32, int32, wrap. change (32 - 1) with 31.
  assert (H32 : 2 ^ 32 = 2 * 2 ^ 31) by reflexivity.
  pose proof (Z.mod_pos_bound (z + 2 ^ 31) (2 ^ 32)) as H.
  assert (Hp : 0 < 2 ^ 31) by reflexivity.
  lia.
Qed.

Lemma node_of_row_normalised (r : row) : wf_row r -> normalised (node_of_row r).
Proof.
  intros Hwf. unfold normalised, node_of_row.
  cbn [Node.Id Node.Type_ Node.Address Node.Metadata Node.Restrictions
       Node.Reputation].
  split; [exact Hwf|]. split; [apply int32_range|].
  split; [|split; [|split]].
  - intros a. destruct (String.eqb (OverlayCacheNode.Address r) "") eqn:E;
      [discriminate|].
    intros [= <-]. cbn. split; [|apply int32_range].
    intros H. apply String.eqb_neq in E. contradiction.
  - intros m.
    destruct (String.eqb (OverlayCacheNode.OperatorEmail r) "") eqn:E1;
      destruct (String.eqb (OverlayCacheNode.OperatorWallet r) "") eqn:E2;
      cbn [andb]; try discriminate; intros [= <-]; cbn;
      try (apply String.eqb_neq in E1); try (apply String.eqb_neq in E2);
      tauto.
  - intros x.
    destruct (OverlayCacheNode.FreeBandwidth r <? 0) eqn:E1;
      destruct (OverlayCacheNode.FreeDisk r <? 0) eqn:E2;
      cbn [andb]; try discriminate; intros [= <-]; cbn; lia.
  - intros s. destruct (OverlayCacheNode.Latency90 r <? 0) eqn:E;
      [discriminate|].
    intros [= <-]. cbn. split; [lia | reflexivity].
Qed.

(** X29.  [convertOverlayNode] returns an error and no record, or a
    record in normal form: an identity of 32 bytes, a type and a
    transport of 32 bits, no sub-group in its sentinel state and the
    reputation under the identity of the record; so is every record
    [Get] returns. *)
Theorem convertOverlayNode_normalised (info : option row) :
  ((exists e, convertOverlayNode info = (None, Some e)) \/
   (exists n, convertOverlayNode info = (Some n, None) /\ normalised n)) /\
  (forall cache id n, Get cache id = (Some n, None) -> normalised n).
Proof.
  split.
  - destruct info as [r|]; [|left; eexists; reflexivity].
    unfold convertOverlayNode, NodeIDFromBytes.
    destruct (Nat.eqb (length (OverlayCacheNode.NodeId r)) NodeID_size)
      eqn:E; [|left; eexists; reflexivity].
    right. exists (node_of_row r). split; [reflexivity|].
    apply node_of_row_normalised. now apply Nat.eqb_eq in E.
  - intros cache id n H.
    apply Get_ok_row in H as (r & _ & _ & _ & Hwf & ->).
    now apply node_of_row_normalised.
Qed.

Lemma convertOverlayNode_normalised_witness :
  normalised (sample_node x02 10).
Proof.
  exact (proj2 (convertOverlayNode_normalised None)
           sample_store (sample_id x02) (sample_node x02 10) eq_refl).
Defined.
